(** * Email classifier: feature extraction and model selection

    A shallow embedding of [ml/prepare_training_data.py] and
    [ml/train_model.py].

    - [Text]: Python [str] operations used by the extractor ([lower],
      [in], [len]) and the fragment of [re] its three patterns need.
    - [Features]: [extract_features], [prepare_dataset] and the pandas
      frames they build.
    - [Trainer]: [train_email_classifier] over an explicit object store,
      with scikit-learn taken as an interface.
    - [Scripted]: concrete instances of that interface, to run the
      pipeline on the sample emails.
    - [Runs]: the notions the statements about runs are written with.
    - [Notions]: shapes of text and the files a run may write.

    The modules after [Notions] hold the proofs.  Strings are [string]s whose
    characters are read as code points below 256; counts and lengths are
    [Z]; printing is left out. *)

From Stdlib Require Import ZArith QArith Ascii String List Bool Lia.
From stdpp Require Import base gmap strings list.

Open Scope Z_scope.

(* ===================================================================== *)
(** * Python text primitives *)
(* ===================================================================== *)

Module Text.

(** ** Characters *)

Definition code (c : ascii) : N := N_of_ascii c.

Definition in_range (lo hi : N) (c : ascii) : bool :=
  ((lo <=? code c) && (code c <=? hi))%N.

(** [str.lower] on one character.  Below 256 the cased upper-case letters
    are A-Z and U+00C0..U+00DE without the multiplication sign U+00D7;
    each maps to the character 32 positions later. *)
Definition lower_char (c : ascii) : ascii :=
  if in_range 65 90 c || (in_range 192 222 c && negb (code c =? 215)%N)
  then ascii_of_N (code c + 32)
  else c.

(** [s.lower()] *)
Fixpoint lower (s : string) : string :=
  match s with
  | EmptyString => EmptyString
  | String c s' => String (lower_char c) (lower s')
  end.

(** [len(s)] *)
Definition len (s : string) : Z := Z.of_nat (String.length s).

(** ** Substring test *)

(** [s.startswith(k)] *)
Fixpoint starts_with (k s : string) : bool :=
  match k, s with
  | EmptyString, _ => true
  | String _ _, EmptyString => false
  | String a k', String b s' => Ascii.eqb a b && starts_with k' s'
  end.

(** [k in s] for two strings: [k] occurs in [s] at some offset. *)
Fixpoint str_in (k s : string) : bool :=
  starts_with k s ||
  match s with
  | EmptyString => false
  | String _ s' => str_in k s'
  end.

(** The declarative reading of [k in s]. *)
Definition occurs_in (k s : string) : Prop :=
  exists a b : string, s = a +:+ k +:+ b.

(** ** Regular expressions (the fragment of [re] the patterns use) *)

Inductive regex : Type :=
| RVoid
| REps
| RChar (c : ascii)
| RClass (p : ascii -> bool)
| RSeq (r1 r2 : regex)
| RAlt (r1 r2 : regex)
| RStar (r : regex).

(** [r+], [r?] and a literal word. *)
Definition RPlus (r : regex) : regex := RSeq r (RStar r).
Definition ROpt (r : regex) : regex := RAlt r REps.

Fixpoint RLit (w : string) : regex :=
  match w with
  | EmptyString => REps
  | String c w' => RSeq (RChar c) (RLit w')
  end.

Fixpoint RAlts (rs : list regex) : regex :=
  match rs with
  | [] => RVoid
  | [r] => r
  | r :: rs' => RAlt r (RAlts rs')
  end.

(** Character classes of a [str] pattern, below 256.
    [\d]: decimal digits (category Nd). *)
Definition is_digit (c : ascii) : bool := in_range 48 57 c.

(** [\s]: TAB..CR, FS..US, space, NEL and no-break space. *)
Definition is_space (c : ascii) : bool :=
  in_range 9 13 c || in_range 28 32 c || (code c =? 133)%N || (code c =? 160)%N.

(** [\w]: alphanumeric characters and the underscore. *)
Definition is_word (c : ascii) : bool :=
  in_range 48 57 c || in_range 65 90 c || in_range 97 122 c || (code c =? 95)%N
  || (code c =? 170)%N || (code c =? 181)%N || (code c =? 186)%N
  || in_range 178 179 c || (code c =? 185)%N || in_range 188 190 c
  || in_range 192 214 c || in_range 216 246 c || in_range 248 255 c.

(** The language of a pattern. *)
Inductive matches : regex -> string -> Prop :=
| MEps : matches REps EmptyString
| MChar c : matches (RChar c) (String c EmptyString)
| MClass p c : p c = true -> matches (RClass p) (String c EmptyString)
| MSeq r1 r2 s1 s2 :
    matches r1 s1 -> matches r2 s2 -> matches (RSeq r1 r2) (s1 +:+ s2)
| MAltL r1 r2 s : matches r1 s -> matches (RAlt r1 r2) s
| MAltR r1 r2 s : matches r2 s -> matches (RAlt r1 r2) s
| MStar0 r : matches (RStar r) EmptyString
| MStarS r s1 s2 :
    matches r s1 -> matches (RStar r) s2 -> matches (RStar r) (s1 +:+ s2).

(** Matching by derivatives. *)
Fixpoint nullable (r : regex) : bool :=
  match r with
  | RVoid => false
  | REps => true
  | RChar _ => false
  | RClass _ => false
  | RSeq r1 r2 => nullable r1 && nullable r2
  | RAlt r1 r2 => nullable r1 || nullable r2
  | RStar _ => true
  end.

Fixpoint deriv (c : ascii) (r : regex) : regex :=
  match r with
  | RVoid => RVoid
  | REps => RVoid
  | RChar d => if Ascii.eqb d c then REps else RVoid
  | RClass p => if p c then REps else RVoid
  | RSeq r1 r2 =>
      if nullable r1
      then RAlt (RSeq (deriv c r1) r2) (deriv c r2)
      else RSeq (deriv c r1) r2
  | RAlt r1 r2 => RAlt (deriv c r1) (deriv c r2)
  | RStar r1 => RSeq (deriv c r1) (RStar r1)
  end.

(** Some prefix of [s] is in the language of [r]: [re.match(r, s)] is not
    [None]. *)
Fixpoint re_match (r : regex) (s : string) : bool :=
  nullable r ||
  match s with
  | EmptyString => false
  | String c s' => re_match (deriv c r) s'
  end.


(** [bool(re.search(r, s))]: a match starts at some offset of [s]. *)
Fixpoint re_search (r : regex) (s : string) : bool :=
  re_match r s ||
  match s with
  | EmptyString => false
  | String _ s' => re_search r s'
  end.

(** The declarative reading of a successful search. *)
Definition found_in (r : regex) (s : string) : Prop :=
  exists a w b : string, s = a +:+ w +:+ b /\ matches r w.

End Text.

(* ===================================================================== *)
(** * Python values, dictionaries and exceptions *)
(* ===================================================================== *)

Module Py.

(** Values stored in feature dictionaries, frames and arrays. *)
Inductive value : Type :=
| VInt (n : Z)
| VBool (b : bool)
| VStr (s : string)
| VFloat (q : Q)
| VNaN.

(** Exceptions, by class name. *)
Inductive exn : Type :=
| KeyError (key : string)
| ValueError (what : string)
| AttributeError (what : string)
| IndexError (what : string)
| FileNotFoundError (path : string).

Inductive result (A : Type) : Type :=
| Ok (a : A)
| Err (e : exn).
Arguments Ok {A} a.
Arguments Err {A} e.

Definition rbind {A B : Type} (r : result A) (k : A -> result B) : result B :=
  match r with
  | Ok a => k a
  | Err e => Err e
  end.

(** A [dict] with string keys, in insertion order. *)
Definition dict (V : Type) : Type := list (string * V).

(** [d.get(k)] *)
Fixpoint dict_get {V : Type} (k : string) (d : dict V) : option V :=
  match d with
  | [] => None
  | (k', v) :: d' => if String.eqb k k' then Some v else dict_get k d'
  end.

(** [d[k] = v]: an existing key keeps its position, a new key goes last. *)
Fixpoint dict_set {V : Type} (k : string) (v : V) (d : dict V) : dict V :=
  match d with
  | [] => [(k, v)]
  | (k', v') :: d' =>
      if String.eqb k k' then (k, v) :: d' else (k', v') :: dict_set k v d'
  end.

(** [list(d.keys())] *)
Definition keys {V : Type} (d : dict V) : list string := map fst d.

(** [x in l] for a list of strings. *)
Definition str_elem (x : string) (l : list string) : bool :=
  existsb (String.eqb x) l.

(** [sum(l)]: left to right from 0. *)
Definition sum (l : list Z) : Z := fold_left Z.add l 0.

End Py.

(* ===================================================================== *)
(** * Feature extraction and dataset building
      ([ml/prepare_training_data.py]) *)
(* ===================================================================== *)

Module Features.
Import Text Py.

(** An email [dict]: each of the keys ['subject'], ['body'], ['sender'] and
    ['type'] is present with a string or absent. *)
Record Email : Type := {
  subject : option string;
  body : option string;
  sender : option string;
  type : option string
}.

Definition email_of (s b f t : string) : Email :=
  {| subject := Some s; body := Some b; sender := Some f; type := Some t |}.

(** [email.get(key, '')] *)
Definition get (field : option string) (dflt : string) : string :=
  match field with
  | Some s => s
  | None => dflt
  end.

(** [email[key]] *)
Definition getitem (key : string) (field : option string) : result string :=
  match field with
  | Some s => Ok s
  | None => Err (KeyError key)
  end.

(** The labelled sample emails. *)
Definition training_data : list Email := [
  email_of "New Cargo Inquiry - 500 MT Steel Pipes"
    "We have a cargo of 500 metric tons of steel pipes ready for shipment from Shanghai to Rotterdam. Looking for suitable vessel."
    "cargo@logistics.com" "CARGO";
  email_of "Urgent: Container booking needed"
    "Need to book 20 TEU containers for electronics shipment. Origin: Shenzhen, Destination: Hamburg"
    "shipper@export.cn" "CARGO";
  email_of "Bulk cargo - Grain shipment"
    "50,000 MT wheat cargo available ex Brazil ports. Looking for Panamax vessel for voyage to Mediterranean"
    "graintrader@agri.br" "CARGO";
  email_of "Project cargo inquiry"
    "Heavy lift cargo consisting of turbines and generators. Total weight 200 MT. Need specialized vessel with cranes"
    "project@energy.de" "CARGO";
  email_of "Chemical tanker cargo"
    "5000 MT caustic soda solution for shipment. IMO Class 8. Need chemical tanker with stainless steel tanks"
    "chemical@trade.com" "CARGO";
  email_of "Coal shipment inquiry"
    "Steam coal cargo 75,000 MT available at Indonesian ports. Looking for Capesize vessel"
    "coal@mining.id" "CARGO";
  email_of "Reefer cargo - Frozen food"
    "1000 MT frozen chicken cargo. Temperature requirement -18C. Need reefer vessel or containers"
    "food@export.th" "CARGO";
  email_of "Iron ore cargo tender"
    "Iron ore fines 170,000 MT from Australia to China. Capesize vessel required"
    "ironore@resources.au" "CARGO";
  email_of "LNG cargo spot sale"
    "LNG cargo 145,000 cbm available for spot sale. Loading port: Qatar, discharge options Asia"
    "lng@energy.qa" "CARGO";
  email_of "Cement cargo booking"
    "Bulk cement 10,000 MT in bags. From Vietnam to Philippines. Need geared vessel"
    "cement@construction.vn" "CARGO";
  email_of "MV Pacific Dream - Open for cargo"
    "Vessel MV Pacific Dream, Handymax bulk carrier, DWT 58,000 MT, open at Singapore from next week. Ready for grain/coal cargoes"
    "operations@shipping.sg" "VESSEL";
  email_of "Container vessel available"
    "Container vessel 8,500 TEU capacity available for charter. Current position Mediterranean. Can accommodate reefer containers"
    "chartering@maritime.gr" "VESSEL";
  email_of "Tanker vessel for spot charter"
    "Product tanker, 50,000 DWT, double hull, available for spot charter. All certificates valid. Position: Persian Gulf"
    "tanker@fleet.ae" "VESSEL";
  email_of "Bulk carrier open position"
    "Panamax bulk carrier, 75,000 DWT, 5 holds/5 hatches, geared with 4x30T cranes. Open Japan next month"
    "bulkops@vessel.jp" "VESSEL";
  email_of "Chemical tanker available"
    "Chemical tanker 20,000 DWT, stainless steel tanks, IMO II/III. Valid certificates. Open Houston area"
    "chemical@tankers.us" "VESSEL";
  email_of "VLCC for time charter"
    "VLCC 300,000 DWT available for 1-year time charter. Double hull, 15 years old. All surveys passed"
    "vlcc@supertanker.no" "VESSEL";
  email_of "General cargo vessel"
    "General cargo vessel 12,000 DWT with box-shaped holds. Good for project cargo. Open Mediterranean"
    "general@cargo.it" "VESSEL";
  email_of "LNG carrier available"
    "LNG carrier 155,000 cbm capacity, membrane type, available for spot or term charter"
    "lng@carriers.kr" "VESSEL";
  email_of "Capesize bulk carrier"
    "Capesize vessel 180,000 DWT open Brazil. Suitable for iron ore and coal shipments"
    "cape@bulk.cn" "VESSEL";
  email_of "Multipurpose vessel MPP"
    "MPP vessel 8,000 DWT with 2x120T cranes. Suitable for containers, bulk and breakbulk cargo"
    "mpp@versatile.nl" "VESSEL";
  email_of "Scrap metal cargo"
    "HMS 1&2 scrap metal 5,000 MT ready for loading. Need bulk carrier with grabs"
    "scrap@recycling.in" "CARGO";
  email_of "Timber logs shipment"
    "Timber logs from West Africa to China. Volume 15,000 cbm. Need log carrier"
    "timber@forestry.cm" "CARGO";
  email_of "Bagged rice cargo"
    "Rice in 50kg bags, total 8,000 MT. From Thailand to West Africa ports"
    "rice@agri.th" "CARGO";
  email_of "Automotive parts in containers"
    "Auto parts shipment, 40 x 40ft containers. From Germany to USA East Coast"
    "auto@parts.de" "CARGO";
  email_of "Crude oil cargo tender"
    "Crude oil cargo 2 million barrels available. Loading at Middle East ports"
    "crude@petroleum.sa" "CARGO";
  email_of "Feeder vessel 1,700 TEU"
    "Small container vessel 1,700 TEU available for charter. Ideal for feeder service"
    "feeder@container.dk" "VESSEL";
  email_of "Oil tanker Aframax size"
    "Aframax tanker 115,000 DWT, ice class, available Baltic Sea area"
    "aframax@tanker.fi" "VESSEL";
  email_of "Car carrier PCTC available"
    "Pure car truck carrier 6,500 cars capacity. Available for charter Asia-Europe trade"
    "pctc@roro.jp" "VESSEL";
  email_of "Heavy lift vessel with cranes"
    "Heavy lift vessel with 2x400T cranes. Suitable for project cargo and offshore equipment"
    "heavylift@special.de" "VESSEL";
  email_of "Handysize bulk carrier prompt"
    "Handysize 35,000 DWT prompt vessel available South America east coast"
    "handy@bulk.ar" "VESSEL"
]%string.

Definition cargo_keywords : list string := [
  "cargo"; "shipment"; "loading"; "discharge"; "commodity"; "mt"; "metric tons";
  "teu"; "container"; "bulk"; "breakbulk"; "project cargo"; "reefer";
  "grain"; "coal"; "iron ore"; "steel"; "chemical"; "oil"; "lng"; "cement";
  "timber"; "logs"; "rice"; "wheat"; "sugar"; "fertilizer"; "bauxite";
  "alumina"; "copper"; "nickel"; "scrap"; "metal"; "frozen"; "food";
  "electronics"; "automotive"; "parts"; "machinery"; "equipment";
  "need vessel"; "looking for vessel"; "require vessel"; "booking";
  "freight rate"; "laycan"; "load port"; "discharge port"; "destination"
]%string.

Definition vessel_keywords : list string := [
  "vessel"; "ship"; "mv"; "m/v"; "dwt"; "draft"; "loa"; "beam"; "open";
  "available"; "position"; "charter"; "hire"; "tc"; "time charter";
  "voyage charter"; "spot"; "panamax"; "capesize"; "handymax"; "handysize";
  "supramax"; "ultramax"; "vlcc"; "suezmax"; "aframax"; "tanker";
  "bulk carrier"; "container vessel"; "general cargo"; "multipurpose";
  "mpp"; "heavy lift"; "chemical tanker"; "product tanker"; "lng carrier";
  "lpg carrier"; "car carrier"; "pctc"; "roro"; "reefer vessel";
  "crane"; "gear"; "geared"; "gearless"; "holds"; "hatches";
  "ice class"; "double hull"; "certificates"; "class"; "flag"
]%string.

(** [\d+[\s,]*(?:mt|tons?|dwt|teu|cbm)] *)
Definition tonnage_re : regex :=
  RSeq (RPlus (RClass is_digit))
    (RSeq (RStar (RClass (fun c => is_space c || Ascii.eqb c ",")))
       (RAlts [RLit "mt"; RSeq (RLit "ton") (ROpt (RChar "s"));
               RLit "dwt"; RLit "teu"; RLit "cbm"])).

(** [m/?v\s+[\w\s]+] *)
Definition vessel_name_re : regex :=
  RSeq (RChar "m")
    (RSeq (ROpt (RChar "/"))
       (RSeq (RChar "v")
          (RSeq (RPlus (RClass is_space))
             (RPlus (RClass (fun c => is_word c || is_space c)))))).

(** [(singapore|rotterdam|shanghai|houston|hamburg|santos|yokohama)] *)
Definition port_re : regex :=
  RAlts (map RLit ["singapore"; "rotterdam"; "shanghai"; "houston";
                   "hamburg"; "santos"; "yokohama"]%string).

Definition shipping_domains : list string :=
  ["shipping"; "maritime"; "vessel"; "fleet"; "tanker"; "bulk"]%string.

Definition cargo_domains : list string :=
  ["cargo"; "logistics"; "export"; "import"; "trade"; "commodity"]%string.

(** [f"{email.get('subject', '')} {email.get('body', '')}"] *)
Definition raw_text (email : Email) : string :=
  get (subject email) "" +:+ " " +:+ get (body email) "".

(** [text]: the raw text, lower-cased. *)
Definition search_text (email : Email) : string :=
  lower (raw_text email).

(** [sum(1 for keyword in keywords if keyword in text)] *)
Definition keyword_count (keywords : list string) (text : string) : Z :=
  sum (map (fun _ => 1) (List.filter (fun keyword => str_in keyword text) keywords)).

(** [any(domain in sender for domain in domains)] *)
Definition any_domain (domains : list string) (sender : string) : bool :=
  existsb (fun domain => str_in domain sender) domains.

Definition extract_features (email : Email) : dict value :=
  let features := [] in
  let text := search_text email in
  let features := dict_set "cargo_keyword_count"
                    (VInt (keyword_count cargo_keywords text)) features in
  let features := dict_set "vessel_keyword_count"
                    (VInt (keyword_count vessel_keywords text)) features in
  let features := dict_set "has_tonnage"
                    (VBool (re_search tonnage_re text)) features in
  let features := dict_set "has_vessel_name"
                    (VBool (re_search vessel_name_re text)) features in
  let features := dict_set "has_port_names"
                    (VBool (re_search port_re text)) features in
  let features := dict_set "subject_length"
                    (VInt (len (get (subject email) ""))) features in
  let features := dict_set "body_length"
                    (VInt (len (get (body email) ""))) features in
  let sender := get (sender email) "" in
  let features := dict_set "is_shipping_domain"
                    (VBool (any_domain shipping_domains sender)) features in
  let features := dict_set "is_cargo_domain"
                    (VBool (any_domain cargo_domains sender)) features in
  features.

(** The field order of a feature record. *)
Definition feature_names : list string := [
  "cargo_keyword_count"; "vessel_keyword_count"; "has_tonnage";
  "has_vessel_name"; "has_port_names"; "subject_length"; "body_length";
  "is_shipping_domain"; "is_cargo_domain"
]%string.

(** The phrases of a keyword list that a text contains, as a set. *)
Definition phrases_found (keywords : list string) (text : string) : gset string :=
  list_to_set (List.filter (fun keyword => str_in keyword text) keywords).

(** The cells of one table row: the feature values in field order. *)
Definition feature_row (email : Email) : list value :=
  map snd (extract_features email).

(** ** Frames *)

(** A [pandas.DataFrame] with a default index: column labels in order and
    the rows, each holding one cell per column. *)
Record DataFrame : Type := {
  columns : list string;
  rows : list (list value)
}.

(** Column labels of [pd.DataFrame(records)]: the keys of the records in
    order of first appearance. *)
Definition add_keys (cols : list string) (d : dict value) : list string :=
  fold_left (fun acc k => if str_elem k acc then acc else acc ++ [k]) (keys d) cols.

Definition record_columns (records : list (dict value)) : list string :=
  fold_left add_keys records [].

(** [pd.DataFrame(records)]: one row per record, in order; a key a record
    lacks gives NaN. *)
Definition frame_of_records (records : list (dict value)) : DataFrame :=
  let cols := record_columns records in
  {| columns := cols;
     rows := map (fun d => map (fun c => match dict_get c d with
                                         | Some v => v
                                         | None => VNaN
                                         end) cols) records |}.

Fixpoint index_of (k : string) (l : list string) : option nat :=
  match l with
  | [] => None
  | k' :: l' => if String.eqb k k' then Some O
                else option_map S (index_of k l')
  end.

(** [df[name] = vals] for a list [vals]: the lengths must agree, except on
    a frame without rows, which takes its index from [vals]. *)
Definition set_column (name : string) (vals : list value) (df : DataFrame) : result DataFrame :=
  let df := match rows df, vals with
            | [], _ :: _ =>
                {| columns := columns df;
                   rows := map (fun _ => map (fun _ => VNaN) (columns df)) vals |}
            | _, _ => df
            end in
  if negb (Nat.eqb (length vals) (length (rows df)))
  then Err (ValueError "Length of values does not match length of index")
  else match index_of name (columns df) with
       | Some i =>
           Ok {| columns := columns df;
                 rows := zip_with (fun row v => <[i := v]> row) (rows df) vals |}
       | None =>
           Ok {| columns := columns df ++ [name];
                 rows := zip_with (fun row v => row ++ [v]) (rows df) vals |}
       end.

(** [df[name].values] *)
Definition column (name : string) (df : DataFrame) : result (list value) :=
  match index_of name (columns df) with
  | Some i => Ok (map (fun row => nth i row VNaN) (rows df))
  | None => Err (KeyError name)
  end.

(** [df[names].values]: the cells of the named columns, row by row. *)
Fixpoint column_indices (names cols : list string) : result (list nat) :=
  match names with
  | [] => Ok []
  | name :: names' =>
      match index_of name cols with
      | Some i => rbind (column_indices names' cols) (fun is_ => Ok (i :: is_))
      | None => Err (KeyError name)
      end
  end.

Definition select_values (names : list string) (df : DataFrame) : result (list (list value)) :=
  rbind (column_indices names (columns df)) (fun is_ =>
  Ok (map (fun row => map (fun i => nth i row VNaN) is_) (rows df))).

(** ** Dataset building *)

(** One turn of the loop of [prepare_dataset]:
    [X.append(extract_features(email)); y.append(email['type'])]. *)
Definition prepare_step (acc : list (dict value) * list string) (email : Email)
  : result (list (dict value) * list string) :=
  let '(X, y) := acc in
  let features := extract_features email in
  let X := X ++ [features] in
  rbind (getitem "type" (type email)) (fun label =>
  Ok (X, y ++ [label])).

Fixpoint prepare_loop (emails : list Email) (acc : list (dict value) * list string)
  : result (list (dict value) * list string) :=
  match emails with
  | [] => Ok acc
  | email :: rest => rbind (prepare_step acc email) (prepare_loop rest)
  end.

(** [prepare_dataset], with the corpus it iterates over as an argument. *)
Definition prepare_dataset_of (corpus : list Email) : result DataFrame :=
  rbind (prepare_loop corpus ([], [])) (fun '(X, y) =>
  let df_features := frame_of_records X in
  set_column "label" (map VStr y) df_features).

Definition prepare_dataset : result DataFrame :=
  prepare_dataset_of training_data.

End Features.

(* ===================================================================== *)
(** * Model selection and persistence ([ml/train_model.py]) *)
(* ===================================================================== *)

Module Trainer.
Import Text Py Features.

(** ** Arrays, scores and objects *)

(** [df[...].values] and label vectors. *)
Definition Matrix : Type := list (list value).
Definition Labels : Type := list value.

(** A Python [float] score. *)
Inductive pyfloat : Type :=
| Fin (q : Q)
| NaN.

(** [a > b]; a comparison with NaN is [False]. *)
Definition float_gt (a b : pyfloat) : bool :=
  match a, b with
  | Fin x, Fin y => (Qnum y * Zpos (Qden x) <? Qnum x * Zpos (Qden y))%Z
  | _, _ => false
  end.

(** [==] on array elements. *)
Definition value_eqb (a b : value) : bool :=
  match a, b with
  | VInt x, VInt y => (x =? y)%Z
  | VBool x, VBool y => Bool.eqb x y
  | VStr x, VStr y => String.eqb x y
  | VFloat x, VFloat y => Qeq_bool x y
  | _, _ => false
  end.

(** [sklearn.metrics.accuracy_score]: the fraction of positions where the
    prediction equals the truth, NaN when there is no position.  The
    quotient is kept exact: on one test partition two scores compare like
    their counts of correct predictions. *)
Definition accuracy_score (y_true y_pred : Labels) : result pyfloat :=
  if negb (Nat.eqb (length y_true) (length y_pred))
  then Err (ValueError "Found input variables with inconsistent numbers of samples")
  else match y_true with
       | [] => Ok NaN
       | _ :: _ =>
           let hits := length (List.filter (fun p => value_eqb (fst p) (snd p))
                                 (combine y_true y_pred)) in
           Ok (Fin (Z.of_nat hits # Pos.of_nat (length y_true)))
       end.

(** An unfitted estimator: its class and constructor arguments. *)
Record Estimator : Type := {
  cls : string;
  params : dict value
}.

(** Objects on the heap.  A fitted scaler or estimator is determined by
    the data of its last [fit] (every [random_state] is fixed), so the
    fitted state is recorded as that data. *)
Inductive obj : Type :=
| OScaler (fitted_on : option Matrix)
| OModel (est : Estimator) (fitted_on : option (Matrix * Labels)).

(** Heap addresses. *)
Abbreviation loc := nat (only parsing).

(** ** scikit-learn, as an interface *)

(** What the pipeline uses of scikit-learn.  Each entry may raise. *)
Record Sklearn : Type := {
  (** [train_test_split(X, y, test_size=0.2, random_state=42, stratify=y)] *)
  train_test_split : Matrix -> Labels -> result (Matrix * Matrix * Labels * Labels);
  (** input validation of [StandardScaler.fit] *)
  scaler_check : Matrix -> result unit;
  (** [transform] of a scaler fitted on the first argument *)
  scaler_apply : Matrix -> Matrix -> result Matrix;
  (** whether [fit] of an estimator on the given data goes through *)
  estimator_check : Estimator -> Matrix -> Labels -> result unit;
  (** [predict] of an estimator fitted on the given data *)
  estimator_predict : Estimator -> Matrix -> Labels -> Matrix -> result Labels;
  (** [predict_proba] of an estimator fitted on the given data *)
  estimator_predict_proba :
    Estimator -> Matrix -> Labels -> Matrix -> result (list (list pyfloat));
  (** [cross_val_score(model, X, y, cv=5)], which fits clones of [model] *)
  cross_val_score : Estimator -> Matrix -> Labels -> result (list pyfloat)
}.

(** ** Files *)

Inductive pickled : Type :=
| PNone
| PObj (src : loc) (snapshot : obj).

(** The [dict] written to [ml/model_metadata.json]. *)
Record Metadata : Type := {
  model_type : option string;
  accuracy : pyfloat;
  feature_columns : list string;
  classes : list string;
  needs_scaling : bool
}.

Inductive file : Type :=
| FCsv (df : DataFrame)
| FPickle (p : pickled)
| FJson (metadata : Metadata).

(** ** Program state *)

(** Calls on objects, in program order. *)
Inductive event : Type :=
| EScalerFit (l : loc) (X : Matrix)
| EScalerTransform (l : loc) (X : Matrix)
| EModelFit (l : loc) (X : Matrix) (y : Labels)
| EModelPredict (l : loc) (X : Matrix)
| EDump (p : pickled) (path : string).

Record state : Type := {
  heap : gmap nat obj;
  next_loc : loc;
  fs : gmap string file;
  log : list event
}.

Definition init_state : state :=
  {| heap := ∅; next_loc := O; fs := ∅; log := [] |}.

(** Computations: a result and the state reached, also on an exception. *)
Definition M (A : Type) : Type := state -> result A * state.

Definition ret {A : Type} (a : A) : M A := fun s => (Ok a, s).

Definition bind {A B : Type} (m : M A) (k : A -> M B) : M B :=
  fun s => match m s with
           | (Ok a, s') => k a s'
           | (Err e, s') => (Err e, s')
           end.

Definition raise {A : Type} (e : exn) : M A := fun s => (Err e, s).

Definition lift {A : Type} (r : result A) : M A := fun s => (r, s).

(** The sequencing notations [x ← m; k] and [m ;; k] are stdpp's. *)
#[global] Instance M_ret : MRet M := @ret.
#[global] Instance M_bind : MBind M := fun A B k m => bind m k.

Definition emit (e : event) : M unit :=
  fun s => (Ok tt, {| heap := heap s; next_loc := next_loc s; fs := fs s;
                      log := log s ++ [e] |}).

Definition alloc (o : obj) : M loc :=
  fun s => (Ok (next_loc s),
            {| heap := <[next_loc s := o]> (heap s); next_loc := S (next_loc s);
               fs := fs s; log := log s |}).

Definition store (l : loc) (o : obj) : M unit :=
  fun s => (Ok tt, {| heap := <[l := o]> (heap s); next_loc := next_loc s;
                      fs := fs s; log := log s |}).

Definition write_file (path : string) (f : file) : M unit :=
  fun s => (Ok tt, {| heap := heap s; next_loc := next_loc s;
                      fs := <[path := f]> (fs s); log := log s |}).

Definition get_scaler (l : loc) : M (option Matrix) :=
  fun s => match heap s !! l with
           | Some (OScaler st) => (Ok st, s)
           | _ => (Err (AttributeError "not a scaler"), s)
           end.

Definition get_model (l : loc) : M (Estimator * option (Matrix * Labels)) :=
  fun s => match heap s !! l with
           | Some (OModel est st) => (Ok (est, st), s)
           | _ => (Err (AttributeError "not an estimator"), s)
           end.

Definition deref (l : loc) : M obj :=
  fun s => match heap s !! l with
           | Some o => (Ok o, s)
           | None => (Err (AttributeError "dangling reference"), s)
           end.

(** [l[i]] *)
Definition item {A : Type} (l : list A) (i : nat) : M A :=
  match nth_error l i with
  | Some a => mret a
  | None => raise (IndexError "index out of range")
  end.

(** [pd.read_csv(path)]: the frame the file holds, header and row order
    kept. *)
Definition read_csv (path : string) : M DataFrame :=
  fun s => match fs s !! path with
           | Some (FCsv df) => (Ok df, s)
           | Some _ => (Err (ValueError "Error tokenizing data"), s)
           | None => (Err (FileNotFoundError path), s)
           end.

(** [df.to_csv(path, index=False)] *)
Definition to_csv (df : DataFrame) (path : string) : M unit :=
  write_file path (FCsv df).

(** [joblib.dump(obj, path)]: the file holds the state the object has at
    the time of the call. *)
Definition joblib_dump (r : option loc) (path : string) : M unit :=
  match r with
  | None => emit (EDump PNone path);; write_file path (FPickle PNone)
  | Some l =>
      o ← deref l;
      emit (EDump (PObj l o) path);;
      write_file path (FPickle (PObj l o))
  end.

(** [json.dump(metadata, f)] on [open(path, 'w')] *)
Definition json_dump (metadata : Metadata) (path : string) : M unit :=
  write_file path (FJson metadata).

Section Pipeline.

Variable lib : Sklearn.

(** [scaler.fit(X)] *)
Definition scaler_fit (l : loc) (X : Matrix) : M unit :=
  get_scaler l;;
  emit (EScalerFit l X);;
  lift (scaler_check lib X);;
  store l (OScaler (Some X)).

(** [scaler.transform(X)] *)
Definition scaler_transform (l : loc) (X : Matrix) : M Matrix :=
  st ← get_scaler l;
  emit (EScalerTransform l X);;
  match st with
  | None => raise (ValueError "This StandardScaler instance is not fitted yet")
  | Some X0 => lift (scaler_apply lib X0 X)
  end.

(** [scaler.fit_transform(X)] *)
Definition scaler_fit_transform (l : loc) (X : Matrix) : M Matrix :=
  scaler_fit l X;;
  scaler_transform l X.

(** [model.fit(X, y)] *)
Definition model_fit (l : loc) (X : Matrix) (y : Labels) : M unit :=
  '(est, _) ← get_model l;
  emit (EModelFit l X y);;
  lift (estimator_check lib est X y);;
  store l (OModel est (Some (X, y))).

(** [model.predict(X)] *)
Definition model_predict (l : loc) (X : Matrix) : M Labels :=
  '(est, st) ← get_model l;
  emit (EModelPredict l X);;
  match st with
  | None => raise (ValueError "This estimator instance is not fitted yet")
  | Some (X0, y0) => lift (estimator_predict lib est X0 y0 X)
  end.

(** [model.predict_proba(X)] *)
Definition model_predict_proba (l : loc) (X : Matrix) : M (list (list pyfloat)) :=
  '(est, st) ← get_model l;
  match st with
  | None => raise (ValueError "This estimator instance is not fitted yet")
  | Some (X0, y0) => lift (estimator_predict_proba lib est X0 y0 X)
  end.

(** [cross_val_score(model, X, y, cv=5)]; [model] itself is left as it is. *)
Definition cv_score (l : loc) (X : Matrix) (y : Labels) : M (list pyfloat) :=
  '(est, _) ← get_model l;
  lift (cross_val_score lib est X y).

(** Method calls through a variable that may hold [None]. *)
Definition fit_of (r : option loc) (X : Matrix) (y : Labels) : M unit :=
  match r with
  | Some l => model_fit l X y
  | None => raise (AttributeError "'NoneType' object has no attribute 'fit'")
  end.

Definition predict_of (r : option loc) (X : Matrix) : M Labels :=
  match r with
  | Some l => model_predict l X
  | None => raise (AttributeError "'NoneType' object has no attribute 'predict'")
  end.

Definition predict_proba_of (r : option loc) (X : Matrix) : M (list (list pyfloat)) :=
  match r with
  | Some l => model_predict_proba l X
  | None => raise (AttributeError "'NoneType' object has no attribute 'predict_proba'")
  end.

(** The [models] dict, in declaration order. *)
Definition candidates : dict Estimator := [
  ("RandomForest",
   {| cls := "RandomForestClassifier";
      params := [("n_estimators", VInt 100); ("max_depth", VInt 10);
                 ("min_samples_split", VInt 2); ("min_samples_leaf", VInt 1);
                 ("random_state", VInt 42)] |});
  ("GradientBoosting",
   {| cls := "GradientBoostingClassifier";
      params := [("n_estimators", VInt 100); ("learning_rate", VFloat (1 # 10));
                 ("max_depth", VInt 5); ("random_state", VInt 42)] |});
  ("LogisticRegression",
   {| cls := "LogisticRegression";
      params := [("max_iter", VInt 1000); ("random_state", VInt 42)] |});
  ("SVM",
   {| cls := "SVC";
      params := [("kernel", VStr "rbf"); ("probability", VBool true);
                 ("random_state", VInt 42)] |})
]%string.

Fixpoint make_models (specs : dict Estimator) : M (dict loc) :=
  match specs with
  | [] => mret []
  | (name, est) :: rest =>
      model ← alloc (OModel est None);
      models ← make_models rest;
      mret ((name, model) :: models)
  end.

(** [['LogisticRegression', 'SVM']] *)
Definition scaled_names : list string := ["LogisticRegression"; "SVM"]%string.

(** [name in ['LogisticRegression', 'SVM']], where [name] may be [None]. *)
Definition name_in_scaled (name : option string) : bool :=
  match name with
  | Some n => str_elem n scaled_names
  | None => false
  end.

(** The variables the comparison loop updates. *)
Record Best : Type := {
  best_model : option loc;
  best_score : pyfloat;
  best_model_name : option string
}.

(** The partitions the loop reads. *)
Record Views : Type := {
  X_train : Matrix;
  X_test : Matrix;
  y_train : Labels;
  y_test : Labels;
  X_train_scaled : Matrix;
  X_test_scaled : Matrix
}.

(** One turn of [for name, model in models.items()]. *)
Definition evaluate (v : Views) (st : Best) (entry : string * loc) : M Best :=
  let '(name, model) := entry in
  '(y_pred, train_data) ←
    (if str_elem name scaled_names
     then model_fit model (X_train_scaled v) (y_train v);;
          y_pred ← model_predict model (X_test_scaled v);
          mret (y_pred, X_train_scaled v)
     else model_fit model (X_train v) (y_train v);;
          y_pred ← model_predict model (X_test v);
          mret (y_pred, X_train v));
  accuracy ← lift (accuracy_score (y_test v) y_pred);
  cv_score model train_data (y_train v);;
  if float_gt accuracy (best_score st)
  then mret {| best_score := accuracy;
               best_model := Some model;
               best_model_name := Some name |}
  else mret st.

Fixpoint for_each {A S : Type} (body : S -> A -> M S) (items : list A) (st : S) : M S :=
  match items with
  | [] => mret st
  | a :: rest => st' ← body st a; for_each body rest st'
  end.

(** Lines 16-22: load the table and separate features and labels. *)
Definition load_training_data : M (list string * Matrix * Labels) :=
  df ← read_csv "ml/training_data.csv";
  let feature_columns :=
    List.filter (fun col => negb (String.eqb col "label")) (columns df) in
  X ← lift (select_values feature_columns df);
  y ← lift (column "label" df);
  mret (feature_columns, X, y).

(** Lines 123-154: predictions for one sample email, printed only. *)
Definition smoke_test (feature_columns : list string) (metadata : Metadata)
    (scaler : loc) (best_model : option loc) (email : Email) : M unit :=
  let features := extract_features email in
  features_df ← lift (select_values feature_columns (frame_of_records [features]));
  features_array ← (if needs_scaling metadata
                    then scaler_transform scaler features_df
                    else mret features_df);
  predictions ← predict_of best_model features_array;
  item predictions 0;;
  probabilities ← predict_proba_of best_model features_array;
  probability ← item probabilities 0;
  item probability 0;;
  item probability 1;;
  mret tt.

Definition test_emails : list Email := [
  {| subject := Some "Steel coils 5000 MT ready for shipment";
     body := Some "We have steel coils ready at Shanghai port. Need vessel for Japan";
     sender := Some "steel@export.cn"; type := None |};
  {| subject := Some "MV Star Eagle open position";
     body := Some "Bulk carrier 55,000 DWT open Singapore next week";
     sender := Some "ops@bulkship.sg"; type := None |}
]%string.

(** Lines 29-32: one scaler, fitted on the train partition. *)
Definition scale_features (X_train X_test : Matrix) : M (loc * Matrix * Matrix) :=
  scaler ← alloc (OScaler None);
  X_train_scaled ← scaler_fit_transform scaler X_train;
  X_test_scaled ← scaler_transform scaler X_test;
  mret (scaler, X_train_scaled, X_test_scaled).

(** Lines 60-62. *)
Definition no_best : Best :=
  {| best_model := None; best_score := Fin 0; best_model_name := None |}.

(** Lines 97-107: fit the chosen model on all rows and save it, with the
    scaler when the model is a scaled one. *)
Definition refit_and_save (scaler : loc) (best : Best) (X : Matrix) (y : Labels) : M unit :=
  (if name_in_scaled (best_model_name best)
   then X_all_scaled ← scaler_fit_transform scaler X;
        fit_of (best_model best) X_all_scaled y;;
        joblib_dump (Some scaler) "ml/scaler.pkl"
   else fit_of (best_model best) X y);;
  joblib_dump (best_model best) "ml/email_classifier.pkl".

(** Lines 109-115. *)
Definition make_metadata (best : Best) (feature_columns : list string) : Metadata :=
  {| model_type := best_model_name best;
     accuracy := best_score best;
     feature_columns := feature_columns;
     classes := ["CARGO"; "VESSEL"]%string;
     needs_scaling := name_in_scaled (best_model_name best) |}.

Definition train_email_classifier : M unit :=
  '(feature_columns, X, y) ← load_training_data;
  '(X_train, X_test, y_train, y_test) ← lift (train_test_split lib X y);
  '(scaler, X_train_scaled, X_test_scaled) ← scale_features X_train X_test;
  models ← make_models candidates;
  let v := {| X_train := X_train; X_test := X_test;
              y_train := y_train; y_test := y_test;
              X_train_scaled := X_train_scaled;
              X_test_scaled := X_test_scaled |} in
  best ← for_each (evaluate v) models no_best;
  refit_and_save scaler best X y;;
  let metadata := make_metadata best feature_columns in
  json_dump metadata "ml/model_metadata.json";;
  for_each (fun _ email =>
              smoke_test feature_columns metadata scaler (best_model best) email)
    test_emails tt.

(** The script: build the table, save it, train. *)
Definition main : M unit :=
  df ← lift prepare_dataset;
  to_csv df "ml/training_data.csv";;
  train_email_classifier.

End Pipeline.

End Trainer.

(* ===================================================================== *)
(** * A scripted stand-in for scikit-learn

      Concrete instances of [Trainer.Sklearn] on which the pipeline can be
      run: every fifth row goes to the test partition, the scaler centres
      each column on its mean, and an estimator class either refuses to
      fit or predicts by a fixed rule on the row. *)
(* ===================================================================== *)

Module Scripted.
Import Text Py Features Trainer.

Definition num (v : value) : Q :=
  match v with
  | VInt n => inject_Z n
  | VBool true => 1
  | VFloat q => q
  | _ => 0
  end.

(** Rows at positions 4, 9, 14, ... (counting from [i]). *)
Fixpoint every_fifth {A : Type} (keep : bool) (i : nat) (l : list A) : list A :=
  match l with
  | [] => []
  | a :: l' =>
      let hit := Nat.eqb (i mod 5) 4 in
      if Bool.eqb hit keep then a :: every_fifth keep (S i) l'
      else every_fifth keep (S i) l'
  end.

Definition split (X : Matrix) (y : Labels) : result (Matrix * Matrix * Labels * Labels) :=
  if negb (Nat.eqb (length X) (length y))
  then Err (ValueError "Found input variables with inconsistent numbers of samples")
  else Ok (every_fifth false O X, every_fifth true O X,
           every_fifth false O y, every_fifth true O y).

Definition column_sums (X : Matrix) : list Q :=
  fold_left (fun acc row => zip_with (fun a v => Qred (a + num v)) acc row)
    X (map (fun _ => 0%Q) (hd [] X)).

Definition center (X0 X : Matrix) : Matrix :=
  let n := Z.of_nat (length X0) in
  let means := map (fun t => Qred (t / inject_Z n)) (column_sums X0) in
  map (fun row => zip_with (fun v m => VFloat (Qred (num v - m))) row means) X.

Inductive behaviour : Type :=
| Fails (e : exn)
| Predicts (rule : list value -> value).

Definition proba (label : value) : list pyfloat :=
  if value_eqb label (VStr "CARGO") then [Fin 1; Fin 0] else [Fin 0; Fin 1].

Definition scripted (script : string -> behaviour) : Sklearn :=
  {| train_test_split := split;
     scaler_check := fun _ => Ok tt;
     scaler_apply := fun X0 X => Ok (center X0 X);
     estimator_check := fun est _ _ =>
       match script (cls est) with
       | Fails e => Err e
       | Predicts _ => Ok tt
       end;
     estimator_predict := fun est _ _ X =>
       match script (cls est) with
       | Fails e => Err e
       | Predicts rule => Ok (map rule X)
       end;
     estimator_predict_proba := fun est _ _ X =>
       match script (cls est) with
       | Fails e => Err e
       | Predicts rule => Ok (map (fun row => proba (rule row)) X)
       end;
     cross_val_score := fun est _ _ =>
       match script (cls est) with
       | Fails e => Err e
       | Predicts _ => Ok (repeat (Fin 1) 5)
       end |}.

(** Rules on a feature row: by the larger keyword count (columns 0 and
    1), and a constant answer. *)
Definition by_keywords (row : list value) : value :=
  if Qle_bool (num (nth 1 row VNaN)) (num (nth 0 row VNaN))
  then VStr "CARGO" else VStr "VESSEL".

Definition always (label : string) (row : list value) : value := VStr label.

(** The linear model is the most accurate candidate. *)
Definition linear_wins (c : string) : behaviour :=
  if String.eqb c "LogisticRegression" then Predicts by_keywords
  else if String.eqb c "SVC" then Predicts by_keywords
  else Predicts (always "CARGO").

(** All four candidates reach the same accuracy. *)
Definition all_tied (c : string) : behaviour := Predicts (always "CARGO").

(** The first candidate cannot be fitted, the other three can. *)
Definition forest_fails (c : string) : behaviour :=
  if String.eqb c "RandomForestClassifier"
  then Fails (ValueError "RandomForestClassifier could not be fitted")
  else Predicts by_keywords.

(** No candidate is ever right: every prediction is a label that does not
    occur in the data. *)
Definition never_right (c : string) : behaviour := Predicts (always "UNKNOWN").

End Scripted.

(* ===================================================================== *)
(** * Runs of the pipeline: the notions the statements use *)
(* ===================================================================== *)

Module Runs.
Import Text Py Features Trainer.

Definition is_scaler_fit (e : event) : bool :=
  match e with
  | EScalerFit _ _ => true
  | _ => false
  end.

(** What the comparison loop and the sample predictions leave alone: the
    files, the scaler objects, which estimator lives at which address, and
    the record of scaler fits. *)
Definition calm (s s' : state) : Prop :=
  fs s' = fs s /\
  next_loc s' = next_loc s /\
  (forall l st, heap s !! l = Some (OScaler st) -> heap s' !! l = Some (OScaler st)) /\
  (forall l est st, heap s !! l = Some (OModel est st) ->
                    exists st', heap s' !! l = Some (OModel est st')) /\
  exists evs, log s' = log s ++ evs /\ Forall (fun e => is_scaler_fit e = false) evs.

(** Every run of [m] relates its start and end states by [R]. *)
Definition preserves {A : Type} (R : state -> state -> Prop) (m : M A) : Prop :=
  forall s r s', m s = (r, s') -> R s s'.

(** What allocation leaves alone: files, log, and every object already
    on the heap. *)
Definition grows (s s' : state) : Prop :=
  fs s' = fs s /\
  log s' = log s /\
  (next_loc s <= next_loc s')%nat /\
  forall l, (l < next_loc s)%nat -> heap s' !! l = heap s !! l.

(** The loop variables name nothing, or one entry of [models]. *)
Definition chosen_from (models : dict loc) (b : Best) : Prop :=
  (best_model b = None /\ best_model_name b = None) \/
  exists name l, In (name, l) models /\
                 best_model b = Some l /\ best_model_name b = Some name.

(** A run of [train_email_classifier] that returns, phase by phase. *)
Inductive completed (lib : Sklearn) (s s' : state) : Prop :=
| Completed (fc : list string) (X : Matrix) (y : Labels)
    (Xtr Xte : Matrix) (ytr yte : Labels)
    (scaler : loc) (Xtr_s Xte_s : Matrix)
    (models : dict loc) (best : Best) (s1 s2 s3 s4 : state)
    (Hload : load_training_data s = (Ok (fc, X, y), s))
    (Hsplit : train_test_split lib X y = Ok (Xtr, Xte, ytr, yte))
    (Hscale : scale_features lib Xtr Xte s = (Ok (scaler, Xtr_s, Xte_s), s1))
    (Hmodels : make_models candidates s1 = (Ok models, s2))
    (Hloop : for_each (evaluate lib {| X_train := Xtr; X_test := Xte;
                                       y_train := ytr; y_test := yte;
                                       X_train_scaled := Xtr_s;
                                       X_test_scaled := Xte_s |})
               models no_best s2 = (Ok best, s3))
    (Hrefit : refit_and_save lib scaler best X y s3 = (Ok tt, s4))
    (Hsmoke : calm {| heap := heap s4; next_loc := next_loc s4;
                      fs := <["ml/model_metadata.json"%string :=
                                FJson (make_metadata best fc)]> (fs s4);
                      log := log s4 |} s').

(** The table [prepare_dataset()] returns, evaluated once. *)
Definition training_table : DataFrame :=
  Eval vm_compute in
    match prepare_dataset with
    | Ok df => df
    | Err _ => {| columns := []; rows := [] |}
    end.

(** The state after [df.to_csv('ml/training_data.csv')]. *)
Definition state_with (df : DataFrame) : state :=
  snd (to_csv df "ml/training_data.csv" init_state).

(** The state in which the script calls [train_email_classifier]. *)
Definition start_state : state := state_with training_table.

(** The partitions the candidates of a run are compared on. *)
Definition comparison_views (lib : Sklearn) (s : state) : result Views :=
  fst ((p ← load_training_data;
        let '(_, X, y) := p in
        q ← lift (train_test_split lib X y);
        let '(X_train, X_test, y_train, y_test) := q in
        r ← scale_features lib X_train X_test;
        let '(_, X_train_scaled, X_test_scaled) := r in
        mret {| X_train := X_train; X_test := X_test;
                y_train := y_train; y_test := y_test;
                X_train_scaled := X_train_scaled;
                X_test_scaled := X_test_scaled |}) s).

(** The partitions of a run, for runs that get as far as comparing. *)
Definition views_of (lib : Sklearn) (s : state) : Views :=
  match comparison_views lib s with
  | Ok v => v
  | Err _ => {| X_train := []; X_test := []; y_train := []; y_test := [];
                X_train_scaled := []; X_test_scaled := [] |}
  end.

(** The first scaler fit among some events: the scaler the candidates
    are compared with, and the rows it is fitted on. *)
Fixpoint first_scaler_fit (evs : list event) : option (loc * Matrix) :=
  match evs with
  | [] => None
  | EScalerFit l X :: _ => Some (l, X)
  | _ :: evs' => first_scaler_fit evs'
  end.

(** The object pickled into [ml/scaler.pkl]. *)
Definition persisted_scaler (s : state) : option loc :=
  match fs s !! "ml/scaler.pkl"%string with
  | Some (FPickle (PObj l _)) => Some l
  | _ => None
  end.

(** Two scaler instances: the persisted one is another object than the
    comparison scaler, which still holds its train-partition fit. *)
Definition separate_scalers (s s' : state) : Prop :=
  exists l_cmp X_train l_out,
    first_scaler_fit (drop (length (log s)) (log s')) = Some (l_cmp, X_train) /\
    persisted_scaler s' = Some l_out /\
    l_out <> l_cmp /\
    heap s' !! l_cmp = Some (OScaler (Some X_train)).

(** The view a candidate is fitted on and the view it predicts. *)
Definition train_view (v : Views) (name : string) : Matrix :=
  if str_elem name scaled_names then X_train_scaled v else X_train v.

Definition test_view (v : Views) (name : string) : Matrix :=
  if str_elem name scaled_names then X_test_scaled v else X_test v.

(** The comparison has gone through the candidates [pre] and is about to
    evaluate [entry]. *)
Inductive compared_up_to (lib : Sklearn) (s : state) (v : Views)
    (pre : dict loc) (entry : string * loc) (st : Best) (s3 : state) : Prop :=
| ComparedUpTo (fc : list string) (X : Matrix) (y : Labels)
    (scaler : loc) (post : dict loc) (s1 s2 : state)
    (Hload : load_training_data s = (Ok (fc, X, y), s))
    (Hsplit : train_test_split lib X y =
              Ok (X_train v, X_test v, y_train v, y_test v))
    (Hscale : scale_features lib (X_train v) (X_test v) s =
              (Ok (scaler, X_train_scaled v, X_test_scaled v), s1))
    (Hmodels : make_models candidates s1 = (Ok (pre ++ entry :: post), s2))
    (Hloop : for_each (evaluate lib v) pre no_best s2 = (Ok st, s3)).

(** The claim that one candidate's failure is survived: when some
    candidate can be fitted, the run returns. *)
Definition tolerates_bad_candidate (lib : Sklearn) (s : state) : Prop :=
  (exists name est, In (name, est) candidates /\
                    forall X y, estimator_check lib est X y = Ok tt) ->
  exists s', train_email_classifier lib s = (Ok tt, s').

(** The held-out accuracy the loop computes for a candidate. *)
Definition candidate_accuracy (lib : Sklearn) (v : Views)
    (entry : string * Estimator) : result pyfloat :=
  let '(name, est) := entry in
  rbind (estimator_check lib est (train_view v name) (y_train v)) (fun _ =>
  rbind (estimator_predict lib est (train_view v name) (y_train v) (test_view v name))
    (fun y_pred => accuracy_score (y_test v) y_pred)).

(** Lines 89-92 on their own: the update of the loop variables by one
    candidate's accuracy. *)
Definition update (st : Best) (name : string) (model : loc) (acc : pyfloat) : Best :=
  if float_gt acc (best_score st)
  then {| best_model := Some model; best_score := acc; best_model_name := Some name |}
  else st.

(** The loop variables after a list of candidates with finite scores. *)
Definition select_from (st : Best) (scored : list (string * loc * Q)) : Best :=
  fold_left (fun b x => update b (fst (fst x)) (snd (fst x)) (Fin (snd x))) scored st.

(** The estimator of a candidate lives at the address its entry of
    [models] holds. *)
Definition placed (s : state) (spec : string * Estimator) (entry : string * loc) : Prop :=
  fst entry = fst spec /\
  exists stm, heap s !! snd entry = Some (OModel (snd spec) stm).

End Runs.

(* ===================================================================== *)
(** * Shapes of text, and the files a run may write *)
(* ===================================================================== *)

Module Notions.
Import Text Py Features Trainer Runs.

(** Every character of [s] satisfies [p]. *)
Fixpoint all_chars (p : ascii -> bool) (s : string) : bool :=
  match s with
  | EmptyString => true
  | String c s' => p c && all_chars p s'
  end.

(** [[\s,]] *)
Definition is_separator (c : ascii) : bool := is_space c || Ascii.eqb c ",".

(** [[\w\s]] *)
Definition is_name_char (c : ascii) : bool := is_word c || is_space c.

(** The shortest word of each branch of [(?:mt|tons?|dwt|teu|cbm)]. *)
Definition tonnage_units : list string := ["mt"; "ton"; "dwt"; "teu"; "cbm"]%string.

Definition port_names : list string :=
  ["singapore"; "rotterdam"; "shanghai"; "houston"; "hamburg"; "santos";
   "yokohama"]%string.

(** A digit, then any run of white space and commas, then a unit, anywhere
    in [t]. *)
Definition tonnage_shape (t : string) : Prop :=
  exists (a : string) (d : ascii) (sep u b : string),
    t = a +:+ String d (sep +:+ u +:+ b) /\
    is_digit d = true /\ all_chars is_separator sep = true /\ In u tonnage_units.

(** "mv" or "m/v", then a white-space character, then a word or
    white-space character, anywhere in [t]. *)
Definition vessel_name_shape (t : string) : Prop :=
  exists (a m : string) (c1 c2 : ascii) (b : string),
    t = a +:+ m +:+ String c1 (String c2 b) /\
    (m = "mv"%string \/ m = "m/v"%string) /\
    is_space c1 = true /\ is_name_char c2 = true.

(** The files [train_email_classifier] writes. *)
Definition artifact_paths : list string :=
  ["ml/scaler.pkl"; "ml/email_classifier.pkl"; "ml/model_metadata.json"]%string.

(** Outside the artifact files, the file system is as it was. *)
Definition only_artifacts (s s' : state) : Prop :=
  forall path, ~ In path artifact_paths -> fs s' !! path = fs s !! path.

(** No file is touched. *)
Definition files_kept (s s' : state) : Prop := fs s' = fs s.

(** No object and no file is touched, and none is created. *)
Definition read_only (s s' : state) : Prop :=
  heap s' = heap s /\ fs s' = fs s /\ next_loc s' = next_loc s.

(** [[d.get(c) for c in names]] with NaN for a missing key: the cells
    [pd.DataFrame([d])[names]] holds. *)
Definition cells_by_name (names : list string) (d : dict value) : list value :=
  map (fun c => match dict_get c d with
                | Some v => v
                | None => VNaN
                end) names.

(** The calls of the comparison loop on the candidates, in order: each is
    fitted on its train view and predicts its test view. *)
Definition comparison_events (v : Views) (models : dict loc) : list event :=
  flat_map (fun entry =>
              [EModelFit (snd entry) (train_view v (fst entry)) (y_train v);
               EModelPredict (snd entry) (test_view v (fst entry))]) models.

(** [lib] with a [cross_val_score] that refuses every input. *)
Definition without_cross_validation (lib : Sklearn) (e : exn) : Sklearn :=
  {| train_test_split := train_test_split lib;
     scaler_check := scaler_check lib;
     scaler_apply := scaler_apply lib;
     estimator_check := estimator_check lib;
     estimator_predict := estimator_predict lib;
     estimator_predict_proba := estimator_predict_proba lib;
     cross_val_score := fun _ _ _ => Err e |}.

End Notions.

(* ===================================================================== *)
(** * Facts about the text primitives *)
(* ===================================================================== *)

Module TextFacts.
Import Text.

(** [+:+] does not unfold under [simpl]; its two equations are used as
    rewrite rules instead. *)
Lemma app_nil_l (s : string) : "" +:+ s = s.
Proof. reflexivity. Qed.

Lemma app_cons (c : ascii) (a b : string) : String c a +:+ b = String c (a +:+ b).
Proof. reflexivity. Qed.

Ltac sapp := rewrite ?app_cons, ?app_nil_l.
Ltac sapp_in H := rewrite ?app_cons, ?app_nil_l in H.

Lemma app_empty_r (s : string) : s +:+ "" = s.
Proof. induction s as [|c s IH]; sapp; [reflexivity | now rewrite IH]. Qed.

Lemma app_assoc (a b c : string) : (a +:+ b) +:+ c = a +:+ (b +:+ c).
Proof. induction a as [|x a IH]; sapp; [reflexivity | now rewrite IH]. Qed.

Lemma app_eq_empty (a b : string) : a +:+ b = "" -> a = "" /\ b = "".
Proof. destruct a; sapp; [auto | discriminate]. Qed.

Lemma lower_app (a b : string) : lower (a +:+ b) = lower a +:+ lower b.
Proof. induction a as [|x a IH]; sapp; simpl; sapp; [reflexivity | now rewrite IH]. Qed.

(** ** [startswith] and [in] *)

Lemma starts_with_spec (k s : string) :
  starts_with k s = true <-> exists b, s = k +:+ b.
Proof.
  revert s. induction k as [|a k IH]; intros s; simpl.
  - split; [intros _; now exists s | reflexivity].
  - destruct s as [|b s].
    + split; [discriminate | intros [t Ht]; sapp_in Ht; discriminate].
    + rewrite andb_true_iff, IH. split.
      * intros [Hab [t ->]]. apply Ascii.eqb_eq in Hab as ->. now exists t.
      * intros [t Ht]. sapp_in Ht. injection Ht as -> ->. split; [apply Ascii.eqb_refl | now exists t].
Qed.

Lemma str_in_spec (k s : string) : str_in k s = true <-> occurs_in k s.
Proof.
  unfold occurs_in. induction s as [|c s IH].
  - simpl. rewrite orb_false_r, starts_with_spec. split.
    + intros [b Hb]. now exists ""%string, b.
    + intros (a & b & H). symmetry in H. apply app_eq_empty in H as [-> H].
      now exists b.
  - cbn [str_in]. rewrite orb_true_iff, starts_with_spec, IH. split.
    + intros [[b Hb] | (a & b & ->)].
      * now exists ""%string, b.
      * now exists (String c a), b.
    + intros (a & b & H). destruct a as [|x a]; sapp_in H.
      * left. now exists b.
      * right. injection H as -> ->. now exists a, b.
Qed.

Lemma str_in_false (k s : string) : str_in k s = false <-> ~ occurs_in k s.
Proof.
  rewrite <- str_in_spec. destruct (str_in k s); split; congruence.
Qed.

(** ** Derivatives decide the language *)

Lemma matches_seq_inv (r1 r2 : regex) (s : string) :
  matches (RSeq r1 r2) s ->
  exists s1 s2, s = s1 +:+ s2 /\ matches r1 s1 /\ matches r2 s2.
Proof. inversion 1; subst; eauto. Qed.

Lemma matches_alt_inv (r1 r2 : regex) (s : string) :
  matches (RAlt r1 r2) s -> matches r1 s \/ matches r2 s.
Proof. inversion 1; subst; auto. Qed.

Lemma matches_char_inv (c : ascii) (s : string) :
  matches (RChar c) s -> s = String c "".
Proof. now inversion 1. Qed.

Lemma matches_class_inv (p : ascii -> bool) (s : string) :
  matches (RClass p) s -> exists c, s = String c "" /\ p c = true.
Proof. inversion 1; subst; eauto. Qed.

Lemma matches_seq_cons (c : ascii) (r1 r2 : regex) (s1 s2 : string) :
  matches r1 (String c s1) -> matches r2 s2 ->
  matches (RSeq r1 r2) (String c (s1 +:+ s2)).
Proof. intros H1 H2. rewrite <- app_cons. now constructor. Qed.

Lemma nullable_spec (r : regex) : nullable r = true <-> matches r "".
Proof.
  induction r; simpl.
  - split; [discriminate | inversion 1].
  - split; [constructor | reflexivity].
  - split; [discriminate | inversion 1].
  - split; [discriminate | inversion 1].
  - rewrite andb_true_iff, IHr1, IHr2. split.
    + intros [H1 H2]. rewrite <- (app_nil_l ""). now constructor.
    + intros H. apply matches_seq_inv in H as (s1 & s2 & E & H1 & H2).
      symmetry in E. apply app_eq_empty in E as [-> ->]. now split.
  - rewrite orb_true_iff, IHr1, IHr2. split.
    + intros [H | H]; [now apply MAltL | now apply MAltR].
    + apply matches_alt_inv.
  - split; [constructor | reflexivity].
Qed.

(** A non-empty word of [r*] starts with a non-empty word of [r]. *)
Lemma star_cons (r : regex) (s : string) :
  matches (RStar r) s ->
  forall c t, s = String c t ->
  exists t1 t2, t = t1 +:+ t2 /\ matches r (String c t1) /\ matches (RStar r) t2.
Proof.
  intros H. remember (RStar r) as q eqn:Eq.
  induction H as [| | | | | | |r' s1 s2 H1 _ H2 IH2]; try discriminate.
  injection Eq as ->. intros c t E. destruct s1 as [|x s1]; sapp_in E.
  - now apply IH2.
  - injection E as -> <-. now exists s1, s2.
Qed.

Lemma deriv_seq_sound (c : ascii) (r1 r2 : regex) (s : string) :
  (forall t, matches (deriv c r1) t -> matches r1 (String c t)) ->
  matches (RSeq (deriv c r1) r2) s -> matches (RSeq r1 r2) (String c s).
Proof.
  intros IH H. apply matches_seq_inv in H as (s1 & s2 & -> & H1 & H2).
  apply matches_seq_cons; [now apply IH | assumption].
Qed.

Lemma deriv_seq_complete (c : ascii) (r1 r2 : regex) (s : string) :
  (forall t, matches r1 (String c t) -> matches (deriv c r1) t) ->
  matches (RSeq r1 r2) (String c s) ->
  matches (RSeq (deriv c r1) r2) s \/ (matches r1 "" /\ matches r2 (String c s)).
Proof.
  intros IH H. apply matches_seq_inv in H as (s1 & s2 & E & H1 & H2).
  destruct s1 as [|x s1]; sapp_in E.
  - right. subst. now split.
  - injection E as -> ->. left. constructor; [now apply IH | assumption].
Qed.

Lemma deriv_spec (c : ascii) (r : regex) (s : string) :
  matches (deriv c r) s <-> matches r (String c s).
Proof.
  revert s. induction r as [| |d|p|r1 IH1 r2 IH2|r1 IH1 r2 IH2|r IH]; intros s; simpl.
  - split; inversion 1.
  - split; inversion 1.
  - destruct (Ascii.eqb d c) eqn:E.
    + apply Ascii.eqb_eq in E as ->. split; inversion 1; subst; constructor.
    + split; inversion 1; subst. rewrite Ascii.eqb_refl in E. discriminate.
  - destruct (p c) eqn:E.
    + split; inversion 1; subst; now constructor.
    + split; inversion 1; subst. congruence.
  - destruct (nullable r1) eqn:N.
    + split.
      * intros H. apply matches_alt_inv in H as [H | H].
        -- revert H. apply deriv_seq_sound. intros t. apply IH1.
        -- apply nullable_spec in N. rewrite <- (app_nil_l (String c s)).
           constructor; [assumption | now apply IH2].
      * intros H. apply deriv_seq_complete in H as [H | [_ H]];
          [now apply MAltL | apply MAltR; now apply IH2 | intros t; apply IH1].
    + split.
      * apply deriv_seq_sound. intros t. apply IH1.
      * intros H. apply deriv_seq_complete in H as [H | [H _]];
          [assumption | | intros t; apply IH1].
        apply nullable_spec in H. congruence.
  - split; intros H; apply matches_alt_inv in H as [H | H];
      (apply MAltL; now apply IH1) || (apply MAltR; now apply IH2).
  - split.
    + intros H. apply matches_seq_inv in H as (s1 & s2 & -> & H1 & H2).
      rewrite <- app_cons. constructor; [now apply IH | assumption].
    + intros H. destruct (star_cons _ _ H c s eq_refl) as (t1 & t2 & -> & H1 & H2).
      constructor; [now apply IH | assumption].
Qed.


Lemma re_match_spec (r : regex) (s : string) :
  re_match r s = true <-> exists w b, s = w +:+ b /\ matches r w.
Proof.
  revert r. induction s as [|c s IH]; intros r; cbn [re_match].
  - rewrite orb_false_r, nullable_spec. split.
    + intros H. now exists ""%string, ""%string.
    + intros (w & b & E & H). symmetry in E. apply app_eq_empty in E as [-> _]. exact H.
  - rewrite orb_true_iff, nullable_spec, IH. split.
    + intros [H | (w & b & -> & H)].
      * now exists ""%string, (String c s).
      * exists (String c w), b. split; [reflexivity | now apply deriv_spec].
    + intros (w & b & E & H). destruct w as [|x w]; sapp_in E.
      * now left.
      * injection E as -> ->. right. exists w, b. split; [reflexivity | now apply deriv_spec].
Qed.

Lemma re_search_spec (r : regex) (s : string) :
  re_search r s = true <-> found_in r s.
Proof.
  unfold found_in. induction s as [|c s IH]; cbn [re_search].
  - rewrite orb_false_r, re_match_spec. split.
    + intros (w & b & E & H). now exists ""%string, w, b.
    + intros (a & w & b & E & H). symmetry in E. apply app_eq_empty in E as [-> E].
      now exists w, b.
  - rewrite orb_true_iff, re_match_spec, IH. split.
    + intros [(w & b & E & H) | (a & w & b & -> & H)].
      * now exists ""%string, w, b.
      * now exists (String c a), w, b.
    + intros (a & w & b & E & H). destruct a as [|x a]; sapp_in E.
      * left. now exists w, b.
      * injection E as -> ->. right. now exists a, w, b.
Qed.


End TextFacts.

(* ===================================================================== *)
(** * The feature extractor *)
(* ===================================================================== *)

Module FeaturesFacts.
Import Text Py Features TextFacts.

(** ** Keyword counts *)

Lemma fold_add_ones {A : Type} (l : list A) (a : Z) :
  fold_left Z.add (map (fun _ => 1) l) a = a + Z.of_nat (length l).
Proof.
  revert a. induction l as [|x l IH]; intros a; simpl length; simpl fold_left.
  - lia.
  - rewrite IH. lia.
Qed.

Lemma keyword_count_length (keywords : list string) (text : string) :
  keyword_count keywords text =
  Z.of_nat (length (List.filter (fun keyword => str_in keyword text) keywords)).
Proof. unfold keyword_count, sum. now rewrite fold_add_ones. Qed.

Lemma keyword_count_bounds (keywords : list string) (text : string) :
  0 <= keyword_count keywords text <= Z.of_nat (length keywords).
Proof.
  rewrite keyword_count_length.
  pose proof (List.filter_length_le (fun keyword => str_in keyword text) keywords).
  lia.
Qed.

Lemma elem_of_phrases_found (keywords : list string) (text k : string) :
  k ∈ phrases_found keywords text <-> k ∈ keywords /\ occurs_in k text.
Proof.
  unfold phrases_found. rewrite elem_of_list_to_set, !list_elem_of_In, filter_In.
  now rewrite str_in_spec.
Qed.

Lemma keyword_count_size (keywords : list string) (text : string) :
  NoDup keywords ->
  keyword_count keywords text = Z.of_nat (size (phrases_found keywords text)).
Proof.
  intros Hnd. rewrite keyword_count_length. unfold phrases_found.
  rewrite size_list_to_set; [reflexivity |].
  apply NoDup_ListNoDup, List.NoDup_filter. now apply NoDup_ListNoDup.
Qed.

Lemma cargo_keywords_NoDup : NoDup cargo_keywords.
Proof. apply (bool_decide_unpack _). vm_compute. reflexivity. Qed.

Lemma vessel_keywords_NoDup : NoDup vessel_keywords.
Proof. apply (bool_decide_unpack _). vm_compute. reflexivity. Qed.

(** The record [extract_features] builds, field by field. *)
Lemma extract_features_eq (email : Email) :
  extract_features email =
  [("cargo_keyword_count", VInt (keyword_count cargo_keywords (search_text email)));
   ("vessel_keyword_count", VInt (keyword_count vessel_keywords (search_text email)));
   ("has_tonnage", VBool (re_search tonnage_re (search_text email)));
   ("has_vessel_name", VBool (re_search vessel_name_re (search_text email)));
   ("has_port_names", VBool (re_search port_re (search_text email)));
   ("subject_length", VInt (len (get (subject email) "")));
   ("body_length", VInt (len (get (body email) "")));
   ("is_shipping_domain", VBool (any_domain shipping_domains (get (sender email) "")));
   ("is_cargo_domain", VBool (any_domain cargo_domains (get (sender email) "")))]%string.
Proof. reflexivity. Qed.

Lemma extract_features_keys (email : Email) :
  keys (extract_features email) = feature_names.
Proof. reflexivity. Qed.


(** C7: both keyword counts are the number of distinct phrases of their
    list that occur as a substring of the lower-cased text made of the
    subject, a blank and the body.  A phrase repeated in the text counts
    once; a phrase and a longer phrase containing it ("tanker", "chemical
    tanker") count one each.  Upper-case text is matched through
    lower-casing, the body is searched like the subject, and a phrase may
    run from the end of the subject into the body. *)
Theorem keyword_counts_distinct_phrases (email : Email) :
  (forall k, k ∈ phrases_found cargo_keywords
                   (lower (get (subject email) "" +:+ " " +:+ get (body email) "")) <->
             k ∈ cargo_keywords /\
             occurs_in k (lower (get (subject email) "" +:+ " " +:+ get (body email) ""))) /\
  (forall k, k ∈ phrases_found vessel_keywords
                   (lower (get (subject email) "" +:+ " " +:+ get (body email) "")) <->
             k ∈ vessel_keywords /\
             occurs_in k (lower (get (subject email) "" +:+ " " +:+ get (body email) ""))) /\
  dict_get "cargo_keyword_count" (extract_features email) =
    Some (VInt (Z.of_nat (size (phrases_found cargo_keywords
      (lower (get (subject email) "" +:+ " " +:+ get (body email) "")))))) /\
  dict_get "vessel_keyword_count" (extract_features email) =
    Some (VInt (Z.of_nat (size (phrases_found vessel_keywords
      (lower (get (subject email) "" +:+ " " +:+ get (body email) "")))))) /\
  lower "ABCDEFGHIJKLMNOPQRSTUVWXYZ" = "abcdefghijklmnopqrstuvwxyz"%string /\
  dict_get "cargo_keyword_count"
    (extract_features (email_of "cargo cargo cargo" "" "" "CARGO")) = Some (VInt 1) /\
  dict_get "vessel_keyword_count"
    (extract_features (email_of "chemical tanker" "" "" "VESSEL")) = Some (VInt 2) /\
  phrases_found vessel_keywords (search_text (email_of "chemical tanker" "" "" "VESSEL"))
    = {[ "tanker"; "chemical tanker" ]}%string /\
  dict_get "vessel_keyword_count"
    (extract_features (email_of "CHEMICAL TANKER" "Chemical tanker OPEN" "" "VESSEL")) =
    Some (VInt 3) /\
  phrases_found vessel_keywords
    (lower ("CHEMICAL TANKER" +:+ " " +:+ "Chemical tanker OPEN"))
    = {[ "tanker"; "chemical tanker"; "open" ]}%string /\
  dict_get "cargo_keyword_count"
    (extract_features (email_of "Project" "cargo" "" "CARGO")) = Some (VInt 2) /\
  phrases_found cargo_keywords (lower ("Project" +:+ " " +:+ "cargo"))
    = {[ "cargo"; "project cargo" ]}%string.
Proof.
  change (lower (get (subject email) "" +:+ " " +:+ get (body email) ""))
    with (search_text email).
  split; [intros k; apply elem_of_phrases_found |].
  split; [intros k; apply elem_of_phrases_found |].
  rewrite extract_features_eq.
  rewrite <- (keyword_count_size _ _ cargo_keywords_NoDup).
  rewrite <- (keyword_count_size _ _ vessel_keywords_NoDup).
  repeat split; reflexivity.
Qed.

(** C10: the cargo count lies in 0..49 and the vessel count in 0..52, the
    lengths of the two keyword lists. *)
Theorem keyword_counts_bounded (email : Email) :
  exists c v : Z,
    dict_get "cargo_keyword_count" (extract_features email) = Some (VInt c) /\
    dict_get "vessel_keyword_count" (extract_features email) = Some (VInt v) /\
    0 <= c <= 49 /\ 0 <= v <= 52 /\
    length cargo_keywords = 49%nat /\ length vessel_keywords = 52%nat.
Proof.
  exists (keyword_count cargo_keywords (search_text email)),
         (keyword_count vessel_keywords (search_text email)).
  pose proof (keyword_count_bounds cargo_keywords (search_text email)) as Hc.
  pose proof (keyword_count_bounds vessel_keywords (search_text email)) as Hv.
  change (length cargo_keywords) with 49%nat in Hc.
  change (length vessel_keywords) with 52%nat in Hv.
  rewrite extract_features_eq.
  repeat split; try reflexivity; lia.
Qed.

(** ** Empty input *)

(** C9: with subject, body and sender empty or absent, all nine fields are
    present, every count and length is 0 and every flag is [False]. *)
Theorem empty_email_features (email : Email) :
  get (subject email) "" = ""%string ->
  get (body email) "" = ""%string ->
  get (sender email) "" = ""%string ->
  extract_features email =
  [("cargo_keyword_count", VInt 0); ("vessel_keyword_count", VInt 0);
   ("has_tonnage", VBool false); ("has_vessel_name", VBool false);
   ("has_port_names", VBool false); ("subject_length", VInt 0);
   ("body_length", VInt 0); ("is_shipping_domain", VBool false);
   ("is_cargo_domain", VBool false)]%string.
Proof.
  intros Hs Hb Hf. rewrite extract_features_eq. unfold search_text, raw_text.
  rewrite Hs, Hb, Hf. vm_compute. reflexivity.
Qed.

Lemma empty_email_features_witness :
  extract_features {| subject := None; body := Some ""%string;
                      sender := None; type := None |} =
  [("cargo_keyword_count", VInt 0); ("vessel_keyword_count", VInt 0);
   ("has_tonnage", VBool false); ("has_vessel_name", VBool false);
   ("has_port_names", VBool false); ("subject_length", VInt 0);
   ("body_length", VInt 0); ("is_shipping_domain", VBool false);
   ("is_cargo_domain", VBool false)]%string.
Proof.
  apply (empty_email_features
           {| subject := None; body := Some ""%string; sender := None; type := None |});
    reflexivity.
Defined.

(** ** Tonnage and vessel names *)

Lemma found_in_context (r : regex) (a w b : string) :
  matches r w -> found_in r (a +:+ w +:+ b).
Proof. intros H. now exists a, w, b. Qed.




End FeaturesFacts.

(* ===================================================================== *)
(** * The dataset builder *)
(* ===================================================================== *)

Module DatasetFacts.
Import Text Py Features TextFacts FeaturesFacts.


Lemma prepare_loop_labelled (corpus : list Email) (labels : list string)
    (X : list (dict value)) (y : list string) :
  map type corpus = map Some labels ->
  prepare_loop corpus (X, y) = Ok (X ++ map extract_features corpus, y ++ labels).
Proof.
  revert labels X y. induction corpus as [|email corpus IH]; intros labels X y Hl.
  - destruct labels; [| discriminate]. simpl. now rewrite !List.app_nil_r.
  - destruct labels as [|label labels]; [discriminate |].
    simpl in Hl. injection Hl as Ht Hl.
    cbn [prepare_loop prepare_step]. rewrite Ht. cbn [getitem rbind].
    rewrite (IH labels _ _ Hl). now rewrite <- !List.app_assoc.
Qed.

Lemma add_keys_full (email : Email) : add_keys feature_names (extract_features email) = feature_names.
Proof. reflexivity. Qed.

Lemma add_keys_first (email : Email) : add_keys [] (extract_features email) = feature_names.
Proof. reflexivity. Qed.

Lemma fold_add_keys_full (corpus : list Email) :
  fold_left add_keys (map extract_features corpus) feature_names = feature_names.
Proof.
  induction corpus as [|email corpus IH]; [reflexivity |].
  cbn [map fold_left]. now rewrite add_keys_full.
Qed.

Lemma record_columns_features (corpus : list Email) :
  record_columns (map extract_features corpus) =
  match corpus with [] => [] | _ :: _ => feature_names end.
Proof.
  destruct corpus as [|email corpus]; [reflexivity |].
  unfold record_columns. cbn [map fold_left]. rewrite add_keys_first.
  apply fold_add_keys_full.
Qed.

Lemma lookup_feature_row (email : Email) :
  map (fun c => match dict_get c (extract_features email) with
                | Some v => v
                | None => VNaN
                end) feature_names = feature_row email.
Proof. reflexivity. Qed.

Lemma feature_row_length (email : Email) : length (feature_row email) = 9%nat.
Proof. reflexivity. Qed.

Lemma zip_with_rows (corpus : list Email) (labels : list string) :
  zip_with (fun row v => row ++ [v]) (map feature_row corpus) (map VStr labels) =
  zip_with (fun email label => feature_row email ++ [VStr label]) corpus labels.
Proof.
  revert labels. induction corpus as [|email corpus IH]; intros [|label labels];
    simpl; try reflexivity. now rewrite IH.
Qed.

Lemma label_cells (corpus : list Email) (labels : list string) :
  length corpus = length labels ->
  map (fun row => nth 9 row VNaN)
    (zip_with (fun email label => feature_row email ++ [VStr label]) corpus labels) =
  map VStr labels.
Proof.
  revert labels. induction corpus as [|email corpus IH]; intros [|label labels] Hlen;
    simpl in *; try reflexivity; try discriminate.
  f_equal. apply IH. lia.
Qed.


Lemma labelled_length (corpus : list Email) (labels : list string) :
  map type corpus = map Some labels -> length labels = length corpus.
Proof. intros H. apply (f_equal length) in H. rewrite !length_map in H. lia. Qed.

Lemma frame_of_features (corpus : list Email) :
  frame_of_records (map extract_features corpus) =
  {| columns := match corpus with [] => [] | _ :: _ => feature_names end;
     rows := map (fun email =>
                    map (fun c => match dict_get c (extract_features email) with
                                  | Some v => v
                                  | None => VNaN
                                  end)
                      match corpus with [] => [] | _ :: _ => feature_names end) corpus |}.
Proof.
  unfold frame_of_records. rewrite record_columns_features. f_equal.
  now rewrite map_map.
Qed.

Lemma set_column_new (name : string) (vals : list value)
    (cols : list string) (rs : list (list value)) :
  length vals = length rs ->
  index_of name cols = None ->
  set_column name vals {| columns := cols; rows := rs |} =
  Ok {| columns := cols ++ [name];
        rows := zip_with (fun row v => row ++ [v]) rs vals |}.
Proof.
  intros Hlen Hnew. unfold set_column.
  destruct rs as [|r rs]; destruct vals as [|v vals]; try discriminate Hlen;
    cbn [rows columns]; rewrite Hlen, Nat.eqb_refl; cbn [negb]; now rewrite Hnew.
Qed.

Lemma column_last (name : string) (cols : list string) (rs : list (list value)) (vals : list value) :
  index_of name cols = None ->
  length rs = length vals ->
  Forall (fun row => length row = length cols) rs ->
  column name {| columns := cols ++ [name];
                 rows := zip_with (fun row v => row ++ [v]) rs vals |} = Ok vals.
Proof.
  intros Hnew Hlen Hrs. unfold column. cbn [columns rows].
  assert (Hi : index_of name (cols ++ [name]) = Some (length cols)).
  { clear Hlen Hrs. induction cols as [|k cols IH]; cbn [index_of app].
    - now rewrite String.eqb_refl.
    - cbn [index_of] in Hnew. destruct (String.eqb name k); [discriminate |].
      destruct (index_of name cols); [discriminate |]. now rewrite IH. }
  rewrite Hi. f_equal. revert vals Hlen.
  induction Hrs as [|row rs Hrow _ IH]; intros [|v vals] Hlen;
    try discriminate Hlen; [reflexivity |].
  cbn [zip_with map]. rewrite IH by (simpl in Hlen; lia). f_equal.
  rewrite <- Hrow. rewrite nth_middle. reflexivity.
Qed.

(** The table built from a labelled corpus. *)
Lemma prepare_dataset_frame (corpus : list Email) (labels : list string) :
  map type corpus = map Some labels ->
  exists df,
    prepare_dataset_of corpus = Ok df /\
    columns df = match corpus with [] => [] | _ :: _ => feature_names end ++ ["label"%string] /\
    length (rows df) = length corpus /\
    rows df = zip_with (fun email label => feature_row email ++ [VStr label]) corpus labels /\
    (forall (i : nat) (email : Email), corpus !! i = Some email ->
       exists label, labels !! i = Some label /\
                     rows df !! i = Some (feature_row email ++ [VStr label])) /\
    column "label" df = Ok (map VStr labels) /\
    length labels = length corpus.
Proof.
  intros Hl. pose proof (labelled_length _ _ Hl) as Hlen.
  unfold prepare_dataset_of. rewrite (prepare_loop_labelled _ _ _ _ Hl).
  cbn [rbind app]. rewrite frame_of_features.
  set (cols := match corpus with [] => [] | _ :: _ => feature_names end).
  assert (Hnew : index_of "label" cols = None) by (destruct corpus; reflexivity).
  assert (Hrows : map (fun email => map (fun c => match dict_get c (extract_features email) with
                                  | Some v => v
                                  | None => VNaN
                                  end) cols) corpus = map feature_row corpus).
  { subst cols. destruct corpus as [|e corpus]; [reflexivity |].
    apply map_ext. intros e'. apply lookup_feature_row. }
  rewrite Hrows.
  assert (Hwidth : Forall (fun row => length row = length cols) (map feature_row corpus)).
  { subst cols. destruct corpus as [|e corpus]; [constructor |].
    apply Forall_forall. intros row Hrow. apply list_elem_of_In, in_map_iff in Hrow as (e' & <- & _).
    apply feature_row_length. }
  rewrite set_column_new by (rewrite ?length_map; lia || assumption).
  eexists. split; [reflexivity |]. cbn [columns rows].
  split; [reflexivity |]. split.
  { rewrite length_zip_with, !length_map. lia. }
  split; [apply zip_with_rows |]. split.
  { intros i email Hi. rewrite zip_with_rows, lookup_zip_with, Hi. cbn [mbind option_bind].
    destruct (labels !! i) as [label|] eqn:E.
    - exists label. split; reflexivity.
    - apply lookup_ge_None in E. apply lookup_lt_Some in Hi. lia. }
  split; [| assumption].
  apply column_last; [assumption | rewrite !length_map; lia | assumption].
Qed.

(** C6: on a corpus of labelled records the builder returns a table with
    one row per record, in input order, each holding the features of its
    record followed by its label; the label column is the list of the
    original labels. *)
Theorem prepare_dataset_rows (corpus : list Email) (labels : list string) :
  map type corpus = map Some labels ->
  exists df,
    prepare_dataset_of corpus = Ok df /\
    columns df = match corpus with [] => [] | _ :: _ => feature_names end ++ ["label"%string] /\
    length (rows df) = length corpus /\
    rows df = zip_with (fun email label => feature_row email ++ [VStr label]) corpus labels /\
    (forall (i : nat) (email : Email), corpus !! i = Some email ->
       exists label, labels !! i = Some label /\
                     rows df !! i = Some (feature_row email ++ [VStr label])) /\
    column "label" df = Ok (map VStr labels) /\
    length labels = length corpus.
Proof. exact (prepare_dataset_frame corpus labels). Qed.

Lemma prepare_dataset_rows_witness :
  exists df,
    prepare_dataset_of training_data = Ok df /\
    columns df = feature_names ++ ["label"%string] /\
    length (rows df) = 30%nat /\
    rows df = zip_with (fun email label => feature_row email ++ [VStr label])
                training_data (map (fun email => get (type email) "") training_data) /\
    (forall (i : nat) (email : Email), training_data !! i = Some email ->
       exists label,
         map (fun email => get (type email) "") training_data !! i = Some label /\
         rows df !! i = Some (feature_row email ++ [VStr label])) /\
    column "label" df =
      Ok (map VStr (map (fun email => get (type email) "") training_data)) /\
    length (map (fun email => get (type email) "") training_data) = 30%nat.
Proof.
  apply (prepare_dataset_rows training_data
           (map (fun email => get (type email) "") training_data)).
  reflexivity.
Defined.

End DatasetFacts.

(* ===================================================================== *)
(** * Running the pipeline: inversion of successful steps *)
(* ===================================================================== *)

Module RunFacts.
Import Text Py Features Trainer.

Lemma bind_run {A B : Type} (m : M A) (k : A -> M B) (s : state) :
  (m ≫= k) s = match m s with
               | (Ok a, s1) => k a s1
               | (Err e, s1) => (Err e, s1)
               end.
Proof. reflexivity. Qed.

Lemma bind_ok {A B : Type} (m : M A) (k : A -> M B) (s s' : state) (b : B) :
  (m ≫= k) s = (Ok b, s') ->
  exists a s1, m s = (Ok a, s1) /\ k a s1 = (Ok b, s').
Proof.
  rewrite bind_run. destruct (m s) as [[a|e] s1]; [eauto | discriminate].
Qed.

Lemma bind_err {A B : Type} (m : M A) (k : A -> M B) (s s1 : state) (e : exn) :
  m s = (Err e, s1) -> (m ≫= k) s = (Err e, s1).
Proof. intros H. now rewrite bind_run, H. Qed.

Lemma bind_step {A B : Type} (m : M A) (k : A -> M B) (s s1 : state) (a : A) :
  m s = (Ok a, s1) -> (m ≫= k) s = k a s1.
Proof. intros H. now rewrite bind_run, H. Qed.

Lemma ret_ok {A : Type} (a b : A) (s s' : state) :
  (mret a : M A) s = (Ok b, s') -> b = a /\ s' = s.
Proof. intros H. injection H as -> ->. now split. Qed.

Lemma lift_ok {A : Type} (r : result A) (a : A) (s s' : state) :
  lift r s = (Ok a, s') -> r = Ok a /\ s' = s.
Proof. intros H. injection H as -> ->. now split. Qed.

Lemma get_scaler_ok (l : loc) (st : option Matrix) (s s' : state) :
  get_scaler l s = (Ok st, s') -> heap s !! l = Some (OScaler st) /\ s' = s.
Proof.
  unfold get_scaler. destruct (heap s !! l) as [[st'|est st']|]; try discriminate.
  intros H. injection H as -> ->. now split.
Qed.

Lemma get_model_ok (l : loc) (est : Estimator) (st : option (Matrix * Labels)) (s s' : state) :
  get_model l s = (Ok (est, st), s') -> heap s !! l = Some (OModel est st) /\ s' = s.
Proof.
  unfold get_model. destruct (heap s !! l) as [[st'|est' st']|]; try discriminate.
  intros H. injection H as -> -> ->. now split.
Qed.

Lemma deref_ok (l : loc) (o : obj) (s s' : state) :
  deref l s = (Ok o, s') -> heap s !! l = Some o /\ s' = s.
Proof.
  unfold deref. destruct (heap s !! l) as [o'|]; try discriminate.
  intros H. injection H as -> ->. now split.
Qed.

(** Take one step off a successful run [H : (m ≫= k) s = (Ok _, _)]. *)
Ltac step H a s1 Ha :=
  apply bind_ok in H; destruct H as (a & s1 & Ha & H).

Section Steps.

Variable lib : Sklearn.

Lemma scaler_fit_ok (l : loc) (X : Matrix) (s s' : state) :
  scaler_fit lib l X s = (Ok tt, s') ->
  (exists st, heap s !! l = Some (OScaler st)) /\
  scaler_check lib X = Ok tt /\
  s' = {| heap := <[l := OScaler (Some X)]> (heap s); next_loc := next_loc s;
          fs := fs s; log := log s ++ [EScalerFit l X] |}.
Proof.
  unfold scaler_fit. intros H.
  step H st s1 H1. apply get_scaler_ok in H1 as [H1 ->].
  step H u s2 H2. injection H2 as <- <-.
  step H v s3 H3. apply lift_ok in H3 as [H3 ->]. destruct v.
  injection H as <-. eauto.
Qed.

Lemma scaler_transform_ok (l : loc) (X Y : Matrix) (s s' : state) :
  scaler_transform lib l X s = (Ok Y, s') ->
  exists X0, heap s !! l = Some (OScaler (Some X0)) /\
             scaler_apply lib X0 X = Ok Y /\
             s' = {| heap := heap s; next_loc := next_loc s; fs := fs s;
                     log := log s ++ [EScalerTransform l X] |}.
Proof.
  unfold scaler_transform. intros H.
  step H st s1 H1. apply get_scaler_ok in H1 as [H1 ->].
  step H u s2 H2. injection H2 as <- <-.
  destruct st as [X0|]; [| discriminate].
  apply lift_ok in H as [H ->]. eauto.
Qed.

Lemma model_fit_ok (l : loc) (X : Matrix) (y : Labels) (s s' : state) :
  model_fit lib l X y s = (Ok tt, s') ->
  exists est st, heap s !! l = Some (OModel est st) /\
                 estimator_check lib est X y = Ok tt /\
                 s' = {| heap := <[l := OModel est (Some (X, y))]> (heap s);
                         next_loc := next_loc s; fs := fs s;
                         log := log s ++ [EModelFit l X y] |}.
Proof.
  unfold model_fit. intros H.
  step H p s1 H1. destruct p as [est st]. apply get_model_ok in H1 as [H1 ->].
  step H u s2 H2. injection H2 as <- <-.
  step H v s3 H3. apply lift_ok in H3 as [H3 ->]. destruct v.
  injection H as <-. eauto.
Qed.

Lemma model_predict_ok (l : loc) (X : Matrix) (y_pred : Labels) (s s' : state) :
  model_predict lib l X s = (Ok y_pred, s') ->
  exists est X0 y0, heap s !! l = Some (OModel est (Some (X0, y0))) /\
                    estimator_predict lib est X0 y0 X = Ok y_pred /\
                    s' = {| heap := heap s; next_loc := next_loc s; fs := fs s;
                            log := log s ++ [EModelPredict l X] |}.
Proof.
  unfold model_predict. intros H.
  step H p s1 H1. destruct p as [est st]. apply get_model_ok in H1 as [H1 ->].
  step H u s2 H2. injection H2 as <- <-.
  destruct st as [[X0 y0]|]; [| discriminate].
  apply lift_ok in H as [H ->]. eauto 10.
Qed.

End Steps.

End RunFacts.

(* ===================================================================== *)
(** * What the comparison leaves alone *)
(* ===================================================================== *)

Module FrameFacts.
Import Text Py Features Trainer Runs RunFacts.

Lemma calm_refl (s : state) : calm s s.
Proof.
  split; [reflexivity |]. split; [reflexivity |]. split; [auto |]. split; [eauto |].
  exists []. split; [now rewrite List.app_nil_r | constructor].
Qed.

(** Appending events other than scaler fits changes nothing else. *)
Lemma calm_log (s : state) (evs : list event) :
  Forall (fun e => is_scaler_fit e = false) evs ->
  calm s {| heap := heap s; next_loc := next_loc s; fs := fs s; log := log s ++ evs |}.
Proof.
  intros Hevs.
  split; [reflexivity |]. split; [reflexivity |]. split; [auto |]. split; [eauto |].
  exists evs. now split.
Qed.

Lemma calm_trans (s1 s2 s3 : state) : calm s1 s2 -> calm s2 s3 -> calm s1 s3.
Proof.
  intros (Hf1 & Hn1 & Hh1 & Hm1 & e1 & Hl1 & He1) (Hf2 & Hn2 & Hh2 & Hm2 & e2 & Hl2 & He2).
  split; [congruence |]. split; [congruence |]. split; [auto |]. split.
  { intros l est st H. apply Hm1 in H as [st1 H]. now apply Hm2 in H. }
  exists (e1 ++ e2). split.
  - now rewrite Hl2, Hl1, <- List.app_assoc.
  - apply Forall_app. now split.
Qed.

#[global] Instance calm_preorder : PreOrder calm.
Proof. split; [exact calm_refl | exact calm_trans]. Qed.

Section Preserves.

Context {R : state -> state -> Prop} `{!PreOrder R}.

Lemma preserves_bind {A B : Type} (m : M A) (k : A -> M B) :
  preserves R m -> (forall a, preserves R (k a)) -> preserves R (m ≫= k).
Proof.
  intros Hm Hk s r s'. rewrite bind_run.
  destruct (m s) as [[a|e] s1] eqn:E.
  - intros H. transitivity s1; [exact (Hm _ _ _ E) | exact (Hk _ _ _ _ H)].
  - intros H. injection H as <- <-. exact (Hm _ _ _ E).
Qed.

Lemma preserves_still {A : Type} (m : M A) :
  (forall s, snd (m s) = s) -> preserves R m.
Proof.
  intros Hm s r s' H. specialize (Hm s). rewrite H in Hm. simpl in Hm. subst s'. reflexivity.
Qed.

Lemma preserves_ret {A : Type} (a : A) : preserves R (mret a : M A).
Proof. now apply preserves_still. Qed.

Lemma preserves_lift {A : Type} (r : result A) : preserves R (lift r).
Proof. now apply preserves_still. Qed.

Lemma preserves_raise {A : Type} (e : exn) : preserves R (raise e : M A).
Proof. now apply preserves_still. Qed.

Lemma preserves_item {A : Type} (l : list A) (i : nat) : preserves R (item l i).
Proof. unfold item. destruct (nth_error l i); [apply preserves_ret | apply preserves_raise]. Qed.

Lemma preserves_get_scaler (l : loc) : preserves R (get_scaler l).
Proof.
  apply preserves_still. intros s. unfold get_scaler.
  now destruct (heap s !! l) as [[?|? ?]|].
Qed.

Lemma preserves_get_model (l : loc) : preserves R (get_model l).
Proof.
  apply preserves_still. intros s. unfold get_model.
  now destruct (heap s !! l) as [[?|? ?]|].
Qed.

Lemma preserves_for_each {A S : Type} (body : S -> A -> M S) (items : list A) (st : S) :
  (forall st a, preserves R (body st a)) -> preserves R (for_each body items st).
Proof.
  intros Hb. revert st. induction items as [|a items IH]; intros st; cbn [for_each].
  - apply preserves_ret.
  - apply preserves_bind; [apply Hb | intros st'; apply IH].
Qed.

End Preserves.

Lemma calm_emit (e : event) : is_scaler_fit e = false -> preserves calm (emit e).
Proof.
  intros He s r s' H. injection H as <- <-. apply calm_log. now constructor.
Qed.

Section Operations.

Variable lib : Sklearn.

Lemma calm_scaler_transform (l : loc) (X : Matrix) :
  preserves calm (scaler_transform lib l X).
Proof.
  unfold scaler_transform. apply preserves_bind; [apply preserves_get_scaler |].
  intros st. apply preserves_bind; [now apply calm_emit |].
  intros _. destruct st; [apply preserves_lift | apply preserves_raise].
Qed.

Lemma calm_model_fit (l : loc) (X : Matrix) (y : Labels) :
  preserves calm (model_fit lib l X y).
Proof.
  intros s r s'. unfold model_fit. rewrite bind_run.
  destruct (get_model l s) as [[[est st]|e] s1] eqn:E.
  - apply get_model_ok in E as [E ->]. rewrite !bind_run. cbn [emit].
    destruct (estimator_check lib est X y) as [u|e] eqn:C; cbn [lift].
    + intros H. injection H as <- <-.
      split; [reflexivity |]. split; [reflexivity |]. cbn [heap log]. split; [| split].
      * intros l' st0 H. rewrite lookup_insert_ne; [assumption |].
        intros ->. rewrite E in H. discriminate.
      * intros l' est' st0 H. destruct (decide (l = l')) as [<- | Hne].
        -- rewrite E in H. injection H as <- <-. rewrite lookup_insert_eq. eauto.
        -- rewrite lookup_insert_ne by assumption. eauto.
      * exists [EModelFit l X y]. split; [reflexivity | now constructor].
    + intros H. injection H as <- <-. apply calm_log. now constructor.
  - intros H. injection H as <- <-.
    pose proof (preserves_get_model (R := calm) l _ _ _ E). assumption.
Qed.

Lemma calm_model_predict (l : loc) (X : Matrix) :
  preserves calm (model_predict lib l X).
Proof.
  unfold model_predict. apply preserves_bind; [apply preserves_get_model |].
  intros [est st]. apply preserves_bind; [now apply calm_emit |].
  intros _. destruct st as [[X0 y0]|]; [apply preserves_lift | apply preserves_raise].
Qed.

Lemma calm_model_predict_proba (l : loc) (X : Matrix) :
  preserves calm (model_predict_proba lib l X).
Proof.
  unfold model_predict_proba. apply preserves_bind; [apply preserves_get_model |].
  intros [est st]. destruct st as [[X0 y0]|]; [apply preserves_lift | apply preserves_raise].
Qed.

Lemma calm_cv_score (l : loc) (X : Matrix) (y : Labels) :
  preserves calm (cv_score lib l X y).
Proof.
  unfold cv_score. apply preserves_bind; [apply preserves_get_model |].
  intros [est st]. apply preserves_lift.
Qed.

Lemma calm_evaluate (v : Views) (st : Best) (entry : string * loc) :
  preserves calm (evaluate lib v st entry).
Proof.
  unfold evaluate. destruct entry as [name model].
  apply preserves_bind.
  - destruct (str_elem name scaled_names).
    + apply preserves_bind; [apply calm_model_fit | intros _].
      apply preserves_bind; [apply calm_model_predict | intros y_pred].
      apply preserves_ret.
    + apply preserves_bind; [apply calm_model_fit | intros _].
      apply preserves_bind; [apply calm_model_predict | intros y_pred].
      apply preserves_ret.
  - intros [y_pred train_data].
    apply preserves_bind; [apply preserves_lift | intros accuracy].
    apply preserves_bind; [apply calm_cv_score | intros _].
    destruct (float_gt accuracy (best_score st)); apply preserves_ret.
Qed.

Lemma calm_smoke_test (fc : list string) (md : Metadata) (scaler : loc)
    (best : option loc) (email : Email) :
  preserves calm (smoke_test lib fc md scaler best email).
Proof.
  unfold smoke_test.
  apply preserves_bind; [apply preserves_lift | intros features_df].
  apply preserves_bind.
  { destruct (needs_scaling md); [apply calm_scaler_transform | apply preserves_ret]. }
  intros features_array.
  apply preserves_bind.
  { destruct best; [apply calm_model_predict | apply preserves_raise]. }
  intros predictions.
  apply preserves_bind; [apply preserves_item | intros _].
  apply preserves_bind.
  { destruct best; [apply calm_model_predict_proba | apply preserves_raise]. }
  intros probabilities.
  apply preserves_bind; [apply preserves_item | intros probability].
  apply preserves_bind; [apply preserves_item | intros _].
  apply preserves_bind; [apply preserves_item | intros _].
  apply preserves_ret.
Qed.

End Operations.

End FrameFacts.

(* ===================================================================== *)
(** * The phases of a run *)
(* ===================================================================== *)

Module PhaseFacts.
Import Text Py Features Trainer Runs RunFacts FrameFacts.

(** ** Loading *)

Lemma read_csv_ok (path : string) (df : DataFrame) (s s' : state) :
  read_csv path s = (Ok df, s') -> fs s !! path = Some (FCsv df) /\ s' = s.
Proof.
  unfold read_csv. destruct (fs s !! path) as [[df'|p|md]|]; try discriminate.
  intros H. injection H as -> ->. now split.
Qed.

Lemma load_training_data_ok (fc : list string) (X : Matrix) (y : Labels) (s s' : state) :
  load_training_data s = (Ok (fc, X, y), s') ->
  s' = s /\
  exists df, fs s !! "ml/training_data.csv"%string = Some (FCsv df) /\
             fc = List.filter (fun col => negb (String.eqb col "label")) (columns df) /\
             select_values fc df = Ok X /\
             column "label" df = Ok y.
Proof.
  unfold load_training_data. intros H.
  step H df s1 H1. apply read_csv_ok in H1 as [H1 ->].
  step H X' s2 H2. apply lift_ok in H2 as [H2 ->].
  step H y' s3 H3. apply lift_ok in H3 as [H3 ->].
  apply ret_ok in H as [H ->]. injection H as -> -> ->.
  split; [reflexivity |]. exists df. auto.
Qed.

Lemma load_training_data_run (df : DataFrame) (X : Matrix) (y : Labels) (s : state) :
  fs s !! "ml/training_data.csv"%string = Some (FCsv df) ->
  select_values (List.filter (fun col => negb (String.eqb col "label")) (columns df)) df = Ok X ->
  column "label" df = Ok y ->
  load_training_data s =
  (Ok (List.filter (fun col => negb (String.eqb col "label")) (columns df), X, y), s).
Proof.
  intros Hf HX Hy. unfold load_training_data.
  rewrite bind_run. unfold read_csv at 1. rewrite Hf.
  rewrite bind_run. unfold lift at 1. rewrite HX.
  rewrite bind_run. unfold lift at 1. rewrite Hy. reflexivity.
Qed.

Section Phases.

Variable lib : Sklearn.

(** ** The comparison scaler *)

Lemma scale_features_ok (X_train X_test A B : Matrix) (scaler : loc) (s s1 : state) :
  scale_features lib X_train X_test s = (Ok (scaler, A, B), s1) ->
  scaler = next_loc s /\
  scaler_check lib X_train = Ok tt /\
  scaler_apply lib X_train X_train = Ok A /\
  scaler_apply lib X_train X_test = Ok B /\
  s1 = {| heap := <[scaler := OScaler (Some X_train)]> (heap s);
          next_loc := S (next_loc s);
          fs := fs s;
          log := log s ++ [EScalerFit scaler X_train;
                           EScalerTransform scaler X_train;
                           EScalerTransform scaler X_test] |}.
Proof.
  unfold scale_features, scaler_fit_transform. intros H.
  step H l s2 H2. injection H2 as <- <-.
  step H A' s3 H3. step H3 u s4 H4. destruct u.
  apply scaler_fit_ok in H4 as (_ & Hc & ->).
  apply scaler_transform_ok in H3 as (X0 & Hl & Ha & ->).
  cbn [heap] in Hl. rewrite lookup_insert_eq in Hl. injection Hl as <-.
  step H B' s5 H5. apply scaler_transform_ok in H5 as (X1 & Hl & Hb & ->).
  cbn [heap] in Hl. rewrite lookup_insert_eq in Hl. injection Hl as <-.
  apply ret_ok in H as [H ->]. injection H as -> -> ->.
  repeat split; try assumption.
  cbn [heap next_loc fs log]. rewrite insert_insert_eq. f_equal.
  now rewrite <- !List.app_assoc.
Qed.

(** ** Allocation of the candidates *)

Lemma grows_refl (s : state) : grows s s.
Proof. repeat split; auto. Qed.

Lemma make_models_run (specs : dict Estimator) (s : state) :
  exists models s', make_models specs s = (Ok models, s') /\
                    keys models = keys specs /\ grows s s'.
Proof.
  revert s. induction specs as [|[name est] specs IH]; intros s; cbn [make_models].
  - exists [], s. repeat split; auto.
  - rewrite bind_run. cbn [alloc].
    set (s1 := {| heap := <[next_loc s := OModel est None]> (heap s);
                  next_loc := S (next_loc s); fs := fs s; log := log s |}).
    destruct (IH s1) as (models & s' & Hrun & Hkeys & Hf & Hl & Hn & Hh).
    rewrite bind_run, Hrun. exists ((name, next_loc s) :: models), s'.
    split; [reflexivity |]. split; [unfold keys in *; cbn [map fst]; now f_equal |].
    subst s1. cbn [fs log next_loc heap] in *. repeat split; auto; [lia |].
    intros l Hlt. rewrite Hh by lia. apply lookup_insert_ne. lia.
Qed.

(** ** The final fit and the pickles *)

Lemma fit_of_ok (r : option loc) (X : Matrix) (y : Labels) (s s' : state) :
  fit_of lib r X y s = (Ok tt, s') ->
  exists l est st, r = Some l /\ heap s !! l = Some (OModel est st) /\
                   estimator_check lib est X y = Ok tt /\
                   s' = {| heap := <[l := OModel est (Some (X, y))]> (heap s);
                           next_loc := next_loc s; fs := fs s;
                           log := log s ++ [EModelFit l X y] |}.
Proof.
  destruct r as [l|]; cbn [fit_of]; [| discriminate].
  intros H. apply model_fit_ok in H as (est & st & H1 & H2 & ->). eauto 10.
Qed.

Lemma joblib_dump_ok (l : loc) (path : string) (s s' : state) :
  joblib_dump (Some l) path s = (Ok tt, s') ->
  exists o, heap s !! l = Some o /\
            s' = {| heap := heap s; next_loc := next_loc s;
                    fs := <[path := FPickle (PObj l o)]> (fs s);
                    log := log s ++ [EDump (PObj l o) path] |}.
Proof.
  cbn [joblib_dump]. intros H.
  step H o s1 H1. apply deref_ok in H1 as [H1 ->].
  step H u s2 H2. injection H2 as <- <-. injection H as <-. eauto.
Qed.

Lemma refit_and_save_scaled (scaler : loc) (best : Best) (X : Matrix) (y : Labels)
    (s s' : state) (st0 : option Matrix) :
  name_in_scaled (best_model_name best) = true ->
  heap s !! scaler = Some (OScaler st0) ->
  refit_and_save lib scaler best X y s = (Ok tt, s') ->
  exists lm est stm Xs,
    best_model best = Some lm /\
    heap s !! lm = Some (OModel est stm) /\
    scaler_check lib X = Ok tt /\
    scaler_apply lib X X = Ok Xs /\
    estimator_check lib est Xs y = Ok tt /\
    s' = {| heap := <[lm := OModel est (Some (Xs, y))]>
                      (<[scaler := OScaler (Some X)]> (heap s));
            next_loc := next_loc s;
            fs := <["ml/email_classifier.pkl"%string :=
                      FPickle (PObj lm (OModel est (Some (Xs, y))))]>
                    (<["ml/scaler.pkl"%string :=
                         FPickle (PObj scaler (OScaler (Some X)))]> (fs s));
            log := log s ++
                   [EScalerFit scaler X; EScalerTransform scaler X;
                    EModelFit lm Xs y;
                    EDump (PObj scaler (OScaler (Some X))) "ml/scaler.pkl";
                    EDump (PObj lm (OModel est (Some (Xs, y)))) "ml/email_classifier.pkl"] |}.
Proof.
  intros Hname Hsc. unfold refit_and_save. rewrite Hname. intros H.
  step H u s1 H1. destruct u.
  step H1 Xs s2 H2. unfold scaler_fit_transform in H2.
  step H2 u s3 H3. destruct u.
  apply scaler_fit_ok in H3 as (_ & Hc & ->).
  apply scaler_transform_ok in H2 as (X0 & Hl & Ha & ->).
  cbn [heap] in Hl. rewrite lookup_insert_eq in Hl. injection Hl as <-.
  step H1 u s4 H4. destruct u.
  apply fit_of_ok in H4 as (lm & est & stm & Hbest & Hlm & Hfit & ->).
  cbn [heap next_loc fs log] in *.
  assert (Hne : scaler <> lm).
  { intros ->. rewrite lookup_insert_eq in Hlm. discriminate. }
  rewrite lookup_insert_ne in Hlm by assumption.
  apply joblib_dump_ok in H1 as (o & Ho & ->).
  cbn [heap next_loc fs log] in *.
  rewrite lookup_insert_ne, lookup_insert_eq in Ho by congruence. injection Ho as <-.
  rewrite Hbest in H.
  apply joblib_dump_ok in H as (o & Ho & ->).
  cbn [heap next_loc fs log] in *.
  rewrite lookup_insert_eq in Ho. injection Ho as <-.
  exists lm, est, stm, Xs. repeat split; try assumption.
  f_equal. now rewrite <- !List.app_assoc.
Qed.

Lemma refit_and_save_unscaled (scaler : loc) (best : Best) (X : Matrix) (y : Labels)
    (s s' : state) :
  name_in_scaled (best_model_name best) = false ->
  refit_and_save lib scaler best X y s = (Ok tt, s') ->
  exists lm est stm,
    best_model best = Some lm /\
    heap s !! lm = Some (OModel est stm) /\
    estimator_check lib est X y = Ok tt /\
    s' = {| heap := <[lm := OModel est (Some (X, y))]> (heap s);
            next_loc := next_loc s;
            fs := <["ml/email_classifier.pkl"%string :=
                      FPickle (PObj lm (OModel est (Some (X, y))))]> (fs s);
            log := log s ++
                   [EModelFit lm X y;
                    EDump (PObj lm (OModel est (Some (X, y)))) "ml/email_classifier.pkl"] |}.
Proof.
  intros Hname. unfold refit_and_save. rewrite Hname. intros H.
  step H u s1 H1. destruct u.
  apply fit_of_ok in H1 as (lm & est & stm & Hbest & Hlm & Hfit & ->).
  rewrite Hbest in H.
  apply joblib_dump_ok in H as (o & Ho & ->).
  cbn [heap next_loc fs log] in *.
  rewrite lookup_insert_eq in Ho. injection Ho as <-.
  exists lm, est, stm. repeat split; try assumption.
  f_equal. now rewrite <- !List.app_assoc.
Qed.

End Phases.

End PhaseFacts.

(* ===================================================================== *)
(** * The comparison loop and a run that returns *)
(* ===================================================================== *)

Module LoopFacts.
Import Text Py Features Trainer Runs RunFacts FrameFacts PhaseFacts.

Section Loop.

Variable lib : Sklearn.

Lemma evaluate_best (v : Views) (st st' : Best) (name : string) (l : loc) (s s' : state) :
  evaluate lib v st (name, l) s = (Ok st', s') ->
  st' = st \/ (best_model st' = Some l /\ best_model_name st' = Some name /\
               float_gt (best_score st') (best_score st) = true).
Proof.
  unfold evaluate. intros H.
  step H p s1 H1. destruct p as [y_pred train_data].
  step H acc s2 H2. step H cv s3 H3.
  destruct (float_gt acc (best_score st)) eqn:G;
    apply ret_ok in H as [-> _]; [right | left]; auto.
Qed.

Lemma for_each_chosen (v : Views) (all items : dict loc) (st best : Best) (s s' : state) :
  (forall entry, In entry items -> In entry all) ->
  chosen_from all st ->
  for_each (evaluate lib v) items st s = (Ok best, s') ->
  chosen_from all best.
Proof.
  revert st s. induction items as [|[name l] items IH]; intros st s Hsub Hst H;
    cbn [for_each] in H.
  - apply ret_ok in H as [-> _]. exact Hst.
  - step H st1 s1 H1. apply (IH st1 s1); [intros; apply Hsub; now right | | exact H].
    apply evaluate_best in H1 as [-> | (Hm & Hn & _)]; [exact Hst |].
    right. exists name, l. split; [apply Hsub; now left | now split].
Qed.

Lemma train_completed (s s' : state) :
  train_email_classifier lib s = (Ok tt, s') -> completed lib s s'.
Proof.
  unfold train_email_classifier. intros H.
  step H p s0 Hload. destruct p as [[fc X] y].
  pose proof (load_training_data_ok _ _ _ _ _ Hload) as [-> _].
  step H p s0 Hsplit. destruct p as [[[Xtr Xte] ytr] yte].
  apply lift_ok in Hsplit as [Hsplit ->].
  step H p s1 Hscale. destruct p as [[scaler Xtr_s] Xte_s].
  step H models s2 Hmodels.
  step H best s3 Hloop.
  step H u s4 Hrefit. destruct u.
  step H u s5 Hjson. injection Hjson as <- <-.
  eapply Completed; eauto.
  eapply (preserves_for_each (R := calm)); [| exact H].
  intros st email. apply calm_smoke_test.
Qed.

End Loop.


End LoopFacts.

(* ===================================================================== *)
(** * The scaler across the comparison *)
(* ===================================================================== *)

Module SummaryFacts.
Import Text Py Features Trainer Runs RunFacts FrameFacts PhaseFacts LoopFacts.

Section Summary.

Variable lib : Sklearn.

(** The comparison scaler is still fitted on the train partition when the
    loop ends. *)
Lemma scaler_after_loop (s s1 s2 s3 : state) (Xtr Xte Xtr_s Xte_s : Matrix)
    (scaler : loc) (models : dict loc) (v : Views) (best : Best) :
  scale_features lib Xtr Xte s = (Ok (scaler, Xtr_s, Xte_s), s1) ->
  make_models candidates s1 = (Ok models, s2) ->
  for_each (evaluate lib v) models no_best s2 = (Ok best, s3) ->
  scaler = next_loc s /\
  heap s3 !! scaler = Some (OScaler (Some Xtr)) /\
  fs s3 = fs s /\
  keys models = keys candidates /\
  exists loop_evs,
    log s3 = log s ++ [EScalerFit scaler Xtr; EScalerTransform scaler Xtr;
                       EScalerTransform scaler Xte] ++ loop_evs /\
    Forall (fun e => is_scaler_fit e = false) loop_evs.
Proof.
  intros Hscale Hmodels Hloop.
  apply scale_features_ok in Hscale as (-> & _ & _ & _ & ->).
  destruct (make_models_run candidates
              {| heap := <[next_loc s := OScaler (Some Xtr)]> (heap s);
                 next_loc := S (next_loc s); fs := fs s;
                 log := log s ++ [EScalerFit (next_loc s) Xtr;
                                  EScalerTransform (next_loc s) Xtr;
                                  EScalerTransform (next_loc s) Xte] |})
    as (models' & s2' & Hrun & Hkeys & Hf & Hl & _ & Hh).
  rewrite Hrun in Hmodels. injection Hmodels as -> ->.
  cbn [heap next_loc fs log] in *.
  pose proof (preserves_for_each (R := calm) (evaluate lib v) models no_best
                (fun st a => calm_evaluate lib v st a) _ _ _ Hloop)
    as (Hf3 & _ & Hh3 & _ & evs & Hl3 & Hevs).
  split; [reflexivity |]. split.
  { apply Hh3. rewrite Hh by lia. apply lookup_insert_eq. }
  split; [congruence |]. split; [assumption |].
  exists evs. split; [| assumption].
  rewrite Hl3, Hl. now rewrite <- List.app_assoc.
Qed.

End Summary.

End SummaryFacts.

(* ===================================================================== *)
(** * Selection, metadata and the persisted scaler *)
(* ===================================================================== *)

Module TrainerFacts.
Import Text Py Features Trainer Runs
       RunFacts FrameFacts PhaseFacts LoopFacts SummaryFacts.

Lemma prepare_dataset_table : prepare_dataset = Ok training_table.
Proof. vm_compute. reflexivity. Qed.

Lemma chosen_from_no_best (models : dict loc) : chosen_from models no_best.
Proof. left. now split. Qed.

Lemma in_keys {V : Type} (name : string) (v : V) (d : dict V) :
  In (name, v) d -> In name (keys d).
Proof. intros H. unfold keys. apply in_map_iff. now exists (name, v). Qed.

Lemma refit_names_model (lib : Sklearn) (scaler : loc) (best : Best) (X : Matrix)
    (y : Labels) (s s' : state) (st0 : option Matrix) :
  heap s !! scaler = Some (OScaler st0) ->
  refit_and_save lib scaler best X y s = (Ok tt, s') ->
  exists lm, best_model best = Some lm.
Proof.
  intros Hsc Hrefit. destruct (name_in_scaled (best_model_name best)) eqn:Hn.
  - destruct (refit_and_save_scaled lib _ _ _ _ _ _ _ Hn Hsc Hrefit)
      as (lm & _ & _ & _ & Hb & _). eauto.
  - destruct (refit_and_save_unscaled lib _ _ _ _ _ _ Hn Hrefit)
      as (lm & _ & _ & Hb & _). eauto.
Qed.

(** What a run that returns has selected and written. *)
Lemma completed_selection (lib : Sklearn) (s s' : state) :
  train_email_classifier lib s = (Ok tt, s') ->
  exists fc X y best name lm,
    load_training_data s = (Ok (fc, X, y), s) /\
    best_model best = Some lm /\
    best_model_name best = Some name /\
    In name (keys candidates) /\
    fs s' !! "ml/model_metadata.json"%string = Some (FJson (make_metadata best fc)).
Proof.
  intros H. apply train_completed in H as [].
  destruct (scaler_after_loop lib _ _ _ _ _ _ _ _ _ _ _ _ Hscale Hmodels Hloop)
    as (-> & Hsc & _ & Hkeys & _).
  assert (Hch := for_each_chosen lib _ models models _ _ _ _
                   (fun e H => H) (chosen_from_no_best models) Hloop).
  destruct (refit_names_model lib _ _ _ _ _ _ _ Hsc Hrefit) as [lm Hlm].
  destruct Hch as [[Hnone _] | (name & l & Hin & Hm & Hname)]; [congruence |].
  exists fc, X, y, best, name, lm. repeat split; try assumption.
  - rewrite <- Hkeys. eapply in_keys, Hin.
  - destruct Hsmoke as (Hfs & _). cbn [fs] in Hfs. rewrite Hfs.
    apply lookup_insert_eq.
Qed.




Lemma first_scaler_fit_skip (evs tail : list event) :
  Forall (fun e => is_scaler_fit e = false) evs ->
  first_scaler_fit (evs ++ tail) = first_scaler_fit tail.
Proof.
  induction 1 as [|e evs He _ IH]; [reflexivity |].
  destruct e; try discriminate He; exact IH.
Qed.

(** C1 (amended): when the selected model is a scaled one, the single
    scaler object that was fitted on the train partition for the
    comparison is fitted again, in place, on the full feature matrix after
    the loop; that object, in its refitted state, is the one pickled, and
    no scaler holding the train-partition fit is left. *)
Theorem scaler_refit_in_place (lib : Sklearn) (s s' : state) (md : Metadata) :
  train_email_classifier lib s = (Ok tt, s') ->
  fs s' !! "ml/model_metadata.json"%string = Some (FJson md) ->
  needs_scaling md = true ->
  exists fc X y Xtr Xte ytr yte loop_evs lm est Xs tail,
    load_training_data s = (Ok (fc, X, y), s) /\
    train_test_split lib X y = Ok (Xtr, Xte, ytr, yte) /\
    log s' = log s ++
             [EScalerFit (next_loc s) Xtr; EScalerTransform (next_loc s) Xtr;
              EScalerTransform (next_loc s) Xte] ++
             loop_evs ++
             [EScalerFit (next_loc s) X; EScalerTransform (next_loc s) X;
              EModelFit lm Xs y;
              EDump (PObj (next_loc s) (OScaler (Some X))) "ml/scaler.pkl";
              EDump (PObj lm (OModel est (Some (Xs, y)))) "ml/email_classifier.pkl"] ++
             tail /\
    Forall (fun e => is_scaler_fit e = false) loop_evs /\
    Forall (fun e => is_scaler_fit e = false) tail /\
    first_scaler_fit (drop (length (log s)) (log s')) = Some (next_loc s, Xtr) /\
    persisted_scaler s' = Some (next_loc s) /\
    fs s' !! "ml/scaler.pkl"%string =
      Some (FPickle (PObj (next_loc s) (OScaler (Some X)))) /\
    heap s' !! next_loc s = Some (OScaler (Some X)).
Proof.
  intros H Hmd Hneeds. apply train_completed in H as [].
  destruct (scaler_after_loop lib _ _ _ _ _ _ _ _ _ _ _ _ Hscale Hmodels Hloop)
    as (-> & Hsc & _ & _ & loop_evs & Hlog3 & Hevs).
  destruct Hsmoke as (Hfs & _ & Hheap & _ & tail & Hlog & Htail).
  cbn [fs heap log] in Hfs, Hheap, Hlog.
  rewrite Hfs, lookup_insert_eq in Hmd. injection Hmd as <-.
  cbn [make_metadata needs_scaling] in Hneeds.
  destruct (refit_and_save_scaled lib _ _ _ _ _ _ _ Hneeds Hsc Hrefit)
    as (lm & est & stm & Xs & _ & Hlm & _ & _ & _ & ->).
  cbn [fs heap log] in Hfs, Hheap, Hlog.
  assert (Hne : lm <> next_loc s) by (intros ->; rewrite Hsc in Hlm; discriminate).
  assert (Hpkl : fs s' !! "ml/scaler.pkl"%string =
                 Some (FPickle (PObj (next_loc s) (OScaler (Some X))))).
  { rewrite Hfs. rewrite lookup_insert_ne by discriminate.
    rewrite lookup_insert_ne by discriminate. apply lookup_insert_eq. }
  assert (Hlog' : log s' = log s ++
             [EScalerFit (next_loc s) Xtr; EScalerTransform (next_loc s) Xtr;
              EScalerTransform (next_loc s) Xte] ++
             loop_evs ++
             [EScalerFit (next_loc s) X; EScalerTransform (next_loc s) X;
              EModelFit lm Xs y;
              EDump (PObj (next_loc s) (OScaler (Some X))) "ml/scaler.pkl";
              EDump (PObj lm (OModel est (Some (Xs, y)))) "ml/email_classifier.pkl"] ++
             tail).
  { rewrite Hlog, Hlog3. now rewrite <- !List.app_assoc. }
  exists fc, X, y, Xtr, Xte, ytr, yte, loop_evs, lm, est, Xs, tail.
  repeat split; try assumption.
  - rewrite Hlog'. now rewrite drop_app_length.
  - unfold persisted_scaler. now rewrite Hpkl.
  - apply Hheap. rewrite lookup_insert_ne by assumption. apply lookup_insert_eq.
Qed.

Lemma scaler_refit_in_place_witness :
  exists fc X y Xtr Xte ytr yte loop_evs lm est Xs tail,
    load_training_data start_state = (Ok (fc, X, y), start_state) /\
    train_test_split (Scripted.scripted Scripted.linear_wins) X y = Ok (Xtr, Xte, ytr, yte) /\
    log (snd (train_email_classifier (Scripted.scripted Scripted.linear_wins) start_state)) =
      log start_state ++
      [EScalerFit (next_loc start_state) Xtr; EScalerTransform (next_loc start_state) Xtr;
       EScalerTransform (next_loc start_state) Xte] ++
      loop_evs ++
      [EScalerFit (next_loc start_state) X; EScalerTransform (next_loc start_state) X;
       EModelFit lm Xs y;
       EDump (PObj (next_loc start_state) (OScaler (Some X))) "ml/scaler.pkl";
       EDump (PObj lm (OModel est (Some (Xs, y)))) "ml/email_classifier.pkl"] ++
      tail /\
    Forall (fun e => is_scaler_fit e = false) loop_evs /\
    Forall (fun e => is_scaler_fit e = false) tail /\
    first_scaler_fit
      (drop (length (log start_state))
         (log (snd (train_email_classifier (Scripted.scripted Scripted.linear_wins)
                      start_state)))) = Some (next_loc start_state, Xtr) /\
    persisted_scaler
      (snd (train_email_classifier (Scripted.scripted Scripted.linear_wins) start_state)) =
      Some (next_loc start_state) /\
    fs (snd (train_email_classifier (Scripted.scripted Scripted.linear_wins) start_state))
      !! "ml/scaler.pkl"%string =
      Some (FPickle (PObj (next_loc start_state) (OScaler (Some X)))) /\
    heap (snd (train_email_classifier (Scripted.scripted Scripted.linear_wins) start_state))
      !! next_loc start_state = Some (OScaler (Some X)).
Proof.
  apply (scaler_refit_in_place (Scripted.scripted Scripted.linear_wins) start_state _
           {| model_type := Some "LogisticRegression"%string;
              accuracy := Fin (6 # 6);
              feature_columns := feature_names;
              classes := ["CARGO"; "VESSEL"]%string;
              needs_scaling := true |}).
  - vm_compute. reflexivity.
  - vm_compute. reflexivity.
  - reflexivity.
Defined.

(** C1, as stated, fails on a run that selects LogisticRegression: the
    pickled scaler is the comparison scaler itself, and that object no
    longer holds its train-partition fit. *)
Lemma separate_scalers_fails :
  fst (train_email_classifier (Scripted.scripted Scripted.linear_wins) start_state) = Ok tt /\
  (exists md,
     fs (snd (train_email_classifier (Scripted.scripted Scripted.linear_wins) start_state))
       !! "ml/model_metadata.json"%string = Some (FJson md) /\
     model_type md = Some "LogisticRegression"%string /\
     needs_scaling md = true) /\
  ~ separate_scalers start_state
      (snd (train_email_classifier (Scripted.scripted Scripted.linear_wins) start_state)).
Proof.
  split; [vm_compute; reflexivity |]. split.
  { eexists. split; [vm_compute; reflexivity |]. split; reflexivity. }
  intros (l_cmp & X_train & l_out & Hfirst & Hpers & Hne & _).
  apply (f_equal (option_map fst)) in Hfirst.
  apply Hne. 
  assert (H1 : option_map fst (first_scaler_fit
      (drop (length (log start_state))
         (log (snd (train_email_classifier (Scripted.scripted Scripted.linear_wins)
                      start_state))))) = Some 0%nat) by (vm_compute; reflexivity).
  assert (H2 : persisted_scaler
      (snd (train_email_classifier (Scripted.scripted Scripted.linear_wins) start_state)) =
      Some 0%nat) by (vm_compute; reflexivity).
  rewrite H1 in Hfirst. rewrite H2 in Hpers. cbn in Hfirst. congruence.
Qed.

End TrainerFacts.

(* ===================================================================== *)
(** * The persisted feature columns *)
(* ===================================================================== *)

Module ColumnsFacts.
Import Text Py Features Trainer Runs
       FeaturesFacts DatasetFacts RunFacts PhaseFacts TrainerFacts.

Lemma prepare_loop_ok (corpus : list Email) (acc r : list (dict value) * list string) :
  prepare_loop corpus acc = Ok r -> exists labels, map type corpus = map Some labels.
Proof.
  revert acc. induction corpus as [|email corpus IH]; intros [X y] H.
  - now exists [].
  - cbn [prepare_loop prepare_step] in H.
    destruct (type email) as [label|] eqn:Ht; [| discriminate].
    cbn [getitem rbind] in H. apply IH in H as [labels Hl].
    exists (label :: labels). cbn [map]. now rewrite Ht, Hl.
Qed.

Lemma prepare_dataset_of_ok (corpus : list Email) (df : DataFrame) :
  prepare_dataset_of corpus = Ok df -> exists labels, map type corpus = map Some labels.
Proof.
  unfold prepare_dataset_of.
  destruct (prepare_loop corpus ([], [])) as [r|e] eqn:E; [| discriminate].
  intros _. eapply prepare_loop_ok, E.
Qed.

Lemma feature_cells (email : Email) (v : value) :
  map (fun i => nth i (feature_row email ++ [v]) VNaN) [0; 1; 2; 3; 4; 5; 6; 7; 8]%nat
  = feature_row email.
Proof. unfold feature_row. rewrite extract_features_eq. reflexivity. Qed.

Lemma select_feature_rows (corpus : list Email) (labels : list string) :
  length labels = length corpus ->
  map (fun row => map (fun i => nth i row VNaN) [0; 1; 2; 3; 4; 5; 6; 7; 8]%nat)
    (zip_with (fun email label => feature_row email ++ [VStr label]) corpus labels)
  = map feature_row corpus.
Proof.
  set (pick := fun row : list value =>
                  map (fun i => nth i row VNaN) [0; 1; 2; 3; 4; 5; 6; 7; 8]%nat).
  revert labels. induction corpus as [|email corpus IH]; intros [|label labels] Hlen;
    try discriminate Hlen; [reflexivity |].
  cbn [zip_with map]. rewrite IH by (simpl in Hlen; lia).
  f_equal.
Qed.

(** C4: after a run on the table built from a non-empty corpus, the
    written [feature_columns] is the key order of [extract_features] —
    the nine field names — and every row of the feature matrix the run
    trains on has that many cells. *)
Theorem feature_columns_persisted (lib : Sklearn) (corpus : list Email)
    (df : DataFrame) (s s' : state) :
  corpus <> [] ->
  prepare_dataset_of corpus = Ok df ->
  fs s !! "ml/training_data.csv"%string = Some (FCsv df) ->
  train_email_classifier lib s = (Ok tt, s') ->
  exists md X y,
    fs s' !! "ml/model_metadata.json"%string = Some (FJson md) /\
    feature_columns md =
      ["cargo_keyword_count"; "vessel_keyword_count"; "has_tonnage";
       "has_vessel_name"; "has_port_names"; "subject_length"; "body_length";
       "is_shipping_domain"; "is_cargo_domain"]%string /\
    (forall email, keys (extract_features email) = feature_columns md) /\
    load_training_data s = (Ok (feature_columns md, X, y), s) /\
    X = map feature_row corpus /\
    Forall (fun row => length row = length (feature_columns md)) X /\
    length (feature_columns md) = 9%nat.
Proof.
  intros Hne Hdf Hfile Hrun.
  destruct (prepare_dataset_of_ok _ _ Hdf) as [labels Hl].
  destruct (prepare_dataset_frame corpus labels Hl)
    as (df' & Hdf' & Hcols & _ & Hrows & _ & _ & Hlen).
  rewrite Hdf in Hdf'. injection Hdf' as <-.
  destruct corpus as [|email0 corpus0] eqn:Ec; [congruence |]. rewrite <- Ec in *.
  destruct (completed_selection lib s s' Hrun)
    as (fc & X & y & best & name & lm & Hload & _ & _ & _ & Hmd).
  destruct (load_training_data_ok _ _ _ _ _ Hload) as (_ & df0 & Hf0 & Hfc & HX & _).
  rewrite Hfile in Hf0. injection Hf0 as <-.
  rewrite Hcols in Hfc. change (List.filter _ _) with feature_names in Hfc. subst fc.
  unfold select_values in HX. rewrite Hcols, Hrows in HX.
  change (column_indices feature_names (feature_names ++ ["label"%string]))
    with (Ok [0; 1; 2; 3; 4; 5; 6; 7; 8]%nat) in HX.
  cbn [rbind] in HX. rewrite (select_feature_rows _ _ Hlen) in HX. injection HX as <-.
  exists (make_metadata best feature_names), (map feature_row corpus), y.
  cbn [make_metadata feature_columns].
  repeat split; try assumption; try reflexivity.
  apply Forall_forall. intros row Hrow.
  apply list_elem_of_In, in_map_iff in Hrow as (e & <- & _). apply feature_row_length.
Qed.

Lemma feature_columns_persisted_witness :
  exists md X y,
    fs (snd (train_email_classifier (Scripted.scripted Scripted.all_tied) start_state))
      !! "ml/model_metadata.json"%string = Some (FJson md) /\
    feature_columns md =
      ["cargo_keyword_count"; "vessel_keyword_count"; "has_tonnage";
       "has_vessel_name"; "has_port_names"; "subject_length"; "body_length";
       "is_shipping_domain"; "is_cargo_domain"]%string /\
    (forall email, keys (extract_features email) = feature_columns md) /\
    load_training_data start_state = (Ok (feature_columns md, X, y), start_state) /\
    X = map feature_row training_data /\
    Forall (fun row => length row = length (feature_columns md)) X /\
    length (feature_columns md) = 9%nat.
Proof.
  apply (feature_columns_persisted (Scripted.scripted Scripted.all_tied)
           training_data training_table start_state).
  - discriminate.
  - vm_compute. reflexivity.
  - vm_compute. reflexivity.
  - vm_compute. reflexivity.
Defined.

End ColumnsFacts.

(* ===================================================================== *)
(** * Failing candidates *)
(* ===================================================================== *)

Module FailureFacts.
Import Text Py Features Trainer Runs
       RunFacts FrameFacts PhaseFacts LoopFacts SummaryFacts TrainerFacts.

Lemma for_each_app {A S : Type} (body : S -> A -> M S) (l1 l2 : list A) (st : S) (s : state) :
  for_each body (l1 ++ l2) st s =
  (st' ← for_each body l1 st; for_each body l2 st') s.
Proof.
  revert st s. induction l1 as [|a l1 IH]; intros st s; cbn [for_each app].
  - reflexivity.
  - rewrite !bind_run. destruct (body st a s) as [[st1|e] s1]; [apply IH | reflexivity].
Qed.

Section Failure.

Variable lib : Sklearn.

Lemma evaluate_fit_error (v : Views) (st : Best) (name : string) (l : loc)
    (est : Estimator) (stm : option (Matrix * Labels)) (e : exn) (s : state) :
  heap s !! l = Some (OModel est stm) ->
  estimator_check lib est (train_view v name) (y_train v) = Err e ->
  evaluate lib v st (name, l) s =
  (Err e, {| heap := heap s; next_loc := next_loc s; fs := fs s;
             log := log s ++ [EModelFit l (train_view v name) (y_train v)] |}).
Proof.
  intros Hl Hc. unfold evaluate, train_view in *.
  destruct (str_elem name scaled_names);
    unfold model_fit; rewrite !bind_run; unfold get_model; rewrite Hl;
    cbn [emit lift heap next_loc fs log]; rewrite Hc; reflexivity.
Qed.

(** C2 (amended): when the fit of a candidate raises during the
    comparison, the run ends at once with that exception; the remaining
    candidates are not fitted, no candidate is selected, and no model,
    scaler or metadata file is written. *)
Theorem candidate_failure_aborts (s : state) (v : Views) (pre : dict loc)
    (name : string) (l : loc) (st : Best) (s3 : state)
    (est : Estimator) (stm : option (Matrix * Labels)) (e : exn) :
  compared_up_to lib s v pre (name, l) st s3 ->
  heap s3 !! l = Some (OModel est stm) ->
  estimator_check lib est (train_view v name) (y_train v) = Err e ->
  exists s',
    train_email_classifier lib s = (Err e, s') /\
    fs s' = fs s /\
    heap s' = heap s3 /\
    log s' = log s3 ++ [EModelFit l (train_view v name) (y_train v)].
Proof.
  intros [] Hl Hc. destruct v as [Xtr Xte ytr yte Xtr_s Xte_s].
  cbn [X_train X_test y_train y_test X_train_scaled X_test_scaled] in *.
  eexists. split; [| split; [| split]].
  - unfold train_email_classifier.
    rewrite (bind_step _ _ _ _ _ Hload). cbv beta iota.
    rewrite bind_run. unfold lift at 1. rewrite Hsplit. cbv beta iota.
    rewrite (bind_step _ _ _ _ _ Hscale). cbv beta iota.
    rewrite (bind_step _ _ _ _ _ Hmodels). cbv beta iota zeta.
    apply bind_err. rewrite for_each_app.
    rewrite (bind_step _ _ _ _ _ Hloop). cbn [for_each].
    apply bind_err. eapply evaluate_fit_error; eassumption.
  - cbn [fs].
    pose proof (preserves_for_each (R := calm) _ pre no_best
                  (fun st0 a => calm_evaluate lib _ st0 a) _ _ _ Hloop) as (Hf3 & _).
    destruct (make_models_run candidates s1) as (m' & s2' & Hrun & _ & Hf2 & _).
    rewrite Hrun in Hmodels. injection Hmodels as _ ->.
    apply scale_features_ok in Hscale as (_ & _ & _ & _ & ->).
    cbn [fs] in Hf2. congruence.
  - reflexivity.
  - reflexivity.
Qed.

End Failure.

Lemma candidate_failure_aborts_witness :
  exists s3 s',
    train_email_classifier (Scripted.scripted Scripted.forest_fails) start_state =
      (Err (ValueError "RandomForestClassifier could not be fitted"), s') /\
    fs s' = fs start_state /\
    heap s' = heap s3 /\
    log s' = log s3 ++
             [EModelFit 1%nat
                (train_view (views_of (Scripted.scripted Scripted.forest_fails) start_state)
                   "RandomForest")
                (y_train (views_of (Scripted.scripted Scripted.forest_fails) start_state))].
Proof.
  eexists.
  eapply (candidate_failure_aborts (Scripted.scripted Scripted.forest_fails)
            start_state
            (views_of (Scripted.scripted Scripted.forest_fails) start_state)
            [] "RandomForest"%string 1%nat no_best).
  - econstructor; vm_compute; reflexivity.
  - vm_compute. reflexivity.
  - vm_compute. reflexivity.
Defined.

(** C2, as stated, fails: RandomForest cannot be fitted, the other three
    candidates can, and the whole run ends with RandomForest's exception
    instead of continuing with the three. *)
Lemma bad_candidate_not_tolerated :
  (forall name est, In (name, est) candidates -> name <> "RandomForest"%string ->
     forall X y, estimator_check (Scripted.scripted Scripted.forest_fails) est X y = Ok tt) /\
  fst (train_email_classifier (Scripted.scripted Scripted.forest_fails) start_state) =
    Err (ValueError "RandomForestClassifier could not be fitted") /\
  fs (snd (train_email_classifier (Scripted.scripted Scripted.forest_fails) start_state))
    !! "ml/email_classifier.pkl"%string = None /\
  ~ tolerates_bad_candidate (Scripted.scripted Scripted.forest_fails) start_state.
Proof.
  assert (Hothers : forall name est, In (name, est) candidates ->
            name <> "RandomForest"%string ->
            forall X y, estimator_check (Scripted.scripted Scripted.forest_fails) est X y = Ok tt).
  { intros name est Hin Hne X y.
    cbn [candidates In] in Hin.
    destruct Hin as [H | [H | [H | [H | []]]]]; injection H as <- <-;
      [congruence | reflexivity | reflexivity | reflexivity]. }
  assert (Hrun : fst (train_email_classifier (Scripted.scripted Scripted.forest_fails)
                        start_state) =
                 Err (ValueError "RandomForestClassifier could not be fitted"))
    by (vm_compute; reflexivity).
  split; [exact Hothers |]. split; [exact Hrun |]. split; [vm_compute; reflexivity |].
  intros Htol. destruct Htol as [s' Hs'].
  - exists "GradientBoosting"%string. eexists. split.
    + cbn [candidates In]. right. left. reflexivity.
    + intros X y. reflexivity.
  - rewrite Hs' in Hrun. discriminate Hrun.
Qed.

End FailureFacts.

(* ===================================================================== *)
(** * Which candidate is selected *)
(* ===================================================================== *)

Module SelectFacts.
Import Text Py Features Trainer Runs RunFacts
       FrameFacts PhaseFacts LoopFacts SummaryFacts TrainerFacts FailureFacts.

(** ** Scores *)

Lemma float_gt_lt (x y : Q) : float_gt (Fin x) (Fin y) = true <-> (y < x)%Q.
Proof. unfold float_gt, Qlt. apply Z.ltb_lt. Qed.

Lemma float_gt_le (x y : Q) : float_gt (Fin x) (Fin y) = false <-> (x <= y)%Q.
Proof. unfold float_gt, Qle. rewrite Z.ltb_ge. reflexivity. Qed.

Lemma accuracy_score_value (y_true y_pred : Labels) (acc : pyfloat) :
  accuracy_score y_true y_pred = Ok acc ->
  (y_true = [] /\ acc = NaN) \/ (y_true <> [] /\ exists q, acc = Fin q).
Proof.
  unfold accuracy_score.
  destruct (negb (length y_true =? length y_pred)%nat); [discriminate |].
  destruct y_true as [|t y_true]; intros H; injection H as <-.
  - now left.
  - right. split; [discriminate | eauto].
Qed.

Lemma candidate_accuracy_value (lib : Sklearn) (v : Views) (spec : string * Estimator)
    (acc : pyfloat) :
  candidate_accuracy lib v spec = Ok acc ->
  (y_test v = [] /\ acc = NaN) \/ (y_test v <> [] /\ exists q, acc = Fin q).
Proof.
  destruct spec as [name est]. unfold candidate_accuracy.
  destruct (estimator_check lib est _ _); [| discriminate]. cbn [rbind].
  destruct (estimator_predict lib est _ _ _); [| discriminate]. cbn [rbind].
  apply accuracy_score_value.
Qed.

(** ** The selection as a fold *)

Lemma select_first_max (scored : list (string * loc * Q)) (st : Best) (q0 : Q) :
  best_score st = Fin q0 ->
  (Forall (fun x => (snd x <= q0)%Q) scored /\ select_from st scored = st) \/
  (exists pre name l a post,
     scored = pre ++ (name, l, a) :: post /\
     select_from st scored =
       {| best_model := Some l; best_score := Fin a; best_model_name := Some name |} /\
     (q0 < a)%Q /\
     Forall (fun x => (snd x < a)%Q) pre /\
     Forall (fun x => (snd x <= a)%Q) post).
Proof.
  revert st q0. induction scored as [|[[name l] a] scored IH]; intros st q0 Hq.
  - left. split; [constructor | reflexivity].
  - cbn [select_from fold_left fst snd]. fold (select_from (update st name l (Fin a)) scored).
    unfold update at 1 2. rewrite Hq.
    destruct (float_gt (Fin a) (Fin q0)) eqn:G.
    + apply float_gt_lt in G. right.
      destruct (IH {| best_model := Some l; best_score := Fin a; best_model_name := Some name |}
                  a eq_refl)
        as [[Hall Hsel] | (pre & n' & l' & a' & post & -> & Hsel & Hlt & Hpre & Hpost)].
      * exists [], name, l, a, scored.
        split; [reflexivity |]. split; [exact Hsel |]. split; [exact G |].
        split; [constructor | exact Hall].
      * exists ((name, l, a) :: pre), n', l', a', post.
        split; [reflexivity |]. split; [exact Hsel |].
        split; [eapply Qlt_trans; eassumption |].
        split; [constructor; assumption | exact Hpost].
    + apply float_gt_le in G.
      destruct (IH st q0 Hq)
        as [[Hall Hsel] | (pre & n' & l' & a' & post & -> & Hsel & Hlt & Hpre & Hpost)].
      * left. split; [constructor; assumption | assumption].
      * right. exists ((name, l, a) :: pre), n', l', a', post.
        split; [reflexivity |]. split; [exact Hsel |]. split; [exact Hlt |].
        split; [| exact Hpost].
        constructor; [| exact Hpre]. cbn [snd]. eapply Qle_lt_trans; eassumption.
Qed.


(** ** The loop computes the candidates' accuracies *)

Section Scores.

Variable lib : Sklearn.

Lemma evaluate_ok (v : Views) (st st' : Best) (name : string) (l : loc) (s s' : state) :
  evaluate lib v st (name, l) s = (Ok st', s') ->
  exists est stm acc,
    heap s !! l = Some (OModel est stm) /\
    candidate_accuracy lib v (name, est) = Ok acc /\
    st' = update st name l acc.
Proof.
  unfold evaluate, candidate_accuracy, train_view, test_view. intros H.
  step H p s1 H1. destruct p as [y_pred train_data].
  step H acc s2 H2. apply lift_ok in H2 as [H2 _].
  step H cv s3 H3.
  assert (Hst : st' = update st name l acc).
  { unfold update. destruct (float_gt acc (best_score st));
      apply ret_ok in H as [-> _]; reflexivity. }
  clear H H3. destruct (str_elem name scaled_names).
  - step H1 u s4 H4. destruct u.
    apply model_fit_ok in H4 as (est & stm & Hl & Hc & ->).
    step H1 yp s5 H5. apply ret_ok in H1 as [H1 _]. injection H1 as -> ->.
    apply model_predict_ok in H5 as (est' & X0 & y0 & Hl' & Hp & _).
    cbn [heap] in Hl'. rewrite lookup_insert_eq in Hl'. injection Hl' as <- <- <-.
    exists est, stm, acc. split; [assumption |]. split; [| assumption].
    rewrite Hc. cbn [rbind]. rewrite Hp. cbn [rbind]. assumption.
  - step H1 u s4 H4. destruct u.
    apply model_fit_ok in H4 as (est & stm & Hl & Hc & ->).
    step H1 yp s5 H5. apply ret_ok in H1 as [H1 _]. injection H1 as -> ->.
    apply model_predict_ok in H5 as (est' & X0 & y0 & Hl' & Hp & _).
    cbn [heap] in Hl'. rewrite lookup_insert_eq in Hl'. injection Hl' as <- <- <-.
    exists est, stm, acc. split; [assumption |]. split; [| assumption].
    rewrite Hc. cbn [rbind]. rewrite Hp. cbn [rbind]. assumption.
Qed.

Lemma placed_calm (s s' : state) (spec : string * Estimator) (entry : string * loc) :
  calm s s' -> placed s spec entry -> placed s' spec entry.
Proof.
  intros (_ & _ & _ & Hm & _) [Hname [stm Hl]]. split; [assumption |].
  now apply Hm in Hl.
Qed.

Lemma make_models_placed (specs : dict Estimator) (models : dict loc) (s s' : state) :
  make_models specs s = (Ok models, s') -> Forall2 (placed s') specs models.
Proof.
  revert models s. induction specs as [|[name est] specs IH]; intros models s H;
    cbn [make_models] in H.
  - apply ret_ok in H as [-> _]. constructor.
  - step H l s1 H1. injection H1 as <- <-.
    step H ms s2 H2. apply ret_ok in H as [-> ->].
    constructor; [| eapply IH, H2].
    split; [reflexivity |]. cbn [snd].
    destruct (make_models_run specs
                {| heap := <[next_loc s := OModel est None]> (heap s);
                   next_loc := S (next_loc s); fs := fs s; log := log s |})
      as (ms' & s2' & Hrun & _ & _ & _ & _ & Hh).
    rewrite Hrun in H2. injection H2 as -> ->.
    exists None. rewrite Hh by (cbn [next_loc]; lia). cbn [heap]. apply lookup_insert_eq.
Qed.

(** The loop variables at the end are the fold of [update] over the
    candidates' accuracies, in order. *)
Lemma loop_scored (v : Views) (specs : dict Estimator) (models : dict loc)
    (st best : Best) (s s' : state) :
  Forall2 (placed s) specs models ->
  for_each (evaluate lib v) models st s = (Ok best, s') ->
  exists scored : list (string * loc * pyfloat),
    Forall2 (fun spec x => fst (fst x) = fst spec /\
                           candidate_accuracy lib v spec = Ok (snd x)) specs scored /\
    best = fold_left (fun b x => update b (fst (fst x)) (snd (fst x)) (snd x)) scored st.
Proof.
  intros Hpl. revert st s Hpl.
  induction models as [|[name l] models IH] in specs |- *; intros st s Hpl H.
  - apply Forall2_nil_inv_r in Hpl as ->. cbn [for_each] in H.
    apply ret_ok in H as [-> _]. exists []. split; [constructor | reflexivity].
  - apply Forall2_cons_inv_r in Hpl as ([name' est] & specs' & [Hn [stm Hl]] & Hpl & ->).
    cbn [fst snd] in Hn, Hl. subst name'.
    cbn [for_each] in H. step H st1 s1 H1.
    pose proof (calm_evaluate lib v st (name, l) _ _ _ H1) as Hcalm.
    apply evaluate_ok in H1 as (est' & stm' & acc & Hl' & Hacc & ->).
    rewrite Hl in Hl'. injection Hl' as <- <-.
    destruct (IH specs' (update st name l acc) s1) as (scored & Hsc & Hbest).
    { eapply Forall2_impl; [exact Hpl |]. intros spec entry. now apply placed_calm. }
    { exact H. }
    exists ((name, l, acc) :: scored). split; [| exact Hbest].
    constructor; [now split | exact Hsc].
Qed.

Lemma comparison_views_completed (fc : list string) (X : Matrix) (y : Labels)
    (v : Views) (scaler : loc) (s s1 : state) :
  load_training_data s = (Ok (fc, X, y), s) ->
  train_test_split lib X y = Ok (X_train v, X_test v, y_train v, y_test v) ->
  scale_features lib (X_train v) (X_test v) s =
    (Ok (scaler, X_train_scaled v, X_test_scaled v), s1) ->
  comparison_views lib s = Ok v.
Proof.
  intros Hload Hsplit Hscale. unfold comparison_views.
  rewrite (bind_step _ _ _ _ _ Hload). cbv beta iota.
  rewrite bind_run. unfold lift at 1. rewrite Hsplit. cbv beta iota.
  rewrite (bind_step _ _ _ _ _ Hscale). cbv beta iota.
  now destruct v.
Qed.

Lemma fold_update_nan (scored : list (string * loc * pyfloat)) (st : Best) :
  Forall (fun x => snd x = NaN) scored ->
  fold_left (fun b x => update b (fst (fst x)) (snd (fst x)) (snd x)) scored st = st.
Proof.
  intros H. revert st. induction H as [|x scored Hx _ IH]; intros st; [reflexivity |].
  cbn [fold_left]. rewrite Hx. unfold update at 2. cbn [float_gt]. apply IH.
Qed.

Lemma finite_scores (scored : list (string * loc * pyfloat)) :
  Forall (fun x => exists q, snd x = Fin q) scored ->
  exists sq : list (string * loc * Q),
    scored = map (fun x => (fst x, Fin (snd x))) sq.
Proof.
  induction 1 as [|[nl acc] scored [q Hq] _ [sq ->]].
  - now exists [].
  - cbn [snd] in Hq. subst acc. now exists ((nl, q) :: sq).
Qed.

Lemma fold_update_finite (sq : list (string * loc * Q)) (st : Best) :
  fold_left (fun b x => update b (fst (fst x)) (snd (fst x)) (snd x))
    (map (fun x => (fst x, Fin (snd x))) sq) st = select_from st sq.
Proof.
  revert st. induction sq as [|x sq IH]; intros st; [reflexivity |].
  cbn [map fold_left select_from fst snd]. apply IH.
Qed.

(** X1: a run that returns has selected the first-declared candidate among
    those of highest held-out accuracy, and that accuracy is above 0:
    every candidate declared earlier scores strictly less, every later one
    at most as much. *)
Theorem selects_first_highest (s s' : state) :
  train_email_classifier lib s = (Ok tt, s') ->
  exists v (scored pre : list (string * loc * Q)) name l a post md,
    comparison_views lib s = Ok v /\
    Forall2 (fun spec x => fst (fst x) = fst spec /\
                           candidate_accuracy lib v spec = Ok (Fin (snd x)))
      candidates scored /\
    scored = pre ++ (name, l, a) :: post /\
    Forall (fun x => (snd x < a)%Q) pre /\
    Forall (fun x => (snd x <= a)%Q) post /\
    (0 < a)%Q /\
    fs s' !! "ml/model_metadata.json"%string = Some (FJson md) /\
    model_type md = Some name /\
    accuracy md = Fin a.
Proof.
  intros H. apply train_completed in H as [].
  set (v := {| X_train := Xtr; X_test := Xte; y_train := ytr; y_test := yte;
               X_train_scaled := Xtr_s; X_test_scaled := Xte_s |}) in *.
  assert (Hv : comparison_views lib s = Ok v)
    by (eapply comparison_views_completed; eassumption).
  destruct (scaler_after_loop lib _ _ _ _ _ _ _ _ _ _ _ _ Hscale Hmodels Hloop)
    as (_ & Hsc & _).
  destruct (refit_names_model lib _ _ _ _ _ _ _ Hsc Hrefit) as [lm Hlm].
  assert (Hmd : fs s' !! "ml/model_metadata.json"%string =
                Some (FJson (make_metadata best fc))).
  { destruct Hsmoke as (Hfs & _). cbn [fs] in Hfs. rewrite Hfs. apply lookup_insert_eq. }
  destruct (loop_scored v candidates models no_best best s2 s3
              (make_models_placed _ _ _ _ Hmodels) Hloop) as (scored & Hsc' & Hbest).
  assert (Hvals : Forall (fun x => (y_test v = [] /\ snd x = NaN) \/
                                  (y_test v <> [] /\ exists q, snd x = Fin q)) scored).
  { clear -Hsc'. induction Hsc' as [|spec x specs scored [_ Hx] _ IH]; constructor; auto.
    eapply candidate_accuracy_value, Hx. }
  destruct (y_test v) as [|t yt] eqn:Hyt.
  { exfalso. rewrite fold_update_nan in Hbest.
    - subst best. discriminate Hlm.
    - eapply Forall_impl; [exact Hvals |]. cbn beta.
      intros x [[_ Hx] | [Hx _]]; [exact Hx | congruence]. }
  destruct (finite_scores scored) as [sq ->].
  { eapply Forall_impl; [exact Hvals |]. cbn beta.
    intros x [[Hx _] | [_ Hx]]; [discriminate Hx | exact Hx]. }
  rewrite fold_update_finite in Hbest.
  destruct (select_first_max sq no_best 0 eq_refl)
    as [[_ Hsel] | (pre & name & l & a & post & -> & Hsel & Hlt & Hpre & Hpost)].
  { exfalso. rewrite Hsel in Hbest. subst best. discriminate Hlm. }
  rewrite Hsel in Hbest.
  exists v, (pre ++ (name, l, a) :: post), pre, name, l, a, post, (make_metadata best fc).
  split; [exact Hv |]. split.
  { apply Forall2_fmap_r in Hsc'. eapply Forall2_impl; [exact Hsc' |].
    cbn beta. intros spec x Hx. exact Hx. }
  split; [reflexivity |]. split; [exact Hpre |]. split; [exact Hpost |].
  split; [exact Hlt |]. split; [exact Hmd |].
  subst best. split; reflexivity.
Qed.

End Scores.

End SelectFacts.

(* ===================================================================== *)
(** * What the three patterns match *)
(* ===================================================================== *)

Module PatternFacts.
Import Text Py Features Notions TextFacts FeaturesFacts.

Lemma matches_eps_inv (s : string) : matches REps s -> s = ""%string.
Proof. intros H. now inversion H. Qed.

Lemma matches_lit (w : string) : matches (RLit w) w.
Proof.
  induction w as [|c w IH]; cbn [RLit]; [constructor |].
  exact (MSeq _ _ (String c "") w (MChar c) IH).
Qed.

Lemma matches_lit_inv (w s : string) : matches (RLit w) s -> s = w.
Proof.
  revert s. induction w as [|c w IH]; intros s H; cbn [RLit] in H.
  - now apply matches_eps_inv.
  - apply matches_seq_inv in H as (s1 & s2 & -> & H1 & H2).
    apply matches_char_inv in H1 as ->. apply IH in H2 as ->. reflexivity.
Qed.

Lemma matches_alts (rs : list regex) (w : string) :
  matches (RAlts rs) w <-> exists r, In r rs /\ matches r w.
Proof.
  induction rs as [|r rs IH].
  - split; [intros H; inversion H | intros (r & [] & _)].
  - destruct rs as [|r' rs].
    + cbn [RAlts]. split; [intros H; exists r; split; [now left | exact H] |].
      intros (r0 & [<- | []] & H). exact H.
    + change (RAlts (r :: r' :: rs)) with (RAlt r (RAlts (r' :: rs))). split.
      * intros H. apply matches_alt_inv in H as [H | H].
        -- exists r. split; [now left | exact H].
        -- apply IH in H as (r0 & Hin & H). exists r0. split; [now right | exact H].
      * intros (r0 & [<- | Hin] & H); [now apply MAltL |].
        apply MAltR, IH. now exists r0.
Qed.

Lemma matches_star_class (p : ascii -> bool) (s : string) :
  matches (RStar (RClass p)) s <-> all_chars p s = true.
Proof.
  induction s as [|c s IH]; cbn [all_chars].
  - split; [reflexivity | constructor].
  - split.
    + intros H. destruct (star_cons _ _ H c s eq_refl) as (t1 & t2 & -> & H1 & H2).
      apply matches_class_inv in H1 as (c' & E & Hp). injection E as -> ->.
      rewrite Hp. apply IH. exact H2.
    + intros H. apply andb_true_iff in H as [Hp H].
      exact (MStarS _ (String c "") s (MClass p c Hp) (proj2 IH H)).
Qed.

Lemma matches_plus_class (p : ascii -> bool) (s : string) :
  matches (RPlus (RClass p)) s <->
  exists c s', s = String c s' /\ p c = true /\ all_chars p s' = true.
Proof.
  unfold RPlus. split.
  - intros H. apply matches_seq_inv in H as (s1 & s2 & -> & H1 & H2).
    apply matches_class_inv in H1 as (c & -> & Hp).
    exists c, s2. split; [reflexivity |]. split; [exact Hp |].
    now apply matches_star_class.
  - intros (c & s' & -> & Hp & H).
    exact (MSeq _ _ (String c "") s' (MClass p c Hp) (proj2 (matches_star_class p s') H)).
Qed.

(** A string that is not empty ends with a last character. *)
Lemma last_char (p : ascii -> bool) (c : ascii) (s : string) :
  p c = true -> all_chars p s = true ->
  exists pre d, String c s = pre +:+ String d "" /\ p d = true.
Proof.
  revert c. induction s as [|c' s IH]; intros c Hc Hs.
  - exists ""%string, c. split; [reflexivity | exact Hc].
  - cbn [all_chars] in Hs. apply andb_true_iff in Hs as [Hc' Hs].
    destruct (IH c' Hc' Hs) as (pre & d & E & Hd).
    exists (String c pre), d. rewrite E. split; [reflexivity | exact Hd].
Qed.

(** ** The tonnage pattern *)

Lemma unit_match (w : string) :
  matches (RAlts [RLit "mt"; RSeq (RLit "ton") (ROpt (RChar "s"));
                  RLit "dwt"; RLit "teu"; RLit "cbm"]) w <->
  exists u, In u tonnage_units /\ (w = u \/ (u = "ton" /\ w = "tons"))%string.
Proof.
  rewrite matches_alts. split.
  - intros (r & Hin & H).
    destruct Hin as [<- | [<- | [<- | [<- | [<- | []]]]]].
    + apply matches_lit_inv in H as ->. exists "mt"%string. split; [cbn; tauto | now left].
    + apply matches_seq_inv in H as (s1 & s2 & -> & H1 & H2).
      apply matches_lit_inv in H1 as ->. exists "ton"%string. split; [cbn; tauto |].
      apply matches_alt_inv in H2 as [H2 | H2].
      * apply matches_char_inv in H2 as ->. now right.
      * apply matches_eps_inv in H2 as ->. now left.
    + apply matches_lit_inv in H as ->. exists "dwt"%string. split; [cbn; tauto | now left].
    + apply matches_lit_inv in H as ->. exists "teu"%string. split; [cbn; tauto | now left].
    + apply matches_lit_inv in H as ->. exists "cbm"%string. split; [cbn; tauto | now left].
  - intros (u & Hin & Hw).
    destruct Hin as [<- | [<- | [<- | [<- | [<- | []]]]]];
      destruct Hw as [-> | [E ->]]; try discriminate E.
    + exists (RLit "mt"). split; [cbn; tauto | apply matches_lit].
    + exists (RSeq (RLit "ton") (ROpt (RChar "s"))). split; [cbn; tauto |].
      exact (MSeq _ _ "ton" "" (matches_lit "ton") (MAltR _ _ _ MEps)).
    + exists (RSeq (RLit "ton") (ROpt (RChar "s"))). split; [cbn; tauto |].
      exact (MSeq _ _ "ton" "s" (matches_lit "ton") (MAltL _ _ _ (MChar "s"))).
    + exists (RLit "dwt"). split; [cbn; tauto | apply matches_lit].
    + exists (RLit "teu"). split; [cbn; tauto | apply matches_lit].
    + exists (RLit "cbm"). split; [cbn; tauto | apply matches_lit].
Qed.

Lemma tonnage_found (t : string) : found_in tonnage_re t <-> tonnage_shape t.
Proof.
  unfold tonnage_re. split.
  - intros (a & w & b & -> & H).
    apply matches_seq_inv in H as (ds & w2 & -> & Hds & H).
    apply matches_seq_inv in H as (sep & w3 & -> & Hsep & Hu).
    apply matches_plus_class in Hds as (c & ds' & -> & Hc & Hds).
    destruct (last_char _ _ _ Hc Hds) as (pre & d & -> & Hd).
    apply (matches_star_class (fun c => is_space c || Ascii.eqb c ",")) in Hsep.
    apply unit_match in Hu as (u & Hin & Hw).
    exists (a +:+ pre), d, sep, u.
    destruct Hw as [-> | [-> ->]].
    + exists b. split; [| auto].
      rewrite !app_assoc. sapp. reflexivity.
    + exists ("s" +:+ b)%string. split; [| auto].
      rewrite !app_assoc. sapp. reflexivity.
  - intros (a & d & sep & u & b & -> & Hd & Hsep & Hu).
    replace (a +:+ String d (sep +:+ u +:+ b))
      with (a +:+ String d (sep +:+ u) +:+ b)
      by (sapp; now rewrite app_assoc).
    apply found_in_context.
    apply (MSeq _ _ (String d "") (sep +:+ u)).
    + apply matches_plus_class. now exists d, ""%string.
    + apply MSeq.
      * now apply (matches_star_class (fun c => is_space c || Ascii.eqb c ",")).
      * apply unit_match. exists u. split; [exact Hu | now left].
Qed.

(** ** The vessel-name pattern *)

Lemma vessel_name_found (t : string) : found_in vessel_name_re t <-> vessel_name_shape t.
Proof.
  unfold vessel_name_re. split.
  - intros (a & w & b & -> & H).
    apply matches_seq_inv in H as (m & w1 & -> & Hm & H).
    apply matches_char_inv in Hm as ->.
    apply matches_seq_inv in H as (o & w2 & -> & Ho & H).
    apply matches_seq_inv in H as (v & w3 & -> & Hv & H).
    apply matches_char_inv in Hv as ->.
    apply matches_seq_inv in H as (s1 & s2 & -> & H1 & H2).
    apply matches_plus_class in H1 as (c1 & s1' & -> & Hc1 & Hs1).
    apply (matches_plus_class (fun c => is_word c || is_space c)) in H2
      as (d & s2' & -> & Hd & Hs2).
    assert (Hshape : exists c2 b', String c1 s1' +:+ String d s2' +:+ b =
                                   String c1 (String c2 b') /\ is_name_char c2 = true).
    { destruct s1' as [|c' s1''].
      - exists d, (s2' +:+ b). split; [reflexivity | exact Hd].
      - cbn [all_chars] in Hs1. apply andb_true_iff in Hs1 as [Hc' _].
        exists c', (s1'' +:+ String d s2' +:+ b). split; [reflexivity |].
        unfold is_name_char. rewrite Hc'. apply orb_true_r. }
    destruct Hshape as (c2 & b' & E & Hc2).
    apply matches_alt_inv in Ho as [Ho | Ho].
    + apply matches_char_inv in Ho as ->.
      exists a, "m/v"%string, c1, c2, b'. split; [| auto].
      rewrite <- E, !app_assoc. reflexivity.
    + apply matches_eps_inv in Ho as ->.
      exists a, "mv"%string, c1, c2, b'. split; [| auto].
      rewrite <- E, !app_assoc. reflexivity.
  - intros (a & m & c1 & c2 & b & -> & Hm & Hc1 & Hc2).
    replace (a +:+ m +:+ String c1 (String c2 b))
      with (a +:+ (m +:+ String c1 (String c2 "")) +:+ b)
      by (rewrite !app_assoc; reflexivity).
    apply found_in_context.
    assert (Htail : matches (RSeq (RPlus (RClass is_space))
                               (RPlus (RClass (fun c => is_word c || is_space c))))
                      (String c1 (String c2 ""))).
    { apply (MSeq _ _ (String c1 "") (String c2 "")).
      - apply matches_plus_class. now exists c1, ""%string.
      - apply (matches_plus_class (fun c => is_word c || is_space c)).
        now exists c2, ""%string. }
    destruct Hm as [-> | ->].
    + apply (MSeq _ _ "m" (String "v" (String c1 (String c2 ""))) (MChar "m")).
      apply (MSeq _ _ "" (String "v" (String c1 (String c2 ""))) (MAltR _ _ _ MEps)).
      exact (MSeq _ _ "v" _ (MChar "v") Htail).
    + apply (MSeq _ _ "m" (String "/" (String "v" (String c1 (String c2 "")))) (MChar "m")).
      apply (MSeq _ _ "/" (String "v" (String c1 (String c2 ""))) (MAltL _ _ _ (MChar "/"))).
      exact (MSeq _ _ "v" _ (MChar "v") Htail).
Qed.

(** ** The port pattern *)

Lemma port_found (t : string) :
  found_in port_re t <-> exists p, In p port_names /\ occurs_in p t.
Proof.
  unfold port_re. split.
  - intros (a & w & b & -> & H). apply matches_alts in H as (r & Hin & H).
    apply in_map_iff in Hin as (p & <- & Hin). apply matches_lit_inv in H as ->.
    exists p. split; [exact Hin | now exists a, b].
  - intros (p & Hin & a & b & ->). apply found_in_context.
    apply matches_alts. exists (RLit p). split; [| apply matches_lit].
    apply in_map_iff. now exists p.
Qed.

Lemma flag_true (b : bool) (P : Prop) :
  (b = true <-> P) -> (Some (VBool b) = Some (VBool true) <-> P).
Proof. intros H. rewrite <- H. split; [intros E; now injection E | now intros ->]. Qed.

(** X2: [has_tonnage] is [True] exactly when the lower-cased text of
    subject, blank and body holds a digit followed by any run of white
    space and commas and then one of "mt", "ton", "dwt", "teu", "cbm".
    Nothing bounds the unit on the right, so "5 tonight" counts as a
    tonnage; an upper-case unit in the body counts too. *)
Theorem has_tonnage_iff (email : Email) :
  (dict_get "has_tonnage" (extract_features email) = Some (VBool true) <->
   tonnage_shape (lower (get (subject email) "" +:+ " " +:+ get (body email) ""))) /\
  dict_get "has_tonnage"
    (extract_features (email_of "Dinner at 5 tonight" "" "" "CARGO")) = Some (VBool true) /\
  dict_get "has_tonnage"
    (extract_features (email_of "Offer" "5000 MT Steel" "" "CARGO")) = Some (VBool true).
Proof.
  split; [| split; vm_compute; reflexivity].
  rewrite extract_features_eq.
  change (Some (VBool (re_search tonnage_re (search_text email))) = Some (VBool true)
          <-> tonnage_shape (search_text email)).
  apply flag_true. rewrite re_search_spec. apply tonnage_found.
Qed.

(** X3: [has_vessel_name] is [True] exactly when the lower-cased text of
    subject, blank and body holds "mv" or "m/v" followed by a white-space
    character and one more character that is a word character or white
    space.  No name is needed: "mv" and two blanks are enough, and "mv"
    directly followed by a name is not; an upper-case "M/V" in the body
    counts. *)
Theorem has_vessel_name_iff (email : Email) :
  (dict_get "has_vessel_name" (extract_features email) = Some (VBool true) <->
   vessel_name_shape (lower (get (subject email) "" +:+ " " +:+ get (body email) ""))) /\
  dict_get "has_vessel_name"
    (extract_features (email_of "mv  " "" "" "VESSEL")) = Some (VBool true) /\
  dict_get "has_vessel_name"
    (extract_features (email_of "MV-Pacific Dream" "" "" "VESSEL")) = Some (VBool false) /\
  dict_get "has_vessel_name"
    (extract_features (email_of "Vessel open" "M/V Pacific Dream" "" "VESSEL")) =
    Some (VBool true).
Proof.
  split; [| split; [| split]; vm_compute; reflexivity].
  rewrite extract_features_eq.
  change (Some (VBool (re_search vessel_name_re (search_text email))) = Some (VBool true)
          <-> vessel_name_shape (search_text email)).
  apply flag_true. rewrite re_search_spec. apply vessel_name_found.
Qed.

(** X4: [has_port_names] is [True] exactly when one of the seven port
    names occurs in the lower-cased text of subject, blank and body, as a
    substring; an upper-case name in the body counts. *)
Theorem has_port_names_iff (email : Email) :
  (dict_get "has_port_names" (extract_features email) = Some (VBool true) <->
   exists p, In p port_names /\
             occurs_in p (lower (get (subject email) "" +:+ " " +:+ get (body email) ""))) /\
  dict_get "has_port_names"
    (extract_features (email_of "Open" "Port of SANTOS" "" "VESSEL")) = Some (VBool true).
Proof.
  split; [| vm_compute; reflexivity].
  rewrite extract_features_eq.
  change (Some (VBool (re_search port_re (search_text email))) = Some (VBool true)
          <-> exists p, In p port_names /\ occurs_in p (search_text email)).
  apply flag_true. rewrite re_search_spec. apply port_found.
Qed.

End PatternFacts.

(* ===================================================================== *)
(** * The extractor under changes of its input *)
(* ===================================================================== *)

Module InputFacts.
Import Text Py Features Notions TextFacts FeaturesFacts DatasetFacts PatternFacts.

(** ** Letter case *)

Lemma lower_length (s : string) : String.length (lower s) = String.length s.
Proof. induction s as [|c s IH]; cbn [lower String.length]; congruence. Qed.

Lemma len_lower (s1 s2 : string) : lower s1 = lower s2 -> len s1 = len s2.
Proof.
  intros H. unfold len. rewrite <- (lower_length s1), <- (lower_length s2), H. reflexivity.
Qed.

Lemma search_text_parts (email : Email) :
  search_text email =
  lower (get (subject email) "") +:+ " " +:+ lower (get (body email) "").
Proof. unfold search_text, raw_text. rewrite !lower_app. reflexivity. Qed.

(** X5: subject and body enter the features up to letter case only: two
    emails whose subjects and bodies agree after lower-casing, and whose
    senders are equal, get the same feature dict, lengths included. *)
Theorem features_ignore_case (e1 e2 : Email) :
  lower (get (subject e1) "") = lower (get (subject e2) "") ->
  lower (get (body e1) "") = lower (get (body e2) "") ->
  get (sender e1) "" = get (sender e2) "" ->
  extract_features e1 = extract_features e2.
Proof.
  intros Hs Hb Hf. rewrite !extract_features_eq.
  rewrite (search_text_parts e1), (search_text_parts e2), Hs, Hb, Hf.
  rewrite (len_lower _ _ Hs), (len_lower _ _ Hb). reflexivity.
Qed.

Lemma features_ignore_case_witness :
  extract_features (email_of "MV Pacific Dream" "Open SINGAPORE" "ops@bulk.sg" "VESSEL") =
  extract_features (email_of "mv pacific dream" "open Singapore" "ops@bulk.sg" "CARGO").
Proof.
  apply (features_ignore_case
           (email_of "MV Pacific Dream" "Open SINGAPORE" "ops@bulk.sg" "VESSEL")
           (email_of "mv pacific dream" "open Singapore" "ops@bulk.sg" "CARGO"));
    reflexivity.
Defined.

(** ** The sender flags *)

Lemma any_domain_spec (domains : list string) (sender : string) :
  any_domain domains sender = true <->
  exists d, In d domains /\ occurs_in d sender.
Proof.
  unfold any_domain. rewrite existsb_exists.
  split; intros (d & Hin & H); exists d; (split; [exact Hin |]); now apply str_in_spec.
Qed.

(** X6: the two sender flags test the whole sender string as it is, not
    its domain part and not lower-cased: a flag is [True] exactly when one
    of its six words occurs somewhere in the sender.  So "bulk@gmail.com"
    is a shipping sender and "ops@BULKSHIP.SG" is not. *)
Theorem sender_flags_iff (email : Email) :
  (dict_get "is_shipping_domain" (extract_features email) = Some (VBool true) <->
   exists d, In d shipping_domains /\ occurs_in d (get (sender email) "")) /\
  (dict_get "is_cargo_domain" (extract_features email) = Some (VBool true) <->
   exists d, In d cargo_domains /\ occurs_in d (get (sender email) "")) /\
  dict_get "is_shipping_domain"
    (extract_features (email_of "" "" "bulk@gmail.com" "VESSEL")) = Some (VBool true) /\
  dict_get "is_shipping_domain"
    (extract_features (email_of "" "" "ops@BULKSHIP.SG" "VESSEL")) = Some (VBool false).
Proof.
  split; [| split; [| split; vm_compute; reflexivity]].
  - rewrite extract_features_eq.
    change (Some (VBool (any_domain shipping_domains (get (sender email) ""))) =
            Some (VBool true) <->
            exists d, In d shipping_domains /\ occurs_in d (get (sender email) "")).
    apply flag_true, any_domain_spec.
  - rewrite extract_features_eq.
    change (Some (VBool (any_domain cargo_domains (get (sender email) ""))) =
            Some (VBool true) <->
            exists d, In d cargo_domains /\ occurs_in d (get (sender email) "")).
    apply flag_true, any_domain_spec.
Qed.

(** ** More text *)

Lemma occurs_in_context (k t x y : string) :
  occurs_in k t -> occurs_in k (x +:+ t +:+ y).
Proof.
  intros (a & b & ->). exists (x +:+ a), (b +:+ y). now rewrite !app_assoc.
Qed.

Lemma found_in_wider (r : regex) (t x y : string) :
  found_in r t -> found_in r (x +:+ t +:+ y).
Proof.
  intros (a & w & b & -> & H). exists (x +:+ a), w, (b +:+ y).
  split; [now rewrite !app_assoc | exact H].
Qed.

Lemma filter_length_le {A : Type} (f g : A -> bool) (l : list A) :
  (forall x, f x = true -> g x = true) ->
  (length (List.filter f l) <= length (List.filter g l))%nat.
Proof.
  intros Hfg. induction l as [|x l IH]; [reflexivity |]. cbn [List.filter].
  destruct (f x) eqn:Ef.
  - rewrite (Hfg x Ef). cbn [length]. lia.
  - destruct (g x); cbn [length]; lia.
Qed.

Lemma keyword_count_wider (keywords : list string) (t x y : string) :
  keyword_count keywords t <= keyword_count keywords (x +:+ t +:+ y).
Proof.
  rewrite !keyword_count_length. apply inj_le, filter_length_le.
  intros k H. apply str_in_spec. apply occurs_in_context. now apply str_in_spec.
Qed.

Lemma re_search_wider (r : regex) (t x y : string) :
  re_search r t = true -> re_search r (x +:+ t +:+ y) = true.
Proof. rewrite !re_search_spec. apply found_in_wider. Qed.

(** X7: text added in front of the subject or after the body never lowers
    a keyword count and never turns a pattern flag off. *)
Theorem more_text_keeps_features (e e' : Email) (x y : string) :
  raw_text e' = x +:+ raw_text e +:+ y ->
  (exists c c' v v',
     dict_get "cargo_keyword_count" (extract_features e) = Some (VInt c) /\
     dict_get "cargo_keyword_count" (extract_features e') = Some (VInt c') /\
     dict_get "vessel_keyword_count" (extract_features e) = Some (VInt v) /\
     dict_get "vessel_keyword_count" (extract_features e') = Some (VInt v') /\
     c <= c' /\ v <= v') /\
  (forall flag, In flag ["has_tonnage"; "has_vessel_name"; "has_port_names"]%string ->
     dict_get flag (extract_features e) = Some (VBool true) ->
     dict_get flag (extract_features e') = Some (VBool true)).
Proof.
  intros Hraw.
  assert (Ht : search_text e' = lower x +:+ search_text e +:+ lower y).
  { unfold search_text. rewrite Hraw, !lower_app. reflexivity. }
  rewrite !extract_features_eq, Ht. split.
  - exists (keyword_count cargo_keywords (search_text e)),
           (keyword_count cargo_keywords (lower x +:+ search_text e +:+ lower y)),
           (keyword_count vessel_keywords (search_text e)),
           (keyword_count vessel_keywords (lower x +:+ search_text e +:+ lower y)).
    repeat (split; [reflexivity |]).
    split; apply keyword_count_wider.
  - intros flag [<- | [<- | [<- | []]]] H.
    + change (Some (VBool (re_search tonnage_re (search_text e))) = Some (VBool true)) in H.
      injection H as H. apply (re_search_wider _ _ (lower x) (lower y)) in H.
      change (Some (VBool (re_search tonnage_re (lower x +:+ search_text e +:+ lower y))) =
              Some (VBool true)).
      now rewrite H.
    + change (Some (VBool (re_search vessel_name_re (search_text e))) = Some (VBool true)) in H.
      injection H as H. apply (re_search_wider _ _ (lower x) (lower y)) in H.
      change (Some (VBool (re_search vessel_name_re (lower x +:+ search_text e +:+ lower y))) =
              Some (VBool true)).
      now rewrite H.
    + change (Some (VBool (re_search port_re (search_text e))) = Some (VBool true)) in H.
      injection H as H. apply (re_search_wider _ _ (lower x) (lower y)) in H.
      change (Some (VBool (re_search port_re (lower x +:+ search_text e +:+ lower y))) =
              Some (VBool true)).
      now rewrite H.
Qed.

Lemma more_text_keeps_features_witness :
  (exists c c' v v',
     dict_get "cargo_keyword_count"
       (extract_features (email_of "Coal cargo" "5000 MT ex Santos" "" "CARGO")) =
       Some (VInt c) /\
     dict_get "cargo_keyword_count"
       (extract_features (email_of "Fwd: Coal cargo" "5000 MT ex Santos, need vessel" ""
                            "CARGO")) = Some (VInt c') /\
     dict_get "vessel_keyword_count"
       (extract_features (email_of "Coal cargo" "5000 MT ex Santos" "" "CARGO")) =
       Some (VInt v) /\
     dict_get "vessel_keyword_count"
       (extract_features (email_of "Fwd: Coal cargo" "5000 MT ex Santos, need vessel" ""
                            "CARGO")) = Some (VInt v') /\
     c <= c' /\ v <= v') /\
  (forall flag, In flag ["has_tonnage"; "has_vessel_name"; "has_port_names"]%string ->
     dict_get flag (extract_features (email_of "Coal cargo" "5000 MT ex Santos" "" "CARGO")) =
       Some (VBool true) ->
     dict_get flag
       (extract_features (email_of "Fwd: Coal cargo" "5000 MT ex Santos, need vessel" ""
                            "CARGO")) = Some (VBool true)).
Proof.
  apply (more_text_keeps_features
           (email_of "Coal cargo" "5000 MT ex Santos" "" "CARGO")
           (email_of "Fwd: Coal cargo" "5000 MT ex Santos, need vessel" "" "CARGO")
           "Fwd: " ", need vessel").
  reflexivity.
Defined.

(** ** Records without a label *)

Lemma prepare_loop_unlabelled (corpus : list Email) (acc : list (dict value) * list string) :
  (exists email, In email corpus /\ type email = None) ->
  prepare_loop corpus acc = Err (KeyError "type").
Proof.
  revert acc. induction corpus as [|email corpus IH]; intros [X y] (e0 & Hin & Hty).
  - destruct Hin.
  - cbn [prepare_loop prepare_step]. destruct (type email) as [label|] eqn:E.
    + cbn [getitem rbind]. apply IH. destruct Hin as [-> | Hin]; [congruence |].
      now exists e0.
    + reflexivity.
Qed.

Lemma labelled_or_not (corpus : list Email) :
  (exists labels, map type corpus = map Some labels) \/
  (exists email, In email corpus /\ type email = None).
Proof.
  induction corpus as [|email corpus [[labels IH] | (e0 & Hin & Hty)]].
  - left. now exists [].
  - destruct (type email) as [label|] eqn:E.
    + left. exists (label :: labels). cbn [map]. now rewrite E, IH.
    + right. exists email. split; [now left | exact E].
  - right. exists e0. split; [now right | exact Hty].
Qed.

(** X8: [prepare_dataset] fails exactly when some record has no ['type']
    key, and then with [KeyError('type')]: [email['type']] is the only
    lookup that can raise, and the table is built only after the loop. *)
Theorem dataset_fails_iff_unlabelled (corpus : list Email) (e : exn) :
  prepare_dataset_of corpus = Err e <->
  e = KeyError "type" /\ exists email, In email corpus /\ type email = None.
Proof.
  split.
  - intros H. destruct (labelled_or_not corpus) as [[labels Hl] | Hun].
    + destruct (prepare_dataset_frame corpus labels Hl) as (df & Hdf & _). congruence.
    + unfold prepare_dataset_of in H. rewrite (prepare_loop_unlabelled _ _ Hun) in H.
      cbn [rbind] in H. split; [congruence | exact Hun].
  - intros [-> Hun]. unfold prepare_dataset_of.
    now rewrite (prepare_loop_unlabelled _ _ Hun).
Qed.

End InputFacts.

(* ===================================================================== *)
(** * Loading the table *)
(* ===================================================================== *)

Module LoadFacts.
Import Text Py Features Trainer Runs Notions RunFacts PhaseFacts.

(** ** Column lookup *)

Lemma index_of_none (k : string) (l : list string) :
  index_of k l = None <-> ~ In k l.
Proof.
  induction l as [|k' l IH]; cbn [index_of In]; [tauto |].
  destruct (String.eqb k k') eqn:E.
  - apply String.eqb_eq in E as ->. split; [discriminate | tauto].
  - apply String.eqb_neq in E. destruct (index_of k l) as [i|]; cbn [option_map].
    + split; [discriminate |]. intros H. exfalso. apply H. right.
      destruct (in_dec string_dec k l) as [Hin | Hout]; [exact Hin |].
      apply IH in Hout. discriminate.
    + split; [| reflexivity]. intros _ [-> | Hin]; [now apply E |].
      now apply (proj1 IH).
Qed.

Lemma index_of_some (k : string) (l : list string) (i : nat) :
  index_of k l = Some i -> nth_error l i = Some k.
Proof.
  revert i. induction l as [|k' l IH]; intros i; cbn [index_of]; [discriminate |].
  destruct (String.eqb k k') eqn:E.
  - apply String.eqb_eq in E as ->. intros H. now injection H as <-.
  - destruct (index_of k l) as [j|]; cbn [option_map]; [| discriminate].
    intros H. injection H as <-. cbn [nth_error]. now apply IH.
Qed.

Lemma index_of_in (k : string) (l : list string) :
  In k l <-> exists i, index_of k l = Some i.
Proof.
  split.
  - intros Hin. destruct (index_of k l) as [i|] eqn:E; [now exists i |].
    apply index_of_none in E. contradiction.
  - intros [i H]. apply index_of_some in H. eapply nth_error_In, H.
Qed.

Lemma column_indices_spec (names cols : list string) (is_ : list nat) :
  column_indices names cols = Ok is_ <->
  Forall2 (fun name i => index_of name cols = Some i) names is_.
Proof.
  revert is_. induction names as [|name names IH]; intros is_; cbn [column_indices].
  - split; [intros H; injection H as <-; constructor | intros H; now inversion H].
  - destruct (index_of name cols) as [i|] eqn:E.
    + destruct (column_indices names cols) as [js|e] eqn:Ec; cbn [rbind].
      * split.
        -- intros H. injection H as <-. constructor; [exact E | now apply IH].
        -- intros H. inversion H as [|? j ? js' Hj Hjs]; subst.
           apply IH in Hjs. congruence.
      * split; [discriminate |]. intros H. inversion H as [|? j ? js' Hj Hjs]; subst.
        apply IH in Hjs. discriminate.
    + split; [discriminate |]. intros H. inversion H; subst. congruence.
Qed.

Lemma column_indices_known (names cols : list string) :
  (forall name, In name names -> In name cols) ->
  exists is_, column_indices names cols = Ok is_.
Proof.
  induction names as [|name names IH]; intros Hsub; cbn [column_indices].
  - now exists [].
  - destruct (proj1 (index_of_in name cols) (Hsub name (or_introl eq_refl))) as [i ->].
    destruct IH as [is_ ->]; [intros n Hn; apply Hsub; now right |].
    now exists (i :: is_).
Qed.

(** The first name that is not a column is the key of the error. *)
Lemma column_indices_unknown (names cols : list string) :
  (exists name, In name names /\ ~ In name cols) ->
  exists name, In name names /\ ~ In name cols /\
               column_indices names cols = Err (KeyError name).
Proof.
  induction names as [|name names IH]; intros (n & Hin & Hout); [destruct Hin |].
  cbn [column_indices]. destruct (index_of name cols) as [i|] eqn:E.
  - destruct IH as (n' & Hin' & Hout' & ->).
    + destruct Hin as [-> | Hin]; [| now exists n].
      exfalso. apply Hout, index_of_in. now exists i.
    + exists n'. split; [now right | now split].
  - exists name. split; [now left |]. split; [now apply index_of_none | reflexivity].
Qed.

Lemma select_values_ok (names : list string) (df : DataFrame) (X : list (list value)) :
  select_values names df = Ok X ->
  (forall name, In name names -> In name (columns df)) /\
  length X = length (rows df) /\
  Forall (fun row => length row = length names) X.
Proof.
  unfold select_values. destruct (column_indices names (columns df)) as [is_|e] eqn:E;
    cbn [rbind]; [| discriminate].
  intros H. injection H as <-. apply column_indices_spec in E. split; [| split].
  - intros name Hin. apply list_elem_of_In, list_elem_of_lookup in Hin as [j Hj].
    destruct (Forall2_lookup_l _ _ _ _ _ E Hj) as (i & _ & Hi).
    apply index_of_in. now exists i.
  - apply length_map.
  - apply Forall_forall. intros row Hrow.
    apply list_elem_of_In, in_map_iff in Hrow as (r & <- & _).
    rewrite length_map. symmetry. eapply Forall2_length, E.
Qed.

Lemma filter_sub {A : Type} (f : A -> bool) (l : list A) (x : A) :
  In x (List.filter f l) -> In x l.
Proof. intros H. now apply filter_In in H. Qed.

Lemma no_label_among_features (cols : list string) :
  ~ In "label"%string (List.filter (fun col => negb (String.eqb col "label")) cols).
Proof. intros H. apply filter_In in H as [_ H]. discriminate H. Qed.

(** X9: on a table without a ['label'] column nothing is trained:
    [df['label']] raises [KeyError('label')] before the split, no object
    is created and no file is written. *)
Theorem table_without_label (lib : Sklearn) (df : DataFrame) (s : state) :
  fs s !! "ml/training_data.csv"%string = Some (FCsv df) ->
  ~ In "label"%string (columns df) ->
  train_email_classifier lib s = (Err (KeyError "label"), s).
Proof.
  intros Hfile Hno.
  destruct (column_indices_known
              (List.filter (fun col => negb (String.eqb col "label")) (columns df))
              (columns df)) as [is_ His]; [intros n; apply filter_sub |].
  unfold train_email_classifier. apply bind_err.
  unfold load_training_data. rewrite bind_run. unfold read_csv at 1. rewrite Hfile.
  rewrite bind_run. unfold lift at 1, select_values at 1. rewrite His. cbn [rbind].
  apply bind_err. unfold lift, column.
  now rewrite (proj2 (index_of_none _ _) Hno).
Qed.

Lemma table_without_label_witness :
  train_email_classifier (Scripted.scripted Scripted.all_tied)
    (state_with {| columns := feature_names; rows := map feature_row training_data |}) =
  (Err (KeyError "label"),
   state_with {| columns := feature_names; rows := map feature_row training_data |}).
Proof.
  apply (table_without_label (Scripted.scripted Scripted.all_tied)
           {| columns := feature_names; rows := map feature_row training_data |}).
  - reflexivity.
  - vm_compute. intuition discriminate.
Defined.

(** X10: whatever table the file holds, when loading succeeds the feature
    columns are the columns other than ['label'], in order, the matrix has
    one row per label, and each row has one cell per feature column. *)
Theorem loaded_shapes (s s' : state) (fc : list string) (X : Matrix) (y : Labels) :
  load_training_data s = (Ok (fc, X, y), s') ->
  s' = s /\
  ~ In "label"%string fc /\
  length X = length y /\
  Forall (fun row => length row = length fc) X /\
  exists df, fs s !! "ml/training_data.csv"%string = Some (FCsv df) /\
             In "label"%string (columns df) /\
             length X = length (rows df) /\
             forall c, In c fc <-> In c (columns df) /\ c <> "label"%string.
Proof.
  intros H. apply load_training_data_ok in H as (-> & df & Hfile & -> & HX & Hy).
  apply select_values_ok in HX as (_ & HlenX & Hrows).
  assert (Hleny : length y = length (rows df)).
  { unfold column in Hy. destruct (index_of "label" (columns df)); [| discriminate].
    injection Hy as <-. apply length_map. }
  split; [reflexivity |]. split; [apply no_label_among_features |].
  split; [congruence |]. split; [exact Hrows |].
  exists df. split; [exact Hfile |]. split; [| split; [exact HlenX |]].
  - apply index_of_in. unfold column in Hy.
    destruct (index_of "label" (columns df)) as [i|]; [now exists i | discriminate].
  - intros c. rewrite filter_In, negb_true_iff, String.eqb_neq. reflexivity.
Qed.

Lemma loaded_shapes_witness :
  start_state = start_state /\
  ~ In "label"%string feature_names /\
  length (map feature_row training_data) =
    length (map (fun email => VStr (get (type email) "")) training_data) /\
  Forall (fun row => length row = length feature_names) (map feature_row training_data) /\
  exists df, fs start_state !! "ml/training_data.csv"%string = Some (FCsv df) /\
             In "label"%string (columns df) /\
             length (map feature_row training_data) = length (rows df) /\
             forall c, In c feature_names <-> In c (columns df) /\ c <> "label"%string.
Proof.
  apply (loaded_shapes start_state start_state feature_names
           (map feature_row training_data)
           (map (fun email => VStr (get (type email) "")) training_data)).
  vm_compute. reflexivity.
Defined.

End LoadFacts.

(* ===================================================================== *)
(** * The files a run touches *)
(* ===================================================================== *)

Module FilesFacts.
Import Text Py Features Trainer Runs Notions RunFacts FrameFacts PhaseFacts TrainerFacts.

#[global] Instance files_kept_preorder : PreOrder files_kept.
Proof.
  split; [intros s; reflexivity |].
  intros s1 s2 s3 H12 H23. unfold files_kept in *. congruence.
Qed.

#[global] Instance only_artifacts_preorder : PreOrder only_artifacts.
Proof.
  split; [intros s path _; reflexivity |].
  intros s1 s2 s3 H12 H23 path Hp. rewrite (H23 path Hp). exact (H12 path Hp).
Qed.

Lemma preserves_weaken {A : Type} (R R' : state -> state -> Prop) (m : M A) :
  (forall s s', R s s' -> R' s s') -> preserves R m -> preserves R' m.
Proof. intros HR Hm s r s' H. eapply HR, Hm, H. Qed.

Lemma calm_files_kept (s s' : state) : calm s s' -> files_kept s s'.
Proof. intros (H & _). exact H. Qed.

Lemma files_kept_only (s s' : state) : files_kept s s' -> only_artifacts s s'.
Proof. intros H path _. now rewrite H. Qed.

Lemma kept_emit (e : event) : preserves files_kept (emit e).
Proof. intros s r s' H. injection H as <- <-. reflexivity. Qed.

Lemma kept_alloc (o : obj) : preserves files_kept (alloc o).
Proof. intros s r s' H. injection H as <- <-. reflexivity. Qed.

Lemma kept_store (l : loc) (o : obj) : preserves files_kept (store l o).
Proof. intros s r s' H. injection H as <- <-. reflexivity. Qed.

Lemma kept_deref (l : loc) : preserves files_kept (deref l).
Proof.
  apply preserves_still. intros s. unfold deref. now destruct (heap s !! l).
Qed.

Lemma kept_read_csv (path : string) : preserves files_kept (read_csv path).
Proof.
  apply preserves_still. intros s. unfold read_csv.
  now destruct (fs s !! path) as [[?|?|?]|].
Qed.

Lemma kept_load : preserves files_kept load_training_data.
Proof.
  unfold load_training_data.
  apply preserves_bind; [apply kept_read_csv | intros df].
  apply preserves_bind; [apply preserves_lift | intros X].
  apply preserves_bind; [apply preserves_lift | intros y].
  apply preserves_ret.
Qed.

Lemma kept_make_models (specs : dict Estimator) : preserves files_kept (make_models specs).
Proof.
  induction specs as [|[name est] specs IH]; cbn [make_models].
  - apply preserves_ret.
  - apply preserves_bind; [apply kept_alloc | intros model].
    apply preserves_bind; [exact IH | intros models]. apply preserves_ret.
Qed.

Lemma written_artifact (path : string) (f : file) :
  In path artifact_paths -> preserves only_artifacts (write_file path f).
Proof.
  intros Hin s r s' H. injection H as <- <-. intros p Hp. cbn [fs].
  apply lookup_insert_ne. intros ->. contradiction.
Qed.

Section Operations.

Variable lib : Sklearn.

Lemma kept_scaler_fit (l : loc) (X : Matrix) : preserves files_kept (scaler_fit lib l X).
Proof.
  unfold scaler_fit.
  apply preserves_bind; [apply preserves_get_scaler | intros _].
  apply preserves_bind; [apply kept_emit | intros _].
  apply preserves_bind; [apply preserves_lift | intros _].
  apply kept_store.
Qed.

Lemma kept_scaler_transform (l : loc) (X : Matrix) :
  preserves files_kept (scaler_transform lib l X).
Proof. eapply preserves_weaken; [exact calm_files_kept | apply calm_scaler_transform]. Qed.

Lemma kept_scaler_fit_transform (l : loc) (X : Matrix) :
  preserves files_kept (scaler_fit_transform lib l X).
Proof.
  unfold scaler_fit_transform.
  apply preserves_bind; [apply kept_scaler_fit | intros _; apply kept_scaler_transform].
Qed.

Lemma kept_scale_features (Xtr Xte : Matrix) :
  preserves files_kept (scale_features lib Xtr Xte).
Proof.
  unfold scale_features.
  apply preserves_bind; [apply kept_alloc | intros scaler].
  apply preserves_bind; [apply kept_scaler_fit_transform | intros A].
  apply preserves_bind; [apply kept_scaler_transform | intros B].
  apply preserves_ret.
Qed.

Lemma kept_fit_of (r : option loc) (X : Matrix) (y : Labels) :
  preserves files_kept (fit_of lib r X y).
Proof.
  destruct r as [l|]; cbn [fit_of]; [| apply preserves_raise].
  eapply preserves_weaken; [exact calm_files_kept | apply calm_model_fit].
Qed.

Lemma dump_artifact (r : option loc) (path : string) :
  In path artifact_paths -> preserves only_artifacts (joblib_dump r path).
Proof.
  intros Hin. destruct r as [l|]; cbn [joblib_dump].
  - apply preserves_bind.
    { eapply preserves_weaken; [exact files_kept_only | apply kept_deref]. }
    intros o. apply preserves_bind; [| intros _; now apply written_artifact].
    eapply preserves_weaken; [exact files_kept_only | apply kept_emit].
  - apply preserves_bind; [| intros _; now apply written_artifact].
    eapply preserves_weaken; [exact files_kept_only | apply kept_emit].
Qed.

Lemma refit_only_artifacts (scaler : loc) (best : Best) (X : Matrix) (y : Labels) :
  preserves only_artifacts (refit_and_save lib scaler best X y).
Proof.
  unfold refit_and_save. apply preserves_bind.
  - destruct (name_in_scaled (best_model_name best)).
    + apply preserves_bind.
      { eapply preserves_weaken; [exact files_kept_only | apply kept_scaler_fit_transform]. }
      intros Xs. apply preserves_bind.
      { eapply preserves_weaken; [exact files_kept_only | apply kept_fit_of]. }
      intros _. apply dump_artifact. cbn. tauto.
    + eapply preserves_weaken; [exact files_kept_only | apply kept_fit_of].
  - intros _. apply dump_artifact. cbn. tauto.
Qed.

Lemma train_only_artifacts : preserves only_artifacts (train_email_classifier lib).
Proof.
  unfold train_email_classifier.
  apply preserves_bind.
  { eapply preserves_weaken; [exact files_kept_only | apply kept_load]. }
  intros [[fc X] y]. apply preserves_bind; [apply preserves_lift |].
  intros [[[Xtr Xte] ytr] yte]. apply preserves_bind.
  { eapply preserves_weaken; [exact files_kept_only | apply kept_scale_features]. }
  intros [[scaler Xtr_s] Xte_s]. apply preserves_bind.
  { eapply preserves_weaken; [exact files_kept_only | apply kept_make_models]. }
  intros models. apply preserves_bind.
  { eapply preserves_weaken; [intros s s' H; apply files_kept_only, calm_files_kept, H |].
    apply preserves_for_each. intros st a. apply calm_evaluate. }
  intros best. apply preserves_bind; [apply refit_only_artifacts | intros _].
  apply preserves_bind.
  { unfold json_dump. apply written_artifact. cbn. tauto. }
  intros _.
  eapply preserves_weaken; [intros s s' H; apply files_kept_only, calm_files_kept, H |].
  apply preserves_for_each. intros st a. apply calm_smoke_test.
Qed.

(** X11: whatever the outcome, a run changes no file other than
    [ml/scaler.pkl], [ml/email_classifier.pkl] and
    [ml/model_metadata.json]; the training table in particular is only
    read. *)
Theorem other_files_untouched (s : state) (path : string) :
  ~ In path artifact_paths ->
  fs (snd (train_email_classifier lib s)) !! path = fs s !! path.
Proof.
  intros Hp. destruct (train_email_classifier lib s) as [r s'] eqn:E.
  exact (train_only_artifacts s r s' E path Hp).
Qed.

(** X12: the script always trains on the table of the thirty built-in
    emails: it overwrites [ml/training_data.csv] with that table before
    training, and the file still holds it afterwards, whatever it held
    before and however training ends. *)
Theorem main_rebuilds_table (s : state) :
  main lib s =
    train_email_classifier lib (snd (to_csv training_table "ml/training_data.csv" s)) /\
  fs (snd (main lib s)) !! "ml/training_data.csv"%string = Some (FCsv training_table) /\
  length (rows training_table) = length training_data /\
  columns training_table = feature_names ++ ["label"%string].
Proof.
  assert (Hmain : main lib s =
            train_email_classifier lib (snd (to_csv training_table "ml/training_data.csv" s))).
  { unfold main. rewrite prepare_dataset_table. reflexivity. }
  split; [exact Hmain |]. split; [| split; reflexivity].
  rewrite Hmain.
  destruct (train_email_classifier lib _) as [r s'] eqn:E. cbn [snd].
  rewrite (train_only_artifacts _ r s' E "ml/training_data.csv"%string).
  - cbn [to_csv write_file snd fs]. apply lookup_insert_eq.
  - cbn. intuition discriminate.
Qed.

End Operations.

Lemma other_files_untouched_witness :
  fs (snd (train_email_classifier (Scripted.scripted Scripted.linear_wins) start_state))
    !! "ml/training_data.csv"%string =
  fs start_state !! "ml/training_data.csv"%string.
Proof.
  apply (other_files_untouched (Scripted.scripted Scripted.linear_wins) start_state
           "ml/training_data.csv").
  vm_compute. intuition discriminate.
Defined.

End FilesFacts.

(* ===================================================================== *)
(** * The sample predictions only read *)
(* ===================================================================== *)

Module ReadOnlyFacts.
Import Text Py Features Trainer Runs Notions RunFacts FrameFacts.

#[global] Instance read_only_preorder : PreOrder read_only.
Proof.
  split; [intros s; now split |].
  intros s1 s2 s3 (Hh & Hf & Hn) (Hh' & Hf' & Hn'). unfold read_only. split; [| split]; congruence.
Qed.

Lemma read_only_emit (e : event) : preserves read_only (emit e).
Proof. intros s r s' H. injection H as <- <-. now split. Qed.

Section Reads.

Variable lib : Sklearn.

Lemma read_only_scaler_transform (l : loc) (X : Matrix) :
  preserves read_only (scaler_transform lib l X).
Proof.
  unfold scaler_transform. apply preserves_bind; [apply preserves_get_scaler |].
  intros st. apply preserves_bind; [apply read_only_emit |].
  intros _. destruct st; [apply preserves_lift | apply preserves_raise].
Qed.

Lemma read_only_model_predict (l : loc) (X : Matrix) :
  preserves read_only (model_predict lib l X).
Proof.
  unfold model_predict. apply preserves_bind; [apply preserves_get_model |].
  intros [est st]. apply preserves_bind; [apply read_only_emit |].
  intros _. destruct st as [[X0 y0]|]; [apply preserves_lift | apply preserves_raise].
Qed.

Lemma read_only_model_predict_proba (l : loc) (X : Matrix) :
  preserves read_only (model_predict_proba lib l X).
Proof.
  unfold model_predict_proba. apply preserves_bind; [apply preserves_get_model |].
  intros [est st]. destruct st as [[X0 y0]|]; [apply preserves_lift | apply preserves_raise].
Qed.

Lemma read_only_smoke_test (fc : list string) (md : Metadata) (scaler : loc)
    (best : option loc) (email : Email) :
  preserves read_only (smoke_test lib fc md scaler best email).
Proof.
  unfold smoke_test.
  apply preserves_bind; [apply preserves_lift | intros features_df].
  apply preserves_bind.
  { destruct (needs_scaling md); [apply read_only_scaler_transform | apply preserves_ret]. }
  intros features_array.
  apply preserves_bind.
  { destruct best; [apply read_only_model_predict | apply preserves_raise]. }
  intros predictions.
  apply preserves_bind; [apply preserves_item | intros _].
  apply preserves_bind.
  { destruct best; [apply read_only_model_predict_proba | apply preserves_raise]. }
  intros probabilities.
  apply preserves_bind; [apply preserves_item | intros probability].
  apply preserves_bind; [apply preserves_item | intros _].
  apply preserves_bind; [apply preserves_item | intros _].
  apply preserves_ret.
Qed.

Lemma read_only_samples (fc : list string) (md : Metadata) (scaler : loc)
    (best : option loc) (emails : list Email) :
  preserves read_only
    (for_each (fun _ email => smoke_test lib fc md scaler best email) emails tt).
Proof. apply preserves_for_each. intros st email. apply read_only_smoke_test. Qed.

(** X17: the sample predictions only read: whatever the arguments and
    the outcome, they fit nothing, create no object, change no object and
    write no file; the fitted scaler and model are the same before and
    after. *)
Theorem sample_predictions_read_only (fc : list string) (md : Metadata) (scaler : loc)
    (best : option loc) (emails : list Email) (s : state) :
  read_only s
    (snd (for_each (fun _ email => smoke_test lib fc md scaler best email) emails tt s)).
Proof.
  destruct (for_each _ emails tt s) as [r s'] eqn:E.
  exact (read_only_samples fc md scaler best emails s r s' E).
Qed.

End Reads.

End ReadOnlyFacts.

(* ===================================================================== *)
(** * What a returning run has persisted *)
(* ===================================================================== *)

Module ArtifactFacts.
Import Text Py Features Trainer Runs Notions
       RunFacts FrameFacts PhaseFacts LoopFacts SummaryFacts TrainerFacts SelectFacts
       ReadOnlyFacts.

Lemma placed_entry (s : state) (specs : dict Estimator) (models : dict loc)
    (name : string) (l : loc) :
  Forall2 (placed s) specs models -> In (name, l) models ->
  exists est stm, In (name, est) specs /\ heap s !! l = Some (OModel est stm).
Proof.
  intros HF Hin. induction HF as [|spec entry specs models Hp _ IH]; [destruct Hin |].
  destruct Hin as [-> | Hin].
  - destruct Hp as [Hname [stm Hh]]. destruct spec as [n est]. cbn [fst snd] in *.
    subst n. exists est, stm. split; [now left | exact Hh].
  - destruct (IH Hin) as (est & stm & Hs & Hh). exists est, stm. split; [now right | exact Hh].
Qed.

Section Artifacts.

Variable lib : Sklearn.

(** The selected entry of [models] and its estimator, when the loop is
    over. *)
Lemma loop_keeps_candidate (v : Views) (models : dict loc) (best : Best)
    (s1 s2 s3 : state) (lm : loc) :
  make_models candidates s1 = (Ok models, s2) ->
  for_each (evaluate lib v) models no_best s2 = (Ok best, s3) ->
  best_model best = Some lm ->
  exists name est stm,
    best_model_name best = Some name /\
    In (name, est) candidates /\
    heap s3 !! lm = Some (OModel est stm).
Proof.
  intros Hmodels Hloop Hlm.
  assert (Hch := for_each_chosen lib _ models models _ _ _ _
                   (fun e H => H) (chosen_from_no_best models) Hloop).
  destruct Hch as [[Hnone _] | (name & l & Hin & Hm & Hname)]; [congruence |].
  rewrite Hlm in Hm. injection Hm as <-.
  destruct (placed_entry _ _ _ _ _ (make_models_placed _ _ _ _ Hmodels) Hin)
    as (est & stm & Hspec & Hh).
  pose proof (preserves_for_each (R := calm) (evaluate lib v) models no_best
                (fun st a => calm_evaluate lib v st a) _ _ _ Hloop)
    as (_ & _ & _ & Hmod & _).
  destruct (Hmod _ _ _ Hh) as [stm' Hh'].
  exists name, est, stm'. auto.
Qed.

(** A run that returns, with the state in which the sample predictions
    start. *)
Lemma train_phases (s s' : state) :
  train_email_classifier lib s = (Ok tt, s') ->
  exists fc X y Xtr Xte ytr yte scaler Xtr_s Xte_s models best s1 s2 s3 s4,
    load_training_data s = (Ok (fc, X, y), s) /\
    train_test_split lib X y = Ok (Xtr, Xte, ytr, yte) /\
    scale_features lib Xtr Xte s = (Ok (scaler, Xtr_s, Xte_s), s1) /\
    make_models candidates s1 = (Ok models, s2) /\
    for_each (evaluate lib {| X_train := Xtr; X_test := Xte;
                              y_train := ytr; y_test := yte;
                              X_train_scaled := Xtr_s;
                              X_test_scaled := Xte_s |})
      models no_best s2 = (Ok best, s3) /\
    refit_and_save lib scaler best X y s3 = (Ok tt, s4) /\
    for_each (fun _ email =>
                smoke_test lib fc (make_metadata best fc) scaler (best_model best) email)
      test_emails tt
      {| heap := heap s4; next_loc := next_loc s4;
         fs := <["ml/model_metadata.json"%string := FJson (make_metadata best fc)]> (fs s4);
         log := log s4 |} = (Ok tt, s').
Proof.
  unfold train_email_classifier. intros H.
  step H p s0 Hload. destruct p as [[fc X] y].
  pose proof (load_training_data_ok _ _ _ _ _ Hload) as [-> _].
  step H p s0 Hsplit. destruct p as [[[Xtr Xte] ytr] yte].
  apply lift_ok in Hsplit as [Hsplit ->].
  step H p s1 Hscale. destruct p as [[scaler Xtr_s] Xte_s].
  step H models s2 Hmodels.
  step H best s3 Hloop.
  step H u s4 Hrefit. destruct u.
  step H u s5 Hjson. injection Hjson as _ <-.
  exists fc, X, y, Xtr, Xte, ytr, yte, scaler, Xtr_s, Xte_s, models, best, s1, s2, s3, s4.
  auto 10.
Qed.

(** X13: the pickled classifier is the selected candidate, with the
    constructor arguments it was declared with, fitted a last time on all
    rows of the table: on the raw matrix for the tree models, on the
    matrix scaled by a scaler fitted on all rows for the two scaled
    models.  The held-out rows are part of that final fit, and the object
    is in that same state when the run ends. *)
Theorem classifier_refit_on_all_rows (s s' : state) :
  train_email_classifier lib s = (Ok tt, s') ->
  exists fc X y md name est lm X_fit,
    load_training_data s = (Ok (fc, X, y), s) /\
    fs s' !! "ml/model_metadata.json"%string = Some (FJson md) /\
    model_type md = Some name /\
    In (name, est) candidates /\
    (if needs_scaling md then scaler_apply lib X X = Ok X_fit else X_fit = X) /\
    estimator_check lib est X_fit y = Ok tt /\
    fs s' !! "ml/email_classifier.pkl"%string =
      Some (FPickle (PObj lm (OModel est (Some (X_fit, y))))) /\
    heap s' !! lm = Some (OModel est (Some (X_fit, y))).
Proof.
  intros H. destruct (train_phases s s' H)
    as (fc & X & y & Xtr & Xte & ytr & yte & scaler & Xtr_s & Xte_s & models & best &
        s1 & s2 & s3 & s4 & Hload & Hsplit & Hscale & Hmodels & Hloop & Hrefit & Hsmoke).
  destruct (scaler_after_loop lib _ _ _ _ _ _ _ _ _ _ _ _ Hscale Hmodels Hloop)
    as (-> & Hsc & _).
  destruct (refit_names_model lib _ _ _ _ _ _ _ Hsc Hrefit) as [lm Hlm].
  destruct (loop_keeps_candidate _ _ _ _ _ _ _ Hmodels Hloop Hlm)
    as (name & est & stm & Hname & Hspec & Hh).
  destruct (read_only_samples lib _ _ _ _ _ _ _ _ Hsmoke) as (Hheap & Hfs & _).
  cbn [heap fs] in Hheap, Hfs.
  assert (Hmd : fs s' !! "ml/model_metadata.json"%string =
                Some (FJson (make_metadata best fc)))
    by (rewrite Hfs; apply lookup_insert_eq).
  destruct (name_in_scaled (best_model_name best)) eqn:Hn.
  - destruct (refit_and_save_scaled lib _ _ _ _ _ _ _ Hn Hsc Hrefit)
      as (lm' & est' & stm' & Xs & Hb & Hh' & _ & Happ & Hchk & ->).
    rewrite Hlm in Hb. injection Hb as <-. rewrite Hh in Hh'. injection Hh' as <- <-.
    exists fc, X, y, (make_metadata best fc), name, est, lm, Xs.
    cbn [make_metadata model_type needs_scaling]. rewrite Hn.
    split; [exact Hload |]. split; [exact Hmd |]. split; [exact Hname |].
    split; [exact Hspec |]. split; [exact Happ |]. split; [exact Hchk |]. split.
    + rewrite Hfs. cbn [fs]. rewrite lookup_insert_ne by discriminate.
      apply lookup_insert_eq.
    + rewrite Hheap. cbn [heap]. apply lookup_insert_eq.
  - destruct (refit_and_save_unscaled lib _ _ _ _ _ _ Hn Hrefit)
      as (lm' & est' & stm' & Hb & Hh' & Hchk & ->).
    rewrite Hlm in Hb. injection Hb as <-. rewrite Hh in Hh'. injection Hh' as <- <-.
    exists fc, X, y, (make_metadata best fc), name, est, lm, X.
    cbn [make_metadata model_type needs_scaling]. rewrite Hn.
    split; [exact Hload |]. split; [exact Hmd |]. split; [exact Hname |].
    split; [exact Hspec |]. split; [reflexivity |]. split; [exact Hchk |]. split.
    + rewrite Hfs. cbn [fs]. rewrite lookup_insert_ne by discriminate.
      apply lookup_insert_eq.
    + rewrite Hheap. cbn [heap]. apply lookup_insert_eq.
Qed.

(** X14: when a tree model is selected, [ml/scaler.pkl] is not written:
    the file is as it was before the run, so a scaler left by an earlier
    run stays on disk; the scaler object ends the run still fitted on the
    train partition only, and was fitted once. *)
Theorem unscaled_leaves_scaler_file (s s' : state) (md : Metadata) :
  train_email_classifier lib s = (Ok tt, s') ->
  fs s' !! "ml/model_metadata.json"%string = Some (FJson md) ->
  needs_scaling md = false ->
  fs s' !! "ml/scaler.pkl"%string = fs s !! "ml/scaler.pkl"%string /\
  exists fc X y Xtr Xte ytr yte,
    load_training_data s = (Ok (fc, X, y), s) /\
    train_test_split lib X y = Ok (Xtr, Xte, ytr, yte) /\
    heap s' !! next_loc s = Some (OScaler (Some Xtr)) /\
    List.filter is_scaler_fit (drop (length (log s)) (log s')) =
      [EScalerFit (next_loc s) Xtr].
Proof.
  intros H Hmd Hns. apply train_completed in H as [].
  destruct (scaler_after_loop lib _ _ _ _ _ _ _ _ _ _ _ _ Hscale Hmodels Hloop)
    as (-> & Hsc & Hfs3 & _ & loop_evs & Hlog3 & Hloop_evs).
  destruct Hsmoke as (Hfs & _ & Hkeep & _ & tail & Hlog & Htail).
  cbn [fs heap log] in Hfs, Hkeep, Hlog.
  rewrite Hfs, lookup_insert_eq in Hmd. injection Hmd as <-.
  cbn [make_metadata needs_scaling] in Hns.
  destruct (refit_and_save_unscaled lib _ _ _ _ _ _ Hns Hrefit)
    as (lm & est & stm & Hb & Hh & _ & ->).
  cbn [fs heap log] in Hfs, Hkeep, Hlog.
  split.
  { rewrite Hfs, !lookup_insert_ne by discriminate. now rewrite Hfs3. }
  exists fc, X, y, Xtr, Xte, ytr, yte.
  split; [exact Hload |]. split; [exact Hsplit |]. split.
  - apply Hkeep. rewrite lookup_insert_ne; [exact Hsc |].
    intros E. rewrite E, Hsc in Hh. discriminate.
  - rewrite Hlog, Hlog3, <- !List.app_assoc, drop_app_length.
    cbn [app List.filter is_scaler_fit]. f_equal.
    rewrite !List.filter_app. cbn [List.filter is_scaler_fit app].
    assert (Hnone : forall evs, Forall (fun e => is_scaler_fit e = false) evs ->
                                List.filter is_scaler_fit evs = []).
    { induction 1 as [|e evs He _ IH]; [reflexivity |]. cbn [List.filter].
      now rewrite He. }
    now rewrite (Hnone _ Hloop_evs), (Hnone _ Htail).
Qed.

End Artifacts.

Lemma unscaled_leaves_scaler_file_witness :
  fs (snd (train_email_classifier (Scripted.scripted Scripted.all_tied) start_state))
    !! "ml/scaler.pkl"%string = fs start_state !! "ml/scaler.pkl"%string /\
  exists fc X y Xtr Xte ytr yte,
    load_training_data start_state = (Ok (fc, X, y), start_state) /\
    train_test_split (Scripted.scripted Scripted.all_tied) X y = Ok (Xtr, Xte, ytr, yte) /\
    heap (snd (train_email_classifier (Scripted.scripted Scripted.all_tied) start_state))
      !! next_loc start_state = Some (OScaler (Some Xtr)) /\
    List.filter is_scaler_fit
      (drop (length (log start_state))
         (log (snd (train_email_classifier (Scripted.scripted Scripted.all_tied)
                      start_state)))) =
      [EScalerFit (next_loc start_state) Xtr].
Proof.
  apply (unscaled_leaves_scaler_file (Scripted.scripted Scripted.all_tied) start_state
           (snd (train_email_classifier (Scripted.scripted Scripted.all_tied) start_state))
           {| model_type := Some "RandomForest"%string;
              accuracy := Fin (3 # 6);
              feature_columns := feature_names;
              classes := ["CARGO"; "VESSEL"]%string;
              needs_scaling := false |}).
  - vm_compute. reflexivity.
  - vm_compute. reflexivity.
  - reflexivity.
Defined.

Lemma classifier_refit_on_all_rows_witness :
  exists fc X y md name est lm X_fit,
    load_training_data start_state = (Ok (fc, X, y), start_state) /\
    fs (snd (train_email_classifier (Scripted.scripted Scripted.linear_wins) start_state))
      !! "ml/model_metadata.json"%string = Some (FJson md) /\
    model_type md = Some name /\
    In (name, est) candidates /\
    (if needs_scaling md
     then scaler_apply (Scripted.scripted Scripted.linear_wins) X X = Ok X_fit
     else X_fit = X) /\
    estimator_check (Scripted.scripted Scripted.linear_wins) est X_fit y = Ok tt /\
    fs (snd (train_email_classifier (Scripted.scripted Scripted.linear_wins) start_state))
      !! "ml/email_classifier.pkl"%string =
      Some (FPickle (PObj lm (OModel est (Some (X_fit, y))))) /\
    heap (snd (train_email_classifier (Scripted.scripted Scripted.linear_wins) start_state))
      !! lm = Some (OModel est (Some (X_fit, y))).
Proof.
  apply (classifier_refit_on_all_rows (Scripted.scripted Scripted.linear_wins) start_state).
  vm_compute. reflexivity.
Defined.

Lemma selects_first_highest_witness :
  exists v (scored pre : list (string * loc * Q)) name l a post md,
    comparison_views (Scripted.scripted Scripted.linear_wins) start_state = Ok v /\
    Forall2 (fun spec x => fst (fst x) = fst spec /\
                           candidate_accuracy (Scripted.scripted Scripted.linear_wins) v spec
                           = Ok (Fin (snd x)))
      candidates scored /\
    scored = pre ++ (name, l, a) :: post /\
    Forall (fun x => (snd x < a)%Q) pre /\
    Forall (fun x => (snd x <= a)%Q) post /\
    (0 < a)%Q /\
    fs (snd (train_email_classifier (Scripted.scripted Scripted.linear_wins) start_state))
      !! "ml/model_metadata.json"%string = Some (FJson md) /\
    model_type md = Some name /\
    accuracy md = Fin a.
Proof.
  apply (selects_first_highest (Scripted.scripted Scripted.linear_wins) start_state).
  vm_compute. reflexivity.
Defined.

End ArtifactFacts.

(* ===================================================================== *)
(** * The sample predictions and the trained columns *)
(* ===================================================================== *)

Module SampleFacts.
Import Text Py Features Trainer Runs Notions
       FeaturesFacts DatasetFacts RunFacts FrameFacts PhaseFacts LoopFacts LoadFacts
       ReadOnlyFacts ArtifactFacts.

(** [pd.DataFrame([features])]: one row, the nine feature columns. *)
Lemma frame_of_one (email : Email) :
  frame_of_records [extract_features email] =
  {| columns := feature_names;
     rows := [cells_by_name feature_names (extract_features email)] |}.
Proof.
  unfold frame_of_records, record_columns. cbn [fold_left map].
  rewrite add_keys_first. reflexivity.
Qed.



Section Samples.

Variable lib : Sklearn.



(** X16: a sample prediction on feature columns of which one is not a key
    of [extract_features] raises [KeyError] for the first such column, and
    calls neither the scaler nor the model. *)
Theorem sample_unknown_column (fc : list string) (md : Metadata) (scaler : loc)
    (best : option loc) (email : Email) (s : state) :
  (exists c, In c fc /\ ~ In c feature_names) ->
  exists c, In c fc /\ ~ In c feature_names /\
            smoke_test lib fc md scaler best email s = (Err (KeyError c), s).
Proof.
  intros Hun. destruct (column_indices_unknown fc feature_names Hun) as (c & Hin & Hout & E).
  exists c. split; [exact Hin |]. split; [exact Hout |].
  unfold smoke_test. apply bind_err. rewrite frame_of_one.
  unfold lift, select_values. cbn [columns]. now rewrite E.
Qed.

End Samples.


Lemma sample_unknown_column_witness :
  exists c, In c ["cargo_keyword_count"; "message_id"; "has_tonnage"]%string /\
            ~ In c feature_names /\
            smoke_test (Scripted.scripted Scripted.all_tied)
              ["cargo_keyword_count"; "message_id"; "has_tonnage"]%string
              (make_metadata no_best ["cargo_keyword_count"; "message_id"; "has_tonnage"]%string)
              O None (email_of "MV Star Eagle open position" "" "ops@bulkship.sg" "VESSEL")
              init_state =
            (Err (KeyError c), init_state).
Proof.
  apply (sample_unknown_column (Scripted.scripted Scripted.all_tied)).
  exists "message_id"%string. split; [vm_compute; tauto | vm_compute; intuition discriminate].
Defined.

End SampleFacts.

(* ===================================================================== *)
(** * All artifacts or none *)
(* ===================================================================== *)

Module BundleFacts.
Import Text Py Features Trainer Runs Notions
       RunFacts FrameFacts PhaseFacts LoopFacts SummaryFacts TrainerFacts
       FilesFacts ReadOnlyFacts ArtifactFacts.

Lemma bind_cases {A B : Type} (m : M A) (k : A -> M B) (s s' : state) (r : result B) :
  (m ≫= k) s = (r, s') ->
  (exists e, m s = (Err e, s') /\ r = Err e) \/
  (exists a s1, m s = (Ok a, s1) /\ k a s1 = (r, s')).
Proof.
  rewrite bind_run. destruct (m s) as [[a|e] s1].
  - intros H. right. now exists a, s1.
  - intros H. injection H as <- <-. left. now exists e.
Qed.

Lemma bind_err_cases {A B : Type} (m : M A) (k : A -> M B) (s s' : state) (e : exn) :
  (m ≫= k) s = (Err e, s') ->
  m s = (Err e, s') \/ exists a s1, m s = (Ok a, s1) /\ k a s1 = (Err e, s').
Proof.
  intros H. apply bind_cases in H as [(e' & H & E) | H]; [| now right].
  injection E as ->. now left.
Qed.

Ltac err_cases H a s1 Ha :=
  apply bind_err_cases in H as [H | (a & s1 & Ha & H)].

Section Bundle.

Variable lib : Sklearn.

(** Once its argument is on the heap, [joblib.dump] goes through. *)
Lemma joblib_dump_run (l : loc) (o : obj) (path : string) (s : state) :
  heap s !! l = Some o ->
  joblib_dump (Some l) path s =
  (Ok tt, {| heap := heap s; next_loc := next_loc s;
             fs := <[path := FPickle (PObj l o)]> (fs s);
             log := log s ++ [EDump (PObj l o) path] |}).
Proof.
  intros H. cbn [joblib_dump]. rewrite bind_run. unfold deref. rewrite H. reflexivity.
Qed.

(** It fails only on a dangling reference, and then writes nothing. *)
Lemma joblib_dump_error (r : option loc) (path : string) (s s' : state) (e : exn) :
  joblib_dump r path s = (Err e, s') -> s' = s.
Proof.
  destruct r as [l|]; cbn [joblib_dump]; rewrite bind_run.
  - unfold deref. destruct (heap s !! l) as [o|]; [discriminate |].
    intros H. now injection H as _ <-.
  - discriminate.
Qed.

Lemma dump_after_fit (r : option loc) (X : Matrix) (y : Labels) (path : string)
    (s s1 s2 s' : state) (e : exn) :
  fit_of lib r X y s = (Ok tt, s1) ->
  heap s2 = heap s1 ->
  joblib_dump r path s2 = (Err e, s') -> False.
Proof.
  intros Hfit Hheap H. apply fit_of_ok in Hfit as (l & est & st & -> & _ & _ & ->).
  rewrite (joblib_dump_run l (OModel est (Some (X, y)))) in H; [discriminate |].
  rewrite Hheap. cbn [heap]. apply lookup_insert_eq.
Qed.

(** A failing final fit has written nothing. *)
Lemma refit_error_keeps_files (scaler : loc) (best : Best) (X : Matrix) (y : Labels)
    (s s' : state) (e : exn) :
  refit_and_save lib scaler best X y s = (Err e, s') -> fs s' = fs s.
Proof.
  unfold refit_and_save. intros H. err_cases H u s1 H1.
  - destruct (name_in_scaled (best_model_name best)).
    + err_cases H Xs s2 H2; [exact (kept_scaler_fit_transform lib _ _ _ _ _ H) |].
      pose proof (kept_scaler_fit_transform lib _ _ _ _ _ H2) as K2.
      err_cases H u s3 H3.
      * pose proof (kept_fit_of lib _ _ _ _ _ _ H) as K3.
        unfold files_kept in *. congruence.
      * pose proof (kept_fit_of lib _ _ _ _ _ _ H3) as K3.
        apply joblib_dump_error in H as ->. unfold files_kept in *. congruence.
    + exact (kept_fit_of lib _ _ _ _ _ _ H).
  - exfalso. destruct (name_in_scaled (best_model_name best)).
    + step H1 Xs s2 H2. step H1 u' s3 H3. destruct u', u.
      apply joblib_dump_ok in H1 as (o & _ & ->).
      eapply (dump_after_fit _ _ _ _ _ _ _ _ _ H3); [| exact H]. reflexivity.
    + destruct u. eapply (dump_after_fit _ _ _ _ _ _ _ _ _ H1); [| exact H]. reflexivity.
Qed.

(** X18: persistence is all or nothing.  Either the run fails and no file
    has changed, or the whole bundle is on disk and describes one final
    fit on all loaded rows: the metadata names a declared candidate and
    the loaded feature columns; the classifier file holds that candidate
    fitted on all of [X] and [y] ([X] transformed by the scaler fitted on
    all of [X] when [needs_scaling] is set), which is also the object's
    state when the run ends; and, exactly when [needs_scaling] is set,
    the scaler file holds the scaler fitted on all of [X].  A run that
    returns is of the second kind; so is one that fails in the sample
    predictions. *)
Theorem artifacts_all_or_nothing (s : state) :
  (exists e, fst (train_email_classifier lib s) = Err e /\
             fs (snd (train_email_classifier lib s)) = fs s) \/
  (exists fc X y md name est lm X_fit,
     load_training_data s = (Ok (fc, X, y), s) /\
     model_type md = Some name /\
     In (name, est) candidates /\
     feature_columns md = fc /\
     needs_scaling md = name_in_scaled (Some name) /\
     (if needs_scaling md
      then scaler_check lib X = Ok tt /\ scaler_apply lib X X = Ok X_fit
      else X_fit = X) /\
     estimator_check lib est X_fit y = Ok tt /\
     fs (snd (train_email_classifier lib s)) =
       <["ml/model_metadata.json"%string := FJson md]>
         (<["ml/email_classifier.pkl"%string :=
              FPickle (PObj lm (OModel est (Some (X_fit, y))))]>
            (if needs_scaling md
             then <["ml/scaler.pkl"%string :=
                      FPickle (PObj (next_loc s) (OScaler (Some X)))]> (fs s)
             else fs s)) /\
     heap (snd (train_email_classifier lib s)) !! lm =
       Some (OModel est (Some (X_fit, y))) /\
     (needs_scaling md = true ->
      heap (snd (train_email_classifier lib s)) !! next_loc s = Some (OScaler (Some X)))).
Proof.
  destruct (train_email_classifier lib s) as [r s'] eqn:H. cbn [fst snd].
  unfold train_email_classifier in H.
  apply bind_cases in H as [(e & H & ->) | (p & s0 & Hload & H)].
  { left. exists e. split; [reflexivity | exact (kept_load _ _ _ H)]. }
  destruct p as [[fc X] y].
  pose proof (load_training_data_ok _ _ _ _ _ Hload) as [-> _].
  apply bind_cases in H as [(e & H & ->) | (p & s0 & Hsplit & H)].
  { left. exists e. split; [reflexivity |]. now injection H as _ <-. }
  destruct p as [[[Xtr Xte] ytr] yte]. apply lift_ok in Hsplit as [Hsplit ->].
  apply bind_cases in H as [(e & H & ->) | (p & s1 & Hscale & H)].
  { left. exists e. split; [reflexivity | exact (kept_scale_features lib _ _ _ _ _ H)]. }
  destruct p as [[scaler Xtr_s] Xte_s].
  pose proof (kept_scale_features lib _ _ _ _ _ Hscale) as K1.
  apply bind_cases in H as [(e & H & ->) | (models & s2 & Hmodels & H)].
  { left. exists e. split; [reflexivity |].
    pose proof (kept_make_models _ _ _ _ H) as K. unfold files_kept in *. congruence. }
  pose proof (kept_make_models _ _ _ _ Hmodels) as K2.
  apply bind_cases in H as [(e & H & ->) | (best & s3 & Hloop & H)].
  { left. exists e. split; [reflexivity |].
    pose proof (preserves_for_each (R := calm) _ _ _
                  (fun st a => calm_evaluate lib _ st a) _ _ _ H) as (K & _).
    unfold files_kept in *. congruence. }
  assert (K3 : fs s3 = fs s).
  { pose proof (preserves_for_each (R := calm) _ _ _
                  (fun st a => calm_evaluate lib _ st a) _ _ _ Hloop) as (K & _).
    unfold files_kept in *. congruence. }
  apply bind_cases in H as [(e & H & ->) | (u & s4 & Hrefit & H)].
  { left. exists e. split; [reflexivity |].
    apply refit_error_keeps_files in H. congruence. }
  destruct u.
  apply bind_cases in H as [(e & H & _) | (u & s5 & Hjson & H)]; [discriminate H |].
  injection Hjson as _ <-.
  destruct (read_only_samples lib _ _ _ _ _ _ _ _ H) as (Hheap & Hfs & _).
  cbn [heap fs] in Hheap, Hfs.
  destruct (scaler_after_loop lib _ _ _ _ _ _ _ _ _ _ _ _ Hscale Hmodels Hloop)
    as (-> & Hsc & _).
  destruct (refit_names_model lib _ _ _ _ _ _ _ Hsc Hrefit) as [lm Hlm].
  destruct (loop_keeps_candidate lib _ _ _ _ _ _ _ Hmodels Hloop Hlm)
    as (name & est & stm & Hname & Hspec & Hh).
  right. destruct (name_in_scaled (best_model_name best)) eqn:Hn.
  - destruct (refit_and_save_scaled lib _ _ _ _ _ _ _ Hn Hsc Hrefit)
      as (lm' & est' & stm' & Xs & Hb & Hh' & Hchk & Happ & Hfit & ->).
    rewrite Hlm in Hb. injection Hb as <-. rewrite Hh in Hh'. injection Hh' as <- <-.
    exists fc, X, y, (make_metadata best fc), name, est, lm, Xs.
    cbn [make_metadata model_type feature_columns needs_scaling]. rewrite Hn.
    split; [exact Hload |]. split; [exact Hname |]. split; [exact Hspec |].
    split; [reflexivity |]. split; [now rewrite <- Hname |].
    split; [now split |]. split; [exact Hfit |]. split; [| split].
    + rewrite Hfs. cbn [fs]. now rewrite K3.
    + rewrite Hheap. cbn [heap]. apply lookup_insert_eq.
    + intros _. rewrite Hheap. cbn [heap]. rewrite lookup_insert_ne.
      * apply lookup_insert_eq.
      * intros E. rewrite E, Hsc in Hh. discriminate.
  - destruct (refit_and_save_unscaled lib _ _ _ _ _ _ Hn Hrefit)
      as (lm' & est' & stm' & Hb & Hh' & Hfit & ->).
    rewrite Hlm in Hb. injection Hb as <-. rewrite Hh in Hh'. injection Hh' as <- <-.
    exists fc, X, y, (make_metadata best fc), name, est, lm, X.
    cbn [make_metadata model_type feature_columns needs_scaling]. rewrite Hn.
    split; [exact Hload |]. split; [exact Hname |]. split; [exact Hspec |].
    split; [reflexivity |]. split; [now rewrite <- Hname |].
    split; [reflexivity |]. split; [exact Hfit |]. split; [| split].
    + rewrite Hfs. cbn [fs]. now rewrite K3.
    + rewrite Hheap. cbn [heap]. apply lookup_insert_eq.
    + discriminate.
Qed.

End Bundle.

End BundleFacts.

(* ===================================================================== *)
(** * Cross-validation *)
(* ===================================================================== *)

Module ValidationFacts.
Import Text Py Features Trainer Runs Notions
       RunFacts FrameFacts PhaseFacts LoopFacts FailureFacts FilesFacts.

Section Validation.

Variable lib : Sklearn.

Lemma model_fit_run (l : loc) (est : Estimator) (stm : option (Matrix * Labels))
    (X : Matrix) (y : Labels) (s : state) :
  heap s !! l = Some (OModel est stm) ->
  estimator_check lib est X y = Ok tt ->
  model_fit lib l X y s =
  (Ok tt, {| heap := <[l := OModel est (Some (X, y))]> (heap s); next_loc := next_loc s;
             fs := fs s; log := log s ++ [EModelFit l X y] |}).
Proof.
  intros Hl Hc. unfold model_fit. rewrite !bind_run. unfold get_model. rewrite Hl.
  cbn [emit lift heap next_loc fs log]. rewrite Hc. reflexivity.
Qed.

Lemma model_predict_run (l : loc) (est : Estimator) (X0 : Matrix) (y0 : Labels)
    (X : Matrix) (y_pred : Labels) (s : state) :
  heap s !! l = Some (OModel est (Some (X0, y0))) ->
  estimator_predict lib est X0 y0 X = Ok y_pred ->
  model_predict lib l X s =
  (Ok y_pred, {| heap := heap s; next_loc := next_loc s; fs := fs s;
                 log := log s ++ [EModelPredict l X] |}).
Proof.
  intros Hl Hp. unfold model_predict. rewrite !bind_run. unfold get_model. rewrite Hl.
  cbn [emit lift heap next_loc fs log]. rewrite Hp. reflexivity.
Qed.

Lemma fit_predict_run (l : loc) (est : Estimator) (stm : option (Matrix * Labels))
    (X : Matrix) (y : Labels) (X' : Matrix) (y_pred : Labels) (s : state) :
  heap s !! l = Some (OModel est stm) ->
  estimator_check lib est X y = Ok tt ->
  estimator_predict lib est X y X' = Ok y_pred ->
  (model_fit lib l X y;; y_pred ← model_predict lib l X'; mret (y_pred, X)) s =
  (Ok (y_pred, X),
   {| heap := <[l := OModel est (Some (X, y))]> (heap s); next_loc := next_loc s;
      fs := fs s; log := (log s ++ [EModelFit l X y]) ++ [EModelPredict l X'] |}).
Proof.
  intros Hl Hc Hp.
  rewrite (bind_step _ _ _ _ _ (model_fit_run _ _ _ _ _ _ Hl Hc)).
  erewrite bind_step; [reflexivity |].
  apply model_predict_run with (est := est) (X0 := X) (y0 := y); [| exact Hp].
  cbn [heap]. apply lookup_insert_eq.
Qed.

Lemma evaluate_cv_error (v : Views) (st : Best) (name : string) (l : loc)
    (est : Estimator) (stm : option (Matrix * Labels)) (acc : pyfloat) (e : exn) (s : state) :
  heap s !! l = Some (OModel est stm) ->
  candidate_accuracy lib v (name, est) = Ok acc ->
  cross_val_score lib est (train_view v name) (y_train v) = Err e ->
  exists s', evaluate lib v st (name, l) s = (Err e, s') /\
             heap s' = <[l := OModel est (Some (train_view v name, y_train v))]> (heap s).
Proof.
  intros Hl Hacc Hcv. unfold candidate_accuracy in Hacc.
  destruct (estimator_check lib est (train_view v name) (y_train v)) as [[]|e1] eqn:Hc;
    [| discriminate]. cbn [rbind] in Hacc.
  destruct (estimator_predict lib est (train_view v name) (y_train v) (test_view v name))
    as [y_pred|e1] eqn:Hp; [| discriminate]. cbn [rbind] in Hacc.
  unfold evaluate, train_view, test_view in *.
  destruct (str_elem name scaled_names).
  - eexists. split.
    + rewrite (bind_step _ _ _ _ _ (fit_predict_run _ _ _ _ _ _ _ _ Hl Hc Hp)).
      cbv beta iota. rewrite bind_run. unfold lift at 1. rewrite Hacc.
      apply bind_err. unfold cv_score. rewrite bind_run. unfold get_model. cbn [heap].
      rewrite lookup_insert_eq. unfold lift. rewrite Hcv. reflexivity.
    + reflexivity.
  - eexists. split.
    + rewrite (bind_step _ _ _ _ _ (fit_predict_run _ _ _ _ _ _ _ _ Hl Hc Hp)).
      cbv beta iota. rewrite bind_run. unfold lift at 1. rewrite Hacc.
      apply bind_err. unfold cv_score. rewrite bind_run. unfold get_model. cbn [heap].
      rewrite lookup_insert_eq. unfold lift. rewrite Hcv. reflexivity.
    + reflexivity.
Qed.

(** X19: the cross-validation scores are only printed, yet when
    cross-validating a candidate raises, the run ends at once with that
    exception: the candidate had been fitted and scored on the held-out
    rows, the remaining candidates are not fitted, nothing is selected and
    no file is written. *)
Theorem cross_validation_failure_aborts (s : state) (v : Views) (pre : dict loc)
    (name : string) (l : loc) (st : Best) (s3 : state)
    (est : Estimator) (stm : option (Matrix * Labels)) (acc : pyfloat) (e : exn) :
  compared_up_to lib s v pre (name, l) st s3 ->
  heap s3 !! l = Some (OModel est stm) ->
  candidate_accuracy lib v (name, est) = Ok acc ->
  cross_val_score lib est (train_view v name) (y_train v) = Err e ->
  exists s',
    train_email_classifier lib s = (Err e, s') /\
    fs s' = fs s /\
    heap s' = <[l := OModel est (Some (train_view v name, y_train v))]> (heap s3).
Proof.
  intros [] Hl Hacc Hcv.
  destruct (evaluate_cv_error v st name l est stm acc e s3 Hl Hacc Hcv) as (s' & Hev & Hheap).
  destruct v as [Xtr Xte ytr yte Xtr_s Xte_s].
  cbn [X_train X_test y_train y_test X_train_scaled X_test_scaled] in *.
  exists s'. split; [| split; [| exact Hheap]].
  - unfold train_email_classifier.
    rewrite (bind_step _ _ _ _ _ Hload). cbv beta iota.
    rewrite bind_run. unfold lift at 1. rewrite Hsplit. cbv beta iota.
    rewrite (bind_step _ _ _ _ _ Hscale). cbv beta iota.
    rewrite (bind_step _ _ _ _ _ Hmodels). cbv beta iota zeta.
    apply bind_err. rewrite for_each_app.
    rewrite (bind_step _ _ _ _ _ Hloop). cbn [for_each].
    apply bind_err. exact Hev.
  - pose proof (calm_evaluate lib _ _ _ _ _ _ Hev) as (K4 & _).
    pose proof (preserves_for_each (R := calm) _ pre no_best
                  (fun st0 a => calm_evaluate lib _ st0 a) _ _ _ Hloop) as (K3 & _).
    pose proof (kept_make_models _ _ _ _ Hmodels) as K2.
    pose proof (kept_scale_features lib _ _ _ _ _ Hscale) as K1.
    unfold files_kept in *. congruence.
Qed.

End Validation.

Lemma cross_validation_failure_aborts_witness :
  exists s',
    train_email_classifier
      (without_cross_validation (Scripted.scripted Scripted.all_tied)
         (ValueError "n_splits=5 cannot be greater than the number of members in each class"))
      start_state =
      (Err (ValueError "n_splits=5 cannot be greater than the number of members in each class"),
       s') /\
    fs s' = fs start_state /\
    heap s' =
      <[1%nat := OModel {| cls := "RandomForestClassifier";
                           params := [("n_estimators", VInt 100); ("max_depth", VInt 10);
                                      ("min_samples_split", VInt 2);
                                      ("min_samples_leaf", VInt 1);
                                      ("random_state", VInt 42)]%string |}
                   (Some (train_view
                            (views_of (Scripted.scripted Scripted.all_tied) start_state)
                            "RandomForest",
                          y_train (views_of (Scripted.scripted Scripted.all_tied)
                                     start_state)))]>
        (heap (snd (make_models candidates
                      (snd (scale_features (Scripted.scripted Scripted.all_tied)
                              (X_train (views_of (Scripted.scripted Scripted.all_tied)
                                          start_state))
                              (X_test (views_of (Scripted.scripted Scripted.all_tied)
                                         start_state))
                              start_state))))).
Proof.
  eapply (cross_validation_failure_aborts
            (without_cross_validation (Scripted.scripted Scripted.all_tied)
               (ValueError
                  "n_splits=5 cannot be greater than the number of members in each class"))
            start_state
            (views_of (Scripted.scripted Scripted.all_tied) start_state)
            [] "RandomForest"%string 1%nat no_best _ _ None (Fin (3 # 6))).
  - econstructor; vm_compute; reflexivity.
  - vm_compute. reflexivity.
  - vm_compute. reflexivity.
  - vm_compute. reflexivity.
Defined.

End ValidationFacts.

(* ===================================================================== *)
(** * The rows the comparison fits on *)
(* ===================================================================== *)

Module PartitionFacts.
Import Text Py Features Trainer Runs Notions
       RunFacts FrameFacts PhaseFacts LoopFacts SummaryFacts TrainerFacts ArtifactFacts.

Section Partitions.

Variable lib : Sklearn.

Lemma cv_score_ok (l : loc) (X : Matrix) (y : Labels) (c : list pyfloat) (s s' : state) :
  cv_score lib l X y s = (Ok c, s') -> s' = s.
Proof.
  unfold cv_score. intros H. step H p s1 H1. destruct p as [est st].
  apply get_model_ok in H1 as [_ ->]. now apply lift_ok in H as [_ ->].
Qed.

(** One turn of the loop calls [fit] on the candidate's train view and
    [predict] on its test view, and nothing else on any object. *)
Lemma evaluate_log (v : Views) (st st' : Best) (entry : string * loc) (s s' : state) :
  evaluate lib v st entry s = (Ok st', s') ->
  log s' = log s ++ comparison_events v [entry].
Proof.
  destruct entry as [name l]. unfold evaluate, comparison_events, train_view, test_view.
  cbn [flat_map fst snd app]. intros H.
  step H p s1 H1. destruct p as [y_pred train_data].
  step H acc s2 H2. apply lift_ok in H2 as [_ ->].
  step H cv s3 H3. apply cv_score_ok in H3 as ->.
  assert (Hs1 : s' = s1).
  { destruct (float_gt acc (best_score st)); now apply ret_ok in H as [_ ->]. }
  subst s'. clear H.
  destruct (str_elem name scaled_names).
  - step H1 u s2 Hfit. destruct u. step H1 yp s3 Hpred. apply ret_ok in H1 as [_ ->].
    apply model_fit_ok in Hfit as (est & stm & _ & _ & ->).
    apply model_predict_ok in Hpred as (est' & X0 & y0 & _ & _ & ->).
    cbn [log]. now rewrite <- List.app_assoc.
  - step H1 u s2 Hfit. destruct u. step H1 yp s3 Hpred. apply ret_ok in H1 as [_ ->].
    apply model_fit_ok in Hfit as (est & stm & _ & _ & ->).
    apply model_predict_ok in Hpred as (est' & X0 & y0 & _ & _ & ->).
    cbn [log]. now rewrite <- List.app_assoc.
Qed.

Lemma loop_log (v : Views) (models : dict loc) (st best : Best) (s s' : state) :
  for_each (evaluate lib v) models st s = (Ok best, s') ->
  log s' = log s ++ comparison_events v models.
Proof.
  revert st s. induction models as [|entry models IH]; intros st s H; cbn [for_each] in H.
  - apply ret_ok in H as [_ ->]. cbn. now rewrite List.app_nil_r.
  - step H st1 s1 H1. apply evaluate_log in H1. apply IH in H.
    rewrite H, H1. unfold comparison_events. cbn [flat_map].
    now rewrite List.app_nil_r, <- List.app_assoc.
Qed.

Lemma refit_log (scaler : loc) (best : Best) (X : Matrix) (y : Labels)
    (s s' : state) (st0 : option Matrix) :
  heap s !! scaler = Some (OScaler st0) ->
  refit_and_save lib scaler best X y s = (Ok tt, s') ->
  exists evs, log s' = log s ++ evs.
Proof.
  intros Hsc H. destruct (name_in_scaled (best_model_name best)) eqn:Hn.
  - destruct (refit_and_save_scaled lib _ _ _ _ _ _ _ Hn Hsc H)
      as (lm & est & stm & Xs & _ & _ & _ & _ & _ & ->). cbn [log]. eauto.
  - destruct (refit_and_save_unscaled lib _ _ _ _ _ _ Hn H)
      as (lm & est & stm & _ & _ & _ & ->). cbn [log]. eauto.
Qed.

(** X20: until a candidate is selected, the held-out rows are never
    fitted on.  A run that returns starts with one scaler fit, on the
    train partition of the split of the loaded rows; both scaled views
    are transforms by that scaler; then each of the four candidates, in
    declaration order, is fitted on its train view and predicts its test
    view, and these are all the calls on the objects up to the end of the
    comparison. *)
Theorem comparison_fits_train_rows_only (s s' : state) :
  train_email_classifier lib s = (Ok tt, s') ->
  exists fc X y v models rest,
    load_training_data s = (Ok (fc, X, y), s) /\
    train_test_split lib X y = Ok (X_train v, X_test v, y_train v, y_test v) /\
    scaler_apply lib (X_train v) (X_train v) = Ok (X_train_scaled v) /\
    scaler_apply lib (X_train v) (X_test v) = Ok (X_test_scaled v) /\
    keys models = keys candidates /\
    log s' = log s ++
             [EScalerFit (next_loc s) (X_train v);
              EScalerTransform (next_loc s) (X_train v);
              EScalerTransform (next_loc s) (X_test v)] ++
             comparison_events v models ++ rest.
Proof.
  intros H. destruct (train_phases lib s s' H)
    as (fc & X & y & Xtr & Xte & ytr & yte & scaler & Xtr_s & Xte_s & models & best &
        s1 & s2 & s3 & s4 & Hload & Hsplit & Hscale & Hmodels & Hloop & Hrefit & Hsmoke).
  destruct (scaler_after_loop lib _ _ _ _ _ _ _ _ _ _ _ _ Hscale Hmodels Hloop)
    as (-> & Hsc & _ & Hkeys & _).
  pose proof (loop_log _ _ _ _ _ _ Hloop) as Hl3.
  destruct (refit_log _ _ _ _ _ _ _ Hsc Hrefit) as [evs4 Hl4].
  pose proof (preserves_for_each (R := calm) _ _ _
                (fun st email => calm_smoke_test lib fc (make_metadata best fc) (next_loc s)
                                   (best_model best) email) _ _ _ Hsmoke)
    as (_ & _ & _ & _ & evs5 & Hl5 & _).
  cbn [log] in Hl5.
  destruct (make_models_run candidates s1) as (m' & s2' & Hrun & _ & _ & Hl2 & _).
  rewrite Hrun in Hmodels. injection Hmodels as -> ->.
  apply scale_features_ok in Hscale as (_ & _ & Htr & Hte & ->). cbn [log] in Hl2.
  exists fc, X, y,
    {| X_train := Xtr; X_test := Xte; y_train := ytr; y_test := yte;
       X_train_scaled := Xtr_s; X_test_scaled := Xte_s |},
    models, (evs4 ++ evs5).
  cbn [X_train X_test y_train y_test X_train_scaled X_test_scaled].
  split; [exact Hload |]. split; [exact Hsplit |]. split; [exact Htr |].
  split; [exact Hte |]. split; [exact Hkeys |].
  rewrite Hl5, Hl4, Hl3, Hl2. now rewrite <- !List.app_assoc.
Qed.

End Partitions.

Lemma comparison_fits_train_rows_only_witness :
  exists fc X y v models rest,
    load_training_data start_state = (Ok (fc, X, y), start_state) /\
    train_test_split (Scripted.scripted Scripted.all_tied) X y =
      Ok (X_train v, X_test v, y_train v, y_test v) /\
    scaler_apply (Scripted.scripted Scripted.all_tied) (X_train v) (X_train v) =
      Ok (X_train_scaled v) /\
    scaler_apply (Scripted.scripted Scripted.all_tied) (X_train v) (X_test v) =
      Ok (X_test_scaled v) /\
    keys models = keys candidates /\
    log (snd (train_email_classifier (Scripted.scripted Scripted.all_tied) start_state)) =
      log start_state ++
      [EScalerFit (next_loc start_state) (X_train v);
       EScalerTransform (next_loc start_state) (X_train v);
       EScalerTransform (next_loc start_state) (X_test v)] ++
      comparison_events v models ++ rest.
Proof.
  apply (comparison_fits_train_rows_only (Scripted.scripted Scripted.all_tied) start_state).
  vm_compute. reflexivity.
Defined.

End PartitionFacts.

(* ===================================================================== *)
(** * When no candidate is right on any held-out row *)
(* ===================================================================== *)

Module ZeroFacts.
Import Text Py Features Trainer Runs Notions
       RunFacts FrameFacts PhaseFacts LoopFacts SummaryFacts TrainerFacts SelectFacts
       FilesFacts ValidationFacts.

Section Zero.

Variable lib : Sklearn.

(** One turn of the loop on a candidate that fits, predicts and
    cross-validates. *)
Lemma evaluate_run (v : Views) (st : Best) (name : string) (l : loc)
    (est : Estimator) (stm : option (Matrix * Labels)) (acc : pyfloat)
    (cv : list pyfloat) (s : state) :
  heap s !! l = Some (OModel est stm) ->
  candidate_accuracy lib v (name, est) = Ok acc ->
  cross_val_score lib est (train_view v name) (y_train v) = Ok cv ->
  exists s', evaluate lib v st (name, l) s = (Ok (update st name l acc), s').
Proof.
  intros Hl Hacc Hcv. unfold candidate_accuracy in Hacc.
  destruct (estimator_check lib est (train_view v name) (y_train v)) as [[]|e1] eqn:Hc;
    [| discriminate]. cbn [rbind] in Hacc.
  destruct (estimator_predict lib est (train_view v name) (y_train v) (test_view v name))
    as [y_pred|e1] eqn:Hp; [| discriminate]. cbn [rbind] in Hacc.
  unfold evaluate, update, train_view, test_view in *.
  destruct (str_elem name scaled_names).
  - eexists.
    rewrite (bind_step _ _ _ _ _ (fit_predict_run lib _ _ _ _ _ _ _ _ Hl Hc Hp)).
    cbv beta iota. rewrite bind_run. unfold lift at 1. rewrite Hacc.
    erewrite bind_step.
    2:{ unfold cv_score. rewrite bind_run. unfold get_model. cbn [heap].
        rewrite lookup_insert_eq. unfold lift. rewrite Hcv. reflexivity. }
    destruct (float_gt acc (best_score st)); reflexivity.
  - eexists.
    rewrite (bind_step _ _ _ _ _ (fit_predict_run lib _ _ _ _ _ _ _ _ Hl Hc Hp)).
    cbv beta iota. rewrite bind_run. unfold lift at 1. rewrite Hacc.
    erewrite bind_step.
    2:{ unfold cv_score. rewrite bind_run. unfold get_model. cbn [heap].
        rewrite lookup_insert_eq. unfold lift. rewrite Hcv. reflexivity. }
    destruct (float_gt acc (best_score st)); reflexivity.
Qed.

Lemma update_not_above (st : Best) (name : string) (l : loc) (q q0 : Q) :
  best_score st = Fin q0 -> (q <= q0)%Q -> update st name l (Fin q) = st.
Proof.
  intros Hst Hle. unfold update. rewrite Hst.
  now rewrite (proj2 (float_gt_le q q0) Hle).
Qed.

(** Candidates that score 0 leave the loop variables as they are. *)
Lemma loop_all_zero (v : Views) (specs : dict Estimator) (models : dict loc)
    (st : Best) (q0 : Q) (s : state) :
  Forall2 (placed s) specs models ->
  Forall (fun spec => exists q, candidate_accuracy lib v spec = Ok (Fin q) /\ (q == 0)%Q)
    specs ->
  Forall (fun spec => exists cv, cross_val_score lib (snd spec) (train_view v (fst spec))
                                   (y_train v) = Ok cv) specs ->
  best_score st = Fin q0 -> (0 <= q0)%Q ->
  exists s', for_each (evaluate lib v) models st s = (Ok st, s').
Proof.
  revert specs st s. induction models as [|entry models IH];
    intros specs st s HF Hz Hcv Hst Hq0; cbn [for_each].
  - now exists s.
  - inversion HF as [|spec entry' specs' models' Hp HF' E1 E2]; subst.
    apply Forall_cons in Hz as [(q & Hacc & Hq) Hz].
    apply Forall_cons in Hcv as [[cv Hcv1] Hcv].
    destruct spec as [name est], entry as [name' l].
    destruct Hp as [Hname [stm Hl]]. cbn [fst snd] in *. subst name'.
    destruct (evaluate_run v st name l est stm (Fin q) cv s Hl Hacc Hcv1) as [s1 Hev].
    rewrite (update_not_above st name l q q0 Hst) in Hev
      by (rewrite Hq; exact Hq0).
    rewrite (bind_step _ _ _ _ _ Hev).
    assert (Hcalm : calm s s1) by exact (calm_evaluate lib _ _ _ _ _ _ Hev).
    apply (IH specs' st s1); try assumption.
    eapply Forall2_impl; [exact HF' |]. intros sp en. now apply placed_calm.
Qed.

(** The partitions of [comparison_views] are those of the run's own
    loading, splitting and scaling. *)
Lemma comparison_views_phases (s : state) (v : Views) :
  comparison_views lib s = Ok v ->
  exists fc X y scaler s1,
    load_training_data s = (Ok (fc, X, y), s) /\
    train_test_split lib X y = Ok (X_train v, X_test v, y_train v, y_test v) /\
    scale_features lib (X_train v) (X_test v) s =
      (Ok (scaler, X_train_scaled v, X_test_scaled v), s1).
Proof.
  unfold comparison_views.
  match goal with |- fst (?m s) = _ -> _ => destruct (m s) as [r s'] eqn:H end.
  cbn [fst]. intros ->.
  step H p s0 Hload. destruct p as [[fc X] y].
  pose proof (load_training_data_ok _ _ _ _ _ Hload) as [-> _].
  step H q s0 Hsplit. destruct q as [[[Xtr Xte] ytr] yte].
  apply lift_ok in Hsplit as [Hsplit ->].
  step H r s1 Hscale. destruct r as [[scaler Xtr_s] Xte_s].
  apply ret_ok in H as [-> _].
  exists fc, X, y, scaler, s1. auto.
Qed.

(** C3: the code departs from the claim when every candidate is wrong on
    every held-out row.  All four then tie at the highest accuracy, 0, and
    the claim selects the first declared; the code compares each accuracy
    with the initial [best_score = 0] by [>], selects none, and the final
    fit raises on [None]: the run fails and no file is written.  This
    holds whatever scikit-learn does otherwise. *)
Theorem zero_accuracy_selects_nothing (s : state) (v : Views) :
  comparison_views lib s = Ok v ->
  Forall (fun spec => exists q, candidate_accuracy lib v spec = Ok (Fin q) /\ (q == 0)%Q)
    candidates ->
  Forall (fun spec => exists cv, cross_val_score lib (snd spec) (train_view v (fst spec))
                                   (y_train v) = Ok cv) candidates ->
  exists s',
    train_email_classifier lib s =
      (Err (AttributeError "'NoneType' object has no attribute 'fit'"), s') /\
    fs s' = fs s.
Proof.
  intros Hv Hz Hcv.
  destruct (comparison_views_phases s v Hv) as (fc & X & y & scaler & s1 & Hload & Hsplit & Hscale).
  destruct (make_models_run candidates s1) as (models & s2 & Hmodels & _ & _).
  destruct (loop_all_zero v candidates models no_best 0 s2
              (make_models_placed _ _ _ _ Hmodels) Hz Hcv eq_refl (Qle_refl 0))
    as [s3 Hloop].
  destruct v as [Xtr Xte ytr yte Xtr_s Xte_s].
  cbn [X_train X_test y_train y_test X_train_scaled X_test_scaled] in *.
  exists s3. split.
  - unfold train_email_classifier.
    rewrite (bind_step _ _ _ _ _ Hload). cbv beta iota.
    rewrite bind_run. unfold lift at 1. rewrite Hsplit. cbv beta iota.
    rewrite (bind_step _ _ _ _ _ Hscale). cbv beta iota.
    rewrite (bind_step _ _ _ _ _ Hmodels). cbv beta iota zeta.
    rewrite (bind_step _ _ _ _ _ Hloop).
    apply bind_err. unfold refit_and_save. apply bind_err. reflexivity.
  - pose proof (preserves_for_each (R := calm) _ models no_best
                  (fun st0 a => calm_evaluate lib _ st0 a) _ _ _ Hloop) as (K3 & _).
    pose proof (kept_make_models _ _ _ _ Hmodels) as K2.
    pose proof (kept_scale_features lib _ _ _ _ _ Hscale) as K1.
    unfold files_kept in *. congruence.
Qed.

End Zero.

Lemma zero_accuracy_selects_nothing_witness :
  exists s',
    train_email_classifier (Scripted.scripted Scripted.never_right) start_state =
      (Err (AttributeError "'NoneType' object has no attribute 'fit'"), s') /\
    fs s' = fs start_state.
Proof.
  apply (zero_accuracy_selects_nothing (Scripted.scripted Scripted.never_right) start_state
           (views_of (Scripted.scripted Scripted.never_right) start_state)).
  - vm_compute. reflexivity.
  - do 4 (constructor;
          [exists (0 # 6)%Q; split; [vm_compute; reflexivity | reflexivity] |]).
    constructor.
  - do 4 (constructor; [exists (repeat (Fin 1) 5); vm_compute; reflexivity |]).
    constructor.
Defined.

End ZeroFacts.
